(** * Hail's Python binding layer: type tags, bridge helpers, distributions

    A shallow embedding of [python/hail/expr.py], [python/hail/java.py] and
    [python/hail/stats.py].  Python values are an inductive type, exceptions
    are an error result, and the process-wide state the code reads and
    writes (the attributes of class [Env], the instance table of the
    [Singleton] metaclass, the calls sent through the py4j gateway) is one
    record that every effectful function threads explicitly. *)

From Stdlib Require Import ZArith List Bool Lia.
From Stdlib Require Import Floats.SpecFloat.
From Stdlib Require Import DecimalString.
From stdpp Require Import base option list strings gmap.

Set Warnings "-register-all".

Open Scope Z_scope.
Open Scope string_scope.

(** ** Python values *)

(** The six record classes of [hail.representation] that have a type tag. *)
Inductive repclass :=
  | Variant | AltAllele | Genotype | Call | Locus | Interval.

(** Values the binding layer handles.  [VInt] .. [VUnicode] are the Python 2
    built-in scalars, [VList], [VSet], [VDict] the built-in containers (a
    set as the list of its elements, a dict as the list of its items),
    [VStruct] a [hail.representation.Struct] holding its attribute dict,
    [VRep] an instance of a record class holding its [_jrep] handle.  The
    [J..] constructors are py4j handles to objects that live in the
    engine: Scala sequences, sets, maps, pairs, rows and [Some], the
    object a constructor call returned ([JApply]), an engine object known
    only by identity ([JObj]), and a package, class or Scala singleton
    object reached by its qualified name ([JPath]). *)
Inductive value :=
  | VNone
  | VInt (z : Z)
  | VLong (z : Z)
  | VFloat (f : spec_float)
  | VBool (b : bool)
  | VStr (s : string)
  | VUnicode (s : string)
  | VList (elts : list value)
  | VSet (elts : list value)
  | VDict (items : list (value * value))
  | VStruct (attrs : list (string * value))
  | VRep (c : repclass) (_jrep : value)
  | JISeq (elts : list value)
  | JSet (elts : list value)
  | JMap (items : list (value * value))
  | JTuple2 (_1 _2 : value)
  | JRow (elts : list value)
  | JSome (x : value)
  | JApply (target : string) (args : list value)
  | JObj (id : nat)
  | JPath (fqn : string).

(** Python classes of values, as far as [isinstance] is asked about them. *)
Inductive pyclass :=
  | CNoneType | CInt | CLong | CFloat | CBool | CStr | CUnicode
  | CList | CSet | CDict | CStruct | CRep (c : repclass) | CJavaObject.

Definition type_of (v : value) : pyclass :=
  match v with
  | VNone => CNoneType
  | VInt _ => CInt
  | VLong _ => CLong
  | VFloat _ => CFloat
  | VBool _ => CBool
  | VStr _ => CStr
  | VUnicode _ => CUnicode
  | VList _ => CList
  | VSet _ => CSet
  | VDict _ => CDict
  | VStruct _ => CStruct
  | VRep c _ => CRep c
  | JISeq _ | JSet _ | JMap _ | JTuple2 _ _ | JRow _
  | JSome _ | JApply _ _ | JObj _ | JPath _ => CJavaObject
  end.

#[global] Instance repclass_eq_dec : EqDecision repclass.
Proof. solve_decision. Defined.

#[global] Instance pyclass_eq_dec : EqDecision pyclass.
Proof. solve_decision. Defined.

(** [issubclass]: every class is its own subclass, and [bool] derives
    from [int]. *)
Definition issubclass (c d : pyclass) : bool :=
  match c, d with
  | CBool, CInt => true
  | _, _ => bool_decide (c = d)
  end.

Definition isinstance (v : value) (c : pyclass) : bool :=
  issubclass (type_of v) c.

Definition float_is_zero (f : spec_float) : bool :=
  match f with
  | S754_zero _ => true
  | _ => false
  end.

Definition nonempty {A} (l : list A) : bool :=
  match l with
  | [] => false
  | _ :: _ => true
  end.

(** Truth value of an object, as [if x:] tests it: [None], zero of any
    number type, and empty strings and containers are false.  Class
    [Struct] of [hail.representation] is not among the sources; it is
    taken to have the length of its attribute dict, as a mapping has.
    Instances of the record
    classes and py4j handles define neither [__nonzero__] nor [__len__]
    and are true. *)
Definition truthy (v : value) : bool :=
  match v with
  | VNone => false
  | VInt z | VLong z => negb (z =? 0)%Z
  | VFloat f => negb (float_is_zero f)
  | VBool b => b
  | VStr s | VUnicode s => negb (String.eqb s "")
  | VList l | VSet l => nonempty l
  | VDict d => nonempty d
  | VStruct a => nonempty a
  | VRep _ _ => true
  | JISeq _ | JSet _ | JMap _ | JTuple2 _ _ | JRow _
  | JSome _ | JApply _ _ | JObj _ | JPath _ => true
  end.

(** ** Exceptions and results *)

(** Text of a [TypeCheckError]: either "[tag] expected type ..., but found
    type [found]" or the missing-field message of [TStruct]. *)
Inductive tc_message :=
  | ExpectedType (tag : string) (found : pyclass)
  | ExpectedFields (expected : list string) (found : list string).

Inductive exn :=
  | TypeCheckError (msg : tc_message)
  | TypeError (msg : string)
  | ValueError (msg : string)
  | NotImplementedError (msg : string)
  | EnvironmentError (msg : string)
  | AttributeError (attr : string)
  | OverflowError
  | Py4JError.

Inductive result (A : Type) :=
  | Ok (a : A)
  | Raise (e : exn).
Arguments Ok {A} a.
Arguments Raise {A} e.

Definition is_ok {A} (r : result A) : bool :=
  match r with
  | Ok _ => true
  | Raise _ => false
  end.

Definition is_TypeCheckError {A} (r : result A) : bool :=
  match r with
  | Raise (TypeCheckError _) => true
  | _ => false
  end.

(** Sequencing of fallible steps that touch no state. *)
Definition rbind {A B} (r : result A) (k : A -> result B) : result B :=
  match r with
  | Ok a => k a
  | Raise e => Raise e
  end.

(** [for x in l: body(x)] where the body may raise. *)
Section Rfor.
Context {A : Type} (body : A -> result unit).

Fixpoint rfor (l : list A) : result unit :=
  match l with
  | [] => Ok tt
  | x :: l' => rbind (body x) (fun _ => rfor l')
  end.
End Rfor.

(** A Python dict with string keys, as the list of its items. *)
Fixpoint str_dict_get {V} (d : list (string * V)) (k : string) : option V :=
  match d with
  | [] => None
  | (k', v) :: d' => if String.eqb k' k then Some v else str_dict_get d' k
  end.

(** ** The engine's type objects and their Python mirrors (expr.py) *)

(** A type object of the engine, as seen through the gateway: what
    [getClass().getCanonicalName()] answers, and the component accessors
    the four parameterised classes have.  [JObject] stands for an object
    of any other class, in particular the Scala singleton objects
    [is.hail.expr.TInt$] and the like. *)
Inductive jtype :=
  | JObject (canonicalName : string)
  | JTArray (elementType : jtype)
  | JTSet (elementType : jtype)
  | JTDict (keyType valueType : jtype)
  | JTStruct (jfields : list jfield)
with jfield :=
  | JField (jname : string) (jtyp : jtype) (attrsJava : gmap string string).

Definition getCanonicalName (j : jtype) : string :=
  match j with
  | JObject n => n
  | JTArray _ => "is.hail.expr.TArray"
  | JTSet _ => "is.hail.expr.TSet"
  | JTDict _ _ => "is.hail.expr.TDict"
  | JTStruct _ => "is.hail.expr.TStruct"
  end.

(** Instances of the subclasses of [Type], with the attributes their
    constructors set.  The twelve parameterless classes store only
    [_jtype], which [__init__] fetches from the engine by the class's own
    name (see [_jtype] below). *)
Inductive Type_ :=
  | TInt | TLong | TFloat | TDouble | TString | TBoolean
  | TVariant | TAltAllele | TGenotype | TCall | TLocus | TInterval
  | TArray (jt : jtype) (element_type : Type_)
  | TSet (jt : jtype) (element_type : Type_)
  | TDict (jt : jtype) (key_type value_type : Type_)
  | TStruct (jt : jtype) (fields : list Field)
with Field :=
  | mkField (name : string) (typ : Type_) (attributes : gmap string string).

Definition Field_name (f : Field) : string :=
  match f with mkField n _ _ => n end.

Definition Field_typ (f : Field) : Type_ :=
  match f with mkField _ t _ => t end.

Definition Field_attributes (f : Field) : gmap string string :=
  match f with mkField _ _ a => a end.

(** [scala_object(Env.hail().expr, name)]: the Scala singleton object
    [is.hail.expr.name$]. *)
Definition expr_object (name : string) : jtype :=
  JObject ("is.hail.expr." ++ name ++ "$").

Definition _jtype (t : Type_) : jtype :=
  match t with
  | TInt => expr_object "TInt"
  | TLong => expr_object "TLong"
  | TFloat => expr_object "TFloat"
  | TDouble => expr_object "TDouble"
  | TString => expr_object "TString"
  | TBoolean => expr_object "TBoolean"
  | TVariant => expr_object "TVariant"
  | TAltAllele => expr_object "TAltAllele"
  | TGenotype => expr_object "TGenotype"
  | TCall => expr_object "TCall"
  | TLocus => expr_object "TLocus"
  | TInterval => expr_object "TInterval"
  | TArray jt _ | TSet jt _ | TDict jt _ _ | TStruct jt _ => jt
  end.

(** *** [_typecheck] *)

(** [raise TypeCheckError("<tag> expected type ..., but found type '%s'" %
    type(annotation))]. *)
Definition unexpected_type (tag : string) (annotation : value) : result unit :=
  Raise (TypeCheckError (ExpectedType tag (type_of annotation))).

(** The shared shape of the parameterless classes' check:
    [if annotation and not isinstance(annotation, c1 or c2): raise]. *)
Definition check_instance (tag : string) (classes : list pyclass)
    (annotation : value) : result unit :=
  if truthy annotation && negb (existsb (isinstance annotation) classes)
  then unexpected_type tag annotation
  else Ok tt.

(** Method [_typecheck] of every subclass, dispatched on the instance.
    For the container classes the [isinstance] test is the match on the
    value's constructor; the loops are those of the source.  The message
    of [TFloat] names [TDouble], as in the source. *)
Fixpoint _typecheck (self : Type_) (annotation : value) : result unit :=
  match self with
  | TInt => check_instance "TInt" [CInt] annotation
  | TLong => check_instance "TLong" [CLong; CInt] annotation
  | TFloat => check_instance "TDouble" [CFloat] annotation
  | TDouble => check_instance "TDouble" [CFloat] annotation
  | TString => check_instance "TString" [CStr; CUnicode] annotation
  | TBoolean => check_instance "TBoolean" [CBool] annotation
  | TVariant => check_instance "TVariant" [CRep Variant] annotation
  | TAltAllele => check_instance "TAltAllele" [CRep AltAllele] annotation
  | TGenotype => check_instance "TGenotype" [CRep Genotype] annotation
  | TCall => check_instance "TCall" [CRep Call] annotation
  | TLocus => check_instance "TLocus" [CRep Locus] annotation
  | TInterval => check_instance "TInterval" [CRep Interval] annotation
  | TArray _ element_type =>
      if truthy annotation then
        match annotation with
        | VList elts => rfor (_typecheck element_type) elts
        | _ => unexpected_type "TArray" annotation
        end
      else Ok tt
  | TSet _ element_type =>
      if truthy annotation then
        match annotation with
        | VSet elts => rfor (_typecheck element_type) elts
        | _ => unexpected_type "TSet" annotation
        end
      else Ok tt
  | TDict _ key_type value_type =>
      if truthy annotation then
        match annotation with
        | VDict items =>
            rfor (fun kv =>
                    rbind (_typecheck key_type (fst kv)) (fun _ =>
                    _typecheck value_type (snd kv)))
                 items
        | _ => unexpected_type "TDict" annotation
        end
      else Ok tt
  | TStruct _ fields =>
      if truthy annotation then
        match annotation with
        | VStruct attrs =>
            rfor (fun f =>
                    match str_dict_get attrs (Field_name f) with
                    | None =>
                        Raise (TypeCheckError
                                 (ExpectedFields (map Field_name fields)
                                                 (map fst attrs)))
                    | Some x => _typecheck (Field_typ f) x
                    end)
                 fields
        | _ => unexpected_type "TStruct" annotation
        end
      else Ok tt
  end.

(** ** Keys of dicts and elements of sets *)

Definition spec_float_eqb (f g : spec_float) : bool :=
  match f, g with
  | S754_zero s, S754_zero t => Bool.eqb s t
  | S754_infinity s, S754_infinity t => Bool.eqb s t
  | S754_nan, S754_nan => true
  | S754_finite s m e, S754_finite t n e' =>
      Bool.eqb s t && (m =? n)%positive && (e =? e')%Z
  | _, _ => false
  end.

Definition repclass_eqb (c d : repclass) : bool := bool_decide (c = d).

Section ListEqb.
Context {A : Type} (eqb : A -> A -> bool).

Fixpoint list_eqb (l m : list A) : bool :=
  match l, m with
  | [], [] => true
  | x :: l', y :: m' => eqb x y && list_eqb l' m'
  | _, _ => false
  end.
End ListEqb.

(** When two values are the same key of a dict or the same element of a
    set.  The model takes two keys to be the same when they are the same
    value; Python's coercions between number types and between [str] and
    [unicode] are left out. *)
Fixpoint value_eqb (a b : value) : bool :=
  match a, b with
  | VNone, VNone => true
  | VInt x, VInt y => (x =? y)%Z
  | VLong x, VLong y => (x =? y)%Z
  | VFloat f, VFloat g => spec_float_eqb f g
  | VBool x, VBool y => Bool.eqb x y
  | VStr s, VStr t => String.eqb s t
  | VUnicode s, VUnicode t => String.eqb s t
  | VList l, VList m => list_eqb value_eqb l m
  | VSet l, VSet m => list_eqb value_eqb l m
  | VDict l, VDict m =>
      list_eqb (fun p q => value_eqb (fst p) (fst q) && value_eqb (snd p) (snd q)) l m
  | VStruct l, VStruct m =>
      list_eqb (fun p q => String.eqb (fst p) (fst q) && value_eqb (snd p) (snd q)) l m
  | VRep c x, VRep d y => repclass_eqb c d && value_eqb x y
  | JISeq l, JISeq m => list_eqb value_eqb l m
  | JSet l, JSet m => list_eqb value_eqb l m
  | JMap l, JMap m =>
      list_eqb (fun p q => value_eqb (fst p) (fst q) && value_eqb (snd p) (snd q)) l m
  | JTuple2 x1 x2, JTuple2 y1 y2 => value_eqb x1 y1 && value_eqb x2 y2
  | JRow l, JRow m => list_eqb value_eqb l m
  | JSome x, JSome y => value_eqb x y
  | JApply s l, JApply t m => String.eqb s t && list_eqb value_eqb l m
  | JObj i, JObj j => (i =? j)%nat
  | JPath s, JPath t => String.eqb s t
  | _, _ => false
  end.

Section Dict.
Context {K V : Type} (eqb : K -> K -> bool).

Fixpoint dict_get (d : list (K * V)) (k : K) : option V :=
  match d with
  | [] => None
  | (k', v) :: d' => if eqb k' k then Some v else dict_get d' k
  end.

(** [d[k] = v]: replaces the value of a key already present, adds the
    item otherwise. *)
Fixpoint dict_setitem (d : list (K * V)) (k : K) (v : V) : list (K * V) :=
  match d with
  | [] => [(k, v)]
  | (k', v') :: d' =>
      if eqb k' k then (k', v) :: d' else (k', v') :: dict_setitem d' k v
  end.

(** The dict built by assigning the items of [l] in order. *)
Definition dict_of_items (l : list (K * V)) : list (K * V) :=
  fold_left (fun d kv => dict_setitem d (fst kv) (snd kv)) l [].
End Dict.

(** [set(l)]: the elements of [l] without repetition. *)
Fixpoint set_of_list (l : list value) : list value :=
  match l with
  | [] => []
  | x :: l' =>
      let s := set_of_list l' in
      if existsb (value_eqb x) s then s else x :: s
  end.

(** ** Process state and effects *)

(** The twelve classes whose metaclass is [SingletonType]. *)
Inductive singleton_class :=
  | TInt_cls | TLong_cls | TFloat_cls | TDouble_cls | TString_cls
  | TBoolean_cls | TVariant_cls | TAltAllele_cls | TGenotype_cls
  | TCall_cls | TLocus_cls | TInterval_cls.

#[global] Instance singleton_class_eq_dec : EqDecision singleton_class.
Proof. solve_decision. Defined.

Definition singleton_class_index (c : singleton_class) : nat :=
  match c with
  | TInt_cls => 0 | TLong_cls => 1 | TFloat_cls => 2 | TDouble_cls => 3
  | TString_cls => 4 | TBoolean_cls => 5 | TVariant_cls => 6
  | TAltAllele_cls => 7 | TGenotype_cls => 8 | TCall_cls => 9
  | TLocus_cls => 10 | TInterval_cls => 11
  end%nat.

Definition singleton_class_of_index (n : nat) : singleton_class :=
  match n with
  | 0 => TInt_cls | 1 => TLong_cls | 2 => TFloat_cls | 3 => TDouble_cls
  | 4 => TString_cls | 5 => TBoolean_cls | 6 => TVariant_cls
  | 7 => TAltAllele_cls | 8 => TGenotype_cls | 9 => TCall_cls
  | 10 => TLocus_cls | _ => TInterval_cls
  end%nat.

#[global] Instance singleton_class_countable : Countable singleton_class.
Proof.
  apply (inj_countable' singleton_class_index singleton_class_of_index).
  intros c. destruct c; reflexivity.
Defined.

(** An object made by calling a class: its identity and its state. *)
Record instance := mkInstance {
  oid : nat;
  obj : Type_;
}.

(** Who a gateway call is sent to: something reached by name, or a
    value held through a handle. *)
Inductive jreceiver :=
  | OnPath (fqn : string)
  | OnValue (v : value).

(** One method call sent through the py4j gateway to the engine's
    helpers, collections, options or distribution classes.  Reading the
    class name and the components of a type object is not recorded. *)
Record jcall := mkCall {
  receiver : jreceiver;
  method : string;
  arguments : list value;
}.

(** The view of a running JVM that a Hail context stores in [Env._jvm]. *)
Inductive JVMView :=
  | JVM (gateway_id : nat).

(** What the three files keep outside their functions: the class
    attributes of [Env] ([None], the JVM view, or the qualified name a
    package or object handle stands for), the dict
    [Singleton._instances], the counter that gives new objects their
    identity, and the calls sent to the engine so far, oldest first. *)
Record world := mkWorld {
  _jvm : option JVMView;
  _hail_package : option string;
  _jutils : option string;
  _instances : gmap singleton_class instance;
  next_oid : nat;
  gateway_calls : list jcall;
}.

Definition set_hail_package (p : string) (w : world) : world :=
  mkWorld (_jvm w) (Some p) (_jutils w) (_instances w) (next_oid w)
          (gateway_calls w).

Definition set_jutils (p : string) (w : world) : world :=
  mkWorld (_jvm w) (_hail_package w) (Some p) (_instances w) (next_oid w)
          (gateway_calls w).

Definition set_instance (c : singleton_class) (i : instance) (w : world) : world :=
  mkWorld (_jvm w) (_hail_package w) (_jutils w) (<[c := i]> (_instances w))
          (next_oid w) (gateway_calls w).

Definition bump_oid (w : world) : world :=
  mkWorld (_jvm w) (_hail_package w) (_jutils w) (_instances w)
          (S (next_oid w)) (gateway_calls w).

Definition log_call (c : jcall) (w : world) : world :=
  mkWorld (_jvm w) (_hail_package w) (_jutils w) (_instances w) (next_oid w)
          (gateway_calls w ++ [c]).

(** A computation that reads and writes the process state and may raise. *)
Definition M (A : Type) : Type := world -> result A * world.

Definition ret {A} (a : A) : M A := fun w => (Ok a, w).

Definition raise {A} (e : exn) : M A := fun w => (Raise e, w).

Definition bind {A B} (m : M A) (k : A -> M B) : M B :=
  fun w =>
    match m w with
    | (Ok a, w') => k a w'
    | (Raise e, w') => (Raise e, w')
    end.

Notation "'let*' x ':=' m 'in' k" := (bind m (fun x => k))
  (at level 10, x name, m at level 100, k at level 200).

Definition lift {A} (r : result A) : M A := fun w => (r, w).

(** [[f(x) for x in l]], left to right, stopping at the first exception. *)
Section MapM.
Context {A B : Type} (f : A -> M B).

Fixpoint mapM (l : list A) : M (list B) :=
  match l with
  | [] => ret []
  | x :: l' =>
      let* y := f x in
      let* ys := mapM l' in
      ret (y :: ys)
  end.
End MapM.

(** A method call on the engine: the call is recorded, and the engine
    answers with [answer]. *)
Definition jinvoke {A} (r : jreceiver) (m : string) (args : list value)
    (answer : result A) : M A :=
  fun w => (answer, log_call (mkCall r m args) w).

(** ** Reaching the engine (java.py) *)

Definition no_context : exn :=
  EnvironmentError "no Hail context initialized, create one first".

(** Attribute access on a py4j package or class handle: the handle of
    the member of that name. *)
Definition jgetattr (p : string) (name : string) : string :=
  p ++ "." ++ name.

(** Attribute access on the JVM view: the top-level package of that
    name. *)
Definition jvm_getattr (j : JVMView) (name : string) : string := name.

(** [Env.jvm()] *)
Definition Env_jvm : M JVMView :=
  fun w =>
    match _jvm w with
    | None => (Raise no_context, w)
    | Some j => (Ok j, w)
    end.

(** [Env.hail()] *)
Definition Env_hail : M string :=
  fun w =>
    match _hail_package w with
    | Some p => (Ok p, w)
    | None =>
        match Env_jvm w with
        | (Ok j, w') =>
            let p := jgetattr (jvm_getattr j "is") "hail" in
            (Ok p, set_hail_package p w')
        | (Raise e, w') => (Raise e, w')
        end
    end.

(** [scala_object(jpackage, name)] *)
Definition scala_object (jpackage : string) (name : string) : string :=
  jgetattr (jgetattr jpackage (name ++ "$")) "MODULE$".

(** [scala_package_object(jpackage)] *)
Definition scala_package_object (jpackage : string) : string :=
  scala_object jpackage "package".

(** [Env.jutils()] *)
Definition Env_jutils : M string :=
  fun w =>
    match _jutils w with
    | Some u => (Ok u, w)
    | None =>
        match Env_hail w with
        | (Ok h, w') =>
            let u := scala_package_object (jgetattr h "utils") in
            (Ok u, set_jutils u w')
        | (Raise e, w') => (Raise e, w')
        end
    end.

(** [jnone()] *)
Definition jnone : M value :=
  let* j := Env_jvm in
  ret (JPath (scala_object (jvm_getattr j "scala") "None")).

(** [jsome(x)]: the constructor [scala.Some] is called with [x]. *)
Definition jsome (x : value) : M value :=
  let* j := Env_jvm in
  jinvoke (OnPath (jgetattr (jvm_getattr j "scala") "Some")) "apply" [x]
          (Ok (JSome x)).

(** [joption(x)] *)
Definition joption (x : value) : M value :=
  if truthy x then jsome x else jnone.

(** Modelled from the spec: the engine's [scala.Option] objects are not in
    the source; [isDefined()] and [get()] answer as Scala's [Some] and
    [None] do, and the bridge hands back the value a [Some] was made
    from. *)
Definition Option_isDefined (x : value) : result bool :=
  match x with
  | JSome _ => Ok true
  | JPath p => if String.eqb p "scala.None$.MODULE$" then Ok false
               else Raise Py4JError
  | _ => Raise (AttributeError "isDefined")
  end.

Definition Option_get (x : value) : result value :=
  match x with
  | JSome v => Ok v
  | _ => Raise Py4JError
  end.

(** [from_option(x)] *)
Definition from_option (x : value) : M value :=
  let* d := jinvoke (OnValue x) "isDefined" [] (Option_isDefined x) in
  if (d : bool) then jinvoke (OnValue x) "get" [] (Option_get x)
  else ret VNone.

(** ** The engine's helpers behind the gateway *)

Definition is_number (x : value) : bool :=
  match x with
  | VInt _ | VLong _ | VFloat _ | VBool _ => true
  | _ => false
  end.

(** Modelled from the spec: [makeInt], [makeLong] and [makeDouble] of the
    engine's [is.hail.utils] package object are not in the source.  The
    spec treats the bridge as the engine's own faithful serialization, so
    each gives back the number it was sent and rejects anything else. *)
Definition make_number (x : value) : result value :=
  if is_number x then Ok x else Raise Py4JError.

(** Modelled from the spec: [arrayListToISeq], [arrayListToSet],
    [javaMapToMap] and [Annotation.fromSeq] are not in the source.  Each
    builds the Scala collection that holds what it was sent. *)
Definition arrayListToISeq (l : list value) : result value := Ok (JISeq l).

Definition arrayListToSet (l : list value) : result value := Ok (JSet l).

Definition javaMapToMap (d : list (value * value)) : result value := Ok (JMap d).

Definition Annotation_fromSeq (s : value) : result value :=
  match s with
  | JISeq l => Ok (JRow l)
  | _ => Raise Py4JError
  end.

(** Modelled from the spec: [iterableToArrayList] is not in the source.  It
    lists the elements of a Scala collection, a map as its key-value
    pairs. *)
Definition iterableToArrayList (x : value) : result (list value) :=
  match x with
  | JISeq l | JSet l => Ok l
  | JMap d => Ok (map (fun kv => JTuple2 (fst kv) (snd kv)) d)
  | _ => Raise Py4JError
  end.

(** Modelled from the spec: the accessors [_1()] and [_2()] of a Scala
    pair and [get(i)] of a row. *)
Definition Tuple2_1 (x : value) : result value :=
  match x with
  | JTuple2 a _ => Ok a
  | _ => Raise Py4JError
  end.

Definition Tuple2_2 (x : value) : result value :=
  match x with
  | JTuple2 _ b => Ok b
  | _ => Raise Py4JError
  end.

Definition Row_get (x : value) (i : nat) : result value :=
  match x with
  | JRow l =>
      match nth_error l i with
      | Some v => Ok v
      | None => Raise Py4JError
      end
  | _ => Raise Py4JError
  end.

(** ** Python operations on annotations *)

Definition is_None (v : value) : bool :=
  match v with
  | VNone => true
  | _ => false
  end.

Fixpoint chars (s : string) : list string :=
  match s with
  | EmptyString => []
  | String c s' => String c EmptyString :: chars s'
  end.

(** [for elt in annotation]: what the loop ranges over, or the
    [TypeError] of an object that is not iterable. *)
Definition py_iter (annotation : value) : result (list value) :=
  match annotation with
  | VList l | VSet l => Ok l
  | VDict d => Ok (map fst d)
  | VStr s => Ok (map VStr (chars s))
  | VUnicode s => Ok (map VUnicode (chars s))
  | _ => Raise (TypeError "object is not iterable")
  end.

(** [annotation.iteritems()] *)
Definition py_iteritems (annotation : value) : result (list (value * value)) :=
  match annotation with
  | VDict d => Ok d
  | _ => Raise (AttributeError "iteritems")
  end.

(** Modelled from the spec: class [Struct] of [hail.representation] is not
    in the source.  It wraps a dict of attributes; [get(name)] is the
    dict's own [get], with [None] for a missing name.  A dict has [get]
    as well. *)
Definition py_get (annotation : value) (name : string) : result value :=
  match annotation with
  | VStruct attrs => Ok (default VNone (str_dict_get attrs name))
  | VDict d => Ok (default VNone (dict_get value_eqb d (VStr name)))
  | _ => Raise (AttributeError "get")
  end.

(** [annotation._jrep]: the handle an instance of a record class keeps. *)
Definition py_jrep (annotation : value) : result value :=
  match annotation with
  | VRep _ j => Ok j
  | _ => Raise (AttributeError "_jrep")
  end.

(** *** [_convert_to_j] *)

(** The shape shared by [TInt], [TLong] and [TDouble]. *)
Definition convert_number (maker : string) (annotation : value) : M value :=
  if truthy annotation then
    let* ju := Env_jutils in
    jinvoke (OnPath ju) maker [annotation] (make_number annotation)
  else ret annotation.

(** The shape shared by the six record classes. *)
Definition convert_rep (annotation : value) : M value :=
  if negb (is_None annotation) then lift (py_jrep annotation)
  else ret annotation.

(** Method [_convert_to_j] of every subclass.  Python evaluates the
    callee before the arguments, so [Env.jutils()] comes before the list
    comprehension where the call is written [Env.jutils().f([...])], and
    after it in [jset([...])]; a dict comprehension evaluates the value
    before the key. *)
Fixpoint _convert_to_j (self : Type_) (annotation : value) : M value :=
  match self with
  | TInt => convert_number "makeInt" annotation
  | TLong => convert_number "makeLong" annotation
  | TFloat =>
      raise (NotImplementedError
        "TFloat is currently unsupported in certain operations, use TDouble instead")
  | TDouble => convert_number "makeDouble" annotation
  | TString | TBoolean => ret annotation
  | TVariant | TAltAllele | TGenotype | TCall | TLocus | TInterval =>
      convert_rep annotation
  | TArray _ element_type =>
      if negb (is_None annotation) then
        let* ju := Env_jutils in
        let* elts := lift (py_iter annotation) in
        let* js := mapM (_convert_to_j element_type) elts in
        jinvoke (OnPath ju) "arrayListToISeq" [VList js] (arrayListToISeq js)
      else ret annotation
  | TSet _ element_type =>
      if negb (is_None annotation) then
        let* elts := lift (py_iter annotation) in
        let* js := mapM (_convert_to_j element_type) elts in
        let* ju := Env_jutils in
        jinvoke (OnPath ju) "arrayListToSet" [VList js] (arrayListToSet js)
      else ret annotation
  | TDict _ key_type value_type =>
      if negb (is_None annotation) then
        let* ju := Env_jutils in
        let* items := lift (py_iteritems annotation) in
        let* js := mapM (fun kv =>
                           let* v := _convert_to_j value_type (snd kv) in
                           let* k := _convert_to_j key_type (fst kv) in
                           ret (k, v))
                        items in
        let d := dict_of_items value_eqb js in
        jinvoke (OnPath ju) "javaMapToMap" [VDict d] (javaMapToMap d)
      else ret annotation
  | TStruct _ fields =>
      if negb (is_None annotation) then
        let* h := Env_hail in
        let companion := scala_object (jgetattr h "annotations") "Annotation" in
        let* ju := Env_jutils in
        let* js := mapM (fun f =>
                           let* x := lift (py_get annotation (Field_name f)) in
                           _convert_to_j (Field_typ f) x)
                        fields in
        let* s := jinvoke (OnPath ju) "arrayListToISeq" [VList js]
                          (arrayListToISeq js) in
        jinvoke (OnPath companion) "fromSeq" [s] (Annotation_fromSeq s)
      else ret annotation
  end.

(** *** [_convert_to_py] *)

(** [[f(i, x) for i, x in enumerate(l)]], counting from [i]. *)
Section MapMi.
Context {A B : Type} (f : nat -> A -> M B).

Fixpoint mapMi (i : nat) (l : list A) : M (list B) :=
  match l with
  | [] => ret []
  | x :: l' =>
      let* y := f i x in
      let* ys := mapMi (S i) l' in
      ret (y :: ys)
  end.
End MapMi.

(** [annotation.get(i)] with a position: a call on the engine's row when
    the annotation is a handle; the [get] of [Struct] and of [dict], for
    which a position is not a key, on the Python side. *)
Definition py_get_index (annotation : value) (i : nat) : M value :=
  match annotation with
  | VStruct _ => ret VNone
  | VDict d => ret (default VNone (dict_get value_eqb d (VInt (Z.of_nat i))))
  | JISeq _ | JSet _ | JMap _ | JTuple2 _ _ | JRow _
  | JSome _ | JApply _ _ | JObj _ | JPath _ =>
      jinvoke (OnValue annotation) "get" [VInt (Z.of_nat i)]
              (Row_get annotation i)
  | _ => raise (AttributeError "get")
  end.

(** Modelled from the spec: the record classes of [hail.representation]
    are not in the source.  [_from_java] of each wraps the handle it is
    given, which the instance keeps as [_jrep]. *)
Definition rep_from_java (c : repclass) (jrep : value) : value := VRep c jrep.

(** The shape shared by the six record classes. *)
Definition convert_rep_to_py (c : repclass) (annotation : value) : M value :=
  if truthy annotation then ret (rep_from_java c annotation)
  else ret annotation.

(** Method [_convert_to_py] of every subclass.  In an assignment
    [d[key] = value] the right-hand side is evaluated first. *)
Fixpoint _convert_to_py (self : Type_) (annotation : value) : M value :=
  match self with
  | TInt | TLong | TFloat | TDouble | TString | TBoolean => ret annotation
  | TVariant => convert_rep_to_py Variant annotation
  | TAltAllele => convert_rep_to_py AltAllele annotation
  | TGenotype => convert_rep_to_py Genotype annotation
  | TCall => convert_rep_to_py Call annotation
  | TLocus => convert_rep_to_py Locus annotation
  | TInterval => convert_rep_to_py Interval annotation
  | TArray _ element_type =>
      if truthy annotation then
        let* ju := Env_jutils in
        let* lst := jinvoke (OnPath ju) "iterableToArrayList" [annotation]
                            (iterableToArrayList annotation) in
        let* vs := mapM (_convert_to_py element_type) lst in
        ret (VList vs)
      else ret annotation
  | TSet _ element_type =>
      if truthy annotation then
        let* ju := Env_jutils in
        let* lst := jinvoke (OnPath ju) "iterableToArrayList" [annotation]
                            (iterableToArrayList annotation) in
        let* vs := mapM (_convert_to_py element_type) lst in
        ret (VSet (set_of_list vs))
      else ret annotation
  | TDict _ key_type value_type =>
      if truthy annotation then
        let* ju := Env_jutils in
        let* lst := jinvoke (OnPath ju) "iterableToArrayList" [annotation]
                            (iterableToArrayList annotation) in
        let* kvs := mapM (fun x =>
                            let* jv := jinvoke (OnValue x) "_2" [] (Tuple2_2 x) in
                            let* v := _convert_to_py value_type jv in
                            let* jk := jinvoke (OnValue x) "_1" [] (Tuple2_1 x) in
                            let* k := _convert_to_py key_type jk in
                            ret (k, v))
                         lst in
        ret (VDict (dict_of_items value_eqb kvs))
      else ret annotation
  | TStruct _ fields =>
      if truthy annotation then
        let* kvs := mapMi (fun i f =>
                             let* x := py_get_index annotation i in
                             let* v := _convert_to_py (Field_typ f) x in
                             ret (Field_name f, v))
                          0%nat fields in
        ret (VStruct (dict_of_items String.eqb kvs))
      else ret annotation
  end.

(** ** Making and finding type objects (expr.py) *)

(** The instance a parameterless class makes. *)
Definition instance_of (c : singleton_class) : Type_ :=
  match c with
  | TInt_cls => TInt | TLong_cls => TLong | TFloat_cls => TFloat
  | TDouble_cls => TDouble | TString_cls => TString
  | TBoolean_cls => TBoolean | TVariant_cls => TVariant
  | TAltAllele_cls => TAltAllele | TGenotype_cls => TGenotype
  | TCall_cls => TCall | TLocus_cls => TLocus | TInterval_cls => TInterval
  end.

(** [type.__call__] on a parameterless class: a new object, then its
    [__init__], which needs [Env.hail()] to fetch [_jtype]. *)
Definition new_instance (c : singleton_class) : M instance :=
  fun w =>
    let id := next_oid w in
    match Env_hail (bump_oid w) with
    | (Ok _, w') => (Ok (mkInstance id (instance_of c)), w')
    | (Raise e, w') => (Raise e, w')
    end.

(** [Singleton.__call__] *)
Definition Singleton_call (cls : singleton_class) : M instance :=
  fun w =>
    match _instances w !! cls with
    | Some i => (Ok i, w)
    | None =>
        match new_instance cls w with
        | (Ok i, w') => (Ok i, set_instance cls i w')
        | (Raise e, w') => (Raise e, w')
        end
    end.

Definition __singletons__ : gmap string singleton_class :=
  list_to_map
    [("is.hail.expr.TInt$", TInt_cls);
     ("is.hail.expr.TLong$", TLong_cls);
     ("is.hail.expr.TFloat$", TFloat_cls);
     ("is.hail.expr.TDouble$", TDouble_cls);
     ("is.hail.expr.TBoolean$", TBoolean_cls);
     ("is.hail.expr.TString$", TString_cls);
     ("is.hail.expr.TVariant$", TVariant_cls);
     ("is.hail.expr.TAltAllele$", TAltAllele_cls);
     ("is.hail.expr.TLocus$", TLocus_cls);
     ("is.hail.expr.TGenotype$", TGenotype_cls);
     ("is.hail.expr.TCall$", TCall_cls);
     ("is.hail.expr.TInterval$", TInterval_cls)].

Definition unknown_type_class (class_name : string) : exn :=
  TypeError ("unknown type class: '" ++ class_name ++ "'").

(** The handle of a type object of the engine, and of a field, where one
    is sent to the engine as an argument: an object of a parameterised
    class and a field as what their constructor makes of the components,
    an object of any other class by the name of its class. *)
Fixpoint jtype_handle (jt : jtype) : value :=
  match jt with
  | JObject n => JPath n
  | JTArray e => JApply "is.hail.expr.TArray" [jtype_handle e]
  | JTSet e => JApply "is.hail.expr.TSet" [jtype_handle e]
  | JTDict k v => JApply "is.hail.expr.TDict" [jtype_handle k; jtype_handle v]
  | JTStruct jfs =>
      JApply "is.hail.expr.TStruct"
        [JISeq (map (fun f =>
                       match f with
                       | JField n t a =>
                           JApply "is.hail.expr.Field"
                             [VUnicode n; jtype_handle t;
                              JMap (map (fun kv => (VUnicode (fst kv),
                                                    VUnicode (snd kv)))
                                        (map_to_list a))]
                       end) jfs)]
  end.

Definition jfield_handle (f : jfield) : value :=
  match f with
  | JField n t a =>
      JApply "is.hail.expr.Field"
        [VUnicode n; jtype_handle t;
         JMap (map (fun kv => (VUnicode (fst kv), VUnicode (snd kv)))
                   (map_to_list a))]
  end.

(** [jtype.fields()]: the engine's sequence of the fields of a struct
    type. *)
Definition jtype_fields (jfs : list jfield) : value :=
  JISeq (map jfield_handle jfs).

(** [Type._from_java] together with the [_from_java] of the four
    parameterised classes it hands over to.  Asking a type object for a
    component it does not have fails inside the gateway.  For a struct
    the engine's [iterableToArrayList] is called on the fields; the list
    it answers with is the list of the fields, which the comprehension
    then goes through. *)
Fixpoint _from_java (jt : jtype) : M Type_ :=
  let class_name := getCanonicalName jt in
  match __singletons__ !! class_name with
  | Some cls =>
      let* i := Singleton_call cls in
      ret (obj i)
  | None =>
      if String.eqb class_name "is.hail.expr.TArray" then
        match jt with
        | JTArray e =>
            let* t := _from_java e in
            ret (TArray jt t)
        | _ => raise Py4JError
        end
      else if String.eqb class_name "is.hail.expr.TSet" then
        match jt with
        | JTSet e =>
            let* t := _from_java e in
            ret (TSet jt t)
        | _ => raise Py4JError
        end
      else if String.eqb class_name "is.hail.expr.TDict" then
        match jt with
        | JTDict k v =>
            let* kt := _from_java k in
            let* vt := _from_java v in
            ret (TDict jt kt vt)
        | _ => raise Py4JError
        end
      else if String.eqb class_name "is.hail.expr.TStruct" then
        match jt with
        | JTStruct jfs =>
            let* ju := Env_jutils in
            let* jfields := jinvoke (OnPath ju) "iterableToArrayList"
                                    [jtype_fields jfs] (Ok jfs) in
            let* fs := mapM (fun f =>
                               match f with
                               | JField n t a =>
                                   let* ty := _from_java t in
                                   ret (mkField n ty a)
                               end)
                            jfields in
            ret (TStruct jt fs)
        | _ => raise Py4JError
        end
      else raise (unknown_type_class class_name)
  end.

(** ** Distributions (stats.py) *)

(** Modelled from the spec: the decorator [typecheck_method] and the
    checker [numeric] of [hail.typecheck] are not in the source.  The
    constructors below take their arguments from the values [numeric]
    admits: Python's [int], [long] and [float]. *)
Inductive numeric :=
  | NInt (z : Z)
  | NLong (z : Z)
  | NFloat (f : spec_float).

(** The number a [numeric] stands for: [m * 2^e], an infinity, or no
    number at all. *)
Inductive xnum :=
  | XNaN
  | XInf (negative : bool)
  | XFin (m e : Z).

Definition xnum_of_float (f : spec_float) : xnum :=
  match f with
  | S754_zero _ => XFin 0 0
  | S754_infinity s => XInf s
  | S754_nan => XNaN
  | S754_finite s m e => XFin (if s then Z.neg m else Z.pos m) e
  end.

Definition xnum_of (x : numeric) : xnum :=
  match x with
  | NInt z | NLong z => XFin z 0
  | NFloat f => xnum_of_float f
  end.

(** Exact comparison of two numbers; [None] when one of them is a NaN. *)
Definition xnum_compare (a b : xnum) : option comparison :=
  match a, b with
  | XNaN, _ | _, XNaN => None
  | XInf s, XInf t =>
      Some (if s then (if t then Eq else Lt) else (if t then Gt else Eq))
  | XInf s, XFin _ _ => Some (if s then Lt else Gt)
  | XFin _ _, XInf t => Some (if t then Gt else Lt)
  | XFin m1 e1, XFin m2 e2 =>
      let e := Z.min e1 e2 in
      Some (Z.compare (m1 * 2 ^ (e1 - e)) (m2 * 2 ^ (e2 - e)))
  end.

(** Python's [a >= b], [a < b] and [a > b] on numbers; every comparison
    with a NaN is false. *)
Definition py_ge (a b : numeric) : bool :=
  match xnum_compare (xnum_of a) (xnum_of b) with
  | Some Gt | Some Eq => true
  | _ => false
  end.

Definition py_lt (a b : numeric) : bool :=
  match xnum_compare (xnum_of a) (xnum_of b) with
  | Some Lt => true
  | _ => false
  end.

Definition py_gt (a b : numeric) : bool :=
  match xnum_compare (xnum_of a) (xnum_of b) with
  | Some Gt => true
  | _ => false
  end.

(** [float(x)]: a float is itself; an integer is rounded to the nearest
    double, ties to even, and one too large for a double raises
    [OverflowError]. *)
Definition py_float (x : numeric) : result spec_float :=
  match x with
  | NFloat f => Ok f
  | NInt z | NLong z =>
      match binary_normalize 53 1024 z 0 false with
      | S754_infinity _ => Raise OverflowError
      | f => Ok f
      end
  end.

(** The attributes set on an instance so far. *)
Abbreviation pyobject := (gmap string numeric).

Definition py_setattr (self : pyobject) (name : string) (x : numeric) : pyobject :=
  <[name := x]> self.

Definition py_getattr (self : pyobject) (name : string) : result numeric :=
  match self !! name with
  | Some x => Ok x
  | None => Raise (AttributeError name)
  end.

(** An [__init__] gets the new object and gives it back with the
    attributes it has set by the time it returns or raises. *)
Definition Init : Type := pyobject -> world -> (result unit * pyobject) * world.

(** [BetaDist.__init__] *)
Definition BetaDist_init (a b : numeric) : Init :=
  fun self w =>
    let self := py_setattr self "a" a in
    let self := py_setattr self "b" b in
    ((Ok tt, self), w).

(** [UniformDist.__init__] *)
Definition UniformDist_init (minVal maxVal : numeric) : Init :=
  fun self w =>
    if py_ge minVal maxVal then
      ((Raise (ValueError "min must be less than max"), self), w)
    else
      let self := py_setattr self "minVal" minVal in
      let self := py_setattr self "maxVal" maxVal in
      ((Ok tt, self), w).

(** [TruncatedBetaDist.__init__] *)
Definition TruncatedBetaDist_init (a b minVal maxVal : numeric) : Init :=
  fun self w =>
    if py_ge minVal maxVal then
      ((Raise (ValueError "min must be less than max"), self), w)
    else if py_lt minVal (NInt 0) then
      ((Raise (ValueError "min cannot be less than 0"), self), w)
    else if py_gt maxVal (NInt 1) then
      ((Raise (ValueError "max cannot be greater than 1"), self), w)
    else
      let self := py_setattr self "minVal" minVal in
      let self := py_setattr self "maxVal" maxVal in
      let self := py_setattr self "a" a in
      let self := py_setattr self "b" b in
      ((Ok tt, self), w).

(** Calling a class: a new object without attributes is handed to
    [__init__]; the caller gets the object unless [__init__] raised. *)
Definition construct (init : Init) : M pyobject :=
  fun w =>
    match init ∅ w with
    | ((Ok _, self), w') => (Ok self, w')
    | ((Raise e, _), w') => (Raise e, w')
    end.

Definition BetaDist (a b : numeric) : M pyobject :=
  construct (BetaDist_init a b).

Definition UniformDist (minVal maxVal : numeric) : M pyobject :=
  construct (UniformDist_init minVal maxVal).

Definition TruncatedBetaDist (a b minVal maxVal : numeric) : M pyobject :=
  construct (TruncatedBetaDist_init a b minVal maxVal).

(** [float(self.name)] *)
Definition float_attr (self : pyobject) (name : string) : M value :=
  let* x := lift (py_getattr self name) in
  let* f := lift (py_float x) in
  ret (VFloat f).

(** The companion object [Env.hail().stats.<name>] whose [apply] makes
    the engine's distribution. *)
Definition stats_class (h : string) (name : string) : string :=
  jgetattr (jgetattr h "stats") name.

(** Modelled from the spec: the engine's distribution constructors are
    not in the source; [apply] answers with the object it made. *)
Definition stats_apply (cls : string) (args : list value) : M value :=
  jinvoke (OnPath cls) "apply" args (Ok (JApply cls args)).

(** [BetaDist._jrep] *)
Definition BetaDist_jrep (self : pyobject) : M value :=
  let* h := Env_hail in
  let* a := float_attr self "a" in
  let* b := float_attr self "b" in
  stats_apply (stats_class h "BetaDist") [a; b].

(** [UniformDist._jrep] *)
Definition UniformDist_jrep (self : pyobject) : M value :=
  let* h := Env_hail in
  let* lo := float_attr self "minVal" in
  let* hi := float_attr self "maxVal" in
  stats_apply (stats_class h "UniformDist") [lo; hi].

(** [TruncatedBetaDist._jrep] *)
Definition TruncatedBetaDist_jrep (self : pyobject) : M value :=
  let* h := Env_hail in
  let* a := float_attr self "a" in
  let* b := float_attr self "b" in
  let* lo := float_attr self "minVal" in
  let* hi := float_attr self "maxVal" in
  stats_apply (stats_class h "TruncatedBetaDist") [a; b; lo; hi].

(** ** Vocabulary of the statements *)

(** The classes a parameterless tag checks a value against. *)
Definition checked_classes (c : singleton_class) : list pyclass :=
  match c with
  | TInt_cls => [CInt]
  | TLong_cls => [CLong; CInt]
  | TFloat_cls | TDouble_cls => [CFloat]
  | TString_cls => [CStr; CUnicode]
  | TBoolean_cls => [CBool]
  | TVariant_cls => [CRep Variant]
  | TAltAllele_cls => [CRep AltAllele]
  | TGenotype_cls => [CRep Genotype]
  | TCall_cls => [CRep Call]
  | TLocus_cls => [CRep Locus]
  | TInterval_cls => [CRep Interval]
  end.

(** The name each parameterless tag puts in its message. *)
Definition message_tag (c : singleton_class) : string :=
  match c with
  | TInt_cls => "TInt" | TLong_cls => "TLong"
  | TFloat_cls | TDouble_cls => "TDouble"
  | TString_cls => "TString" | TBoolean_cls => "TBoolean"
  | TVariant_cls => "TVariant" | TAltAllele_cls => "TAltAllele"
  | TGenotype_cls => "TGenotype" | TCall_cls => "TCall"
  | TLocus_cls => "TLocus" | TInterval_cls => "TInterval"
  end.

(** A check that looks at nothing but the truth value and the class of
    the value it is given. *)
Definition shallow_check (c : singleton_class) (truth : bool) (found : pyclass)
    : result unit :=
  if truth && negb (existsb (issubclass found) (checked_classes c))
  then Raise (TypeCheckError (ExpectedType (message_tag c) found))
  else Ok tt.

(** A tag has [TFloat] among its components. *)
Fixpoint has_TFloat (t : Type_) : bool :=
  match t with
  | TFloat => true
  | TArray _ e | TSet _ e => has_TFloat e
  | TDict _ k v => has_TFloat k || has_TFloat v
  | TStruct _ fs => existsb (fun f => has_TFloat (Field_typ f)) fs
  | _ => false
  end.

(** The classes the check of a parameterless tag names, by instance. *)
Definition classes_of (t : Type_) : list pyclass :=
  match t with
  | TInt => [CInt]
  | TLong => [CLong; CInt]
  | TFloat | TDouble => [CFloat]
  | TString => [CStr; CUnicode]
  | TBoolean => [CBool]
  | TVariant => [CRep Variant]
  | TAltAllele => [CRep AltAllele]
  | TGenotype => [CRep Genotype]
  | TCall => [CRep Call]
  | TLocus => [CRep Locus]
  | TInterval => [CRep Interval]
  | TArray _ _ => [CList]
  | TSet _ _ => [CSet]
  | TDict _ _ _ => [CDict]
  | TStruct _ _ => [CStruct]
  end.

(** A value is [None] or an instance of the class the tag stands for,
    and so are its elements, entries and declared fields, all the way
    down: the values [_typecheck] is documented to accept. *)
Fixpoint instance_deep (t : Type_) (v : value) : bool :=
  is_None v ||
  match t with
  | TArray _ e =>
      match v with
      | VList l => forallb (instance_deep e) l
      | _ => false
      end
  | TSet _ e =>
      match v with
      | VSet l => forallb (instance_deep e) l
      | _ => false
      end
  | TDict _ k x =>
      match v with
      | VDict d =>
          forallb (fun kv => instance_deep k (fst kv) && instance_deep x (snd kv)) d
      | _ => false
      end
  | TStruct _ fs =>
      match v with
      | VStruct attrs =>
          forallb (fun f =>
                     match str_dict_get attrs (Field_name f) with
                     | Some x => instance_deep (Field_typ f) x
                     | None => false
                     end)
                  fs
      | _ => false
      end
  | _ => existsb (isinstance v) (classes_of t)
  end.

(** The handle [jnone()] returns: Scala's [None] object. *)
Definition scala_None : value := JPath "scala.None$.MODULE$".

(** A world in which a Hail context has set [Env._jvm]. *)
Definition initialised (w : world) : Prop := exists j, _jvm w = Some j.

(** The handle [Env.hail()] returns in a world, if it returns one: the
    cached package, or [is.hail] fetched from the JVM. *)
Definition hail_path (w : world) : option string :=
  match _hail_package w with
  | Some p => Some p
  | None =>
      match _jvm w with
      | Some j => Some (jgetattr (jvm_getattr j "is") "hail")
      | None => None
      end
  end.

(** The handle [Env.jutils()] returns in a world, if it returns one. *)
Definition jutils_path (w : world) : option string :=
  match _jutils w with
  | Some u => Some u
  | None =>
      match hail_path w with
      | Some h => Some (scala_package_object (jgetattr h "utils"))
      | None => None
      end
  end.

(** [Env.hail()], and with it [Env.jutils()], will succeed. *)
Definition hail_ready (w : world) : Prop := is_Some (hail_path w).

(** What a world lets the type tags see of [Env]. *)
Definition env_view (w : world) : option string * option string :=
  (hail_path w, jutils_path w).

(** What the methods of the type tags leave as it was: the view of
    [Env], the JVM, the singleton instances with all their fields, and
    the identity counter. *)
Definition frame (w w' : world) : Prop :=
  env_view w' = env_view w /\ _jvm w' = _jvm w /\
  _instances w' = _instances w /\ next_oid w' = next_oid w.

(** A computation that keeps the frame and whose outcome depends on the
    world only through the view of [Env]. *)
Definition steady {A} (m : M A) : Prop :=
  forall w,
    frame w (snd (m w)) /\
    forall w', env_view w' = env_view w -> fst (m w') = fst (m w).

(** A world right after a Hail context was started on gateway [0]:
    nothing cached, no singleton made, no call sent. *)
Definition fresh_world : world := mkWorld (Some (JVM 0)) None None ∅ 0 [].

Definition is_ValueError {A} (r : result A) : bool :=
  match r with
  | Raise (ValueError _) => true
  | _ => false
  end.

(** What one call of [_jrep] on a holder of [params] may do, from world
    [w0]: either every parameter converts to a float, the engine's
    [apply] of class [name] is sent exactly those floats, in order, as
    the one new gateway call, and its object is returned; or [_jrep]
    raises and no call is sent. *)
Definition jrep_outcome (name : string) (params : list numeric) (w0 : world)
    (rw : result value * world) : Prop :=
  (exists h args,
     Forall2 (fun p a => exists f, py_float p = Ok f /\ a = VFloat f) params args /\
     fst rw = Ok (JApply (stats_class h name) args) /\
     gateway_calls (snd rw) =
       (gateway_calls w0 ++
        [mkCall (OnPath (stats_class h name)) "apply" args])%list) \/
  (is_ok (fst rw) = false /\ gateway_calls (snd rw) = gateway_calls w0).

(** What one call of [_jrep] does when nothing stands in its way: the
    engine's [apply] of class [name], reached through the package [h],
    is sent exactly the floats, in order, as the one new gateway call,
    and the object it made is returned. *)
Definition jrep_sends (name : string) (h : string) (floats : list spec_float)
    (w0 : world) (rw : result value * world) : Prop :=
  let args := map VFloat floats in
  fst rw = Ok (JApply (stats_class h name) args) /\
  gateway_calls (snd rw) =
    (gateway_calls w0 ++
     [mkCall (OnPath (stats_class h name)) "apply" args])%list.

(** The world after the classes in [cs] were called one after the other,
    whether a call returned or raised. *)
Fixpoint call_all (cs : list singleton_class) (w : world) : world :=
  match cs with
  | [] => w
  | c :: cs' => call_all cs' (snd (Singleton_call c w))
  end.

(** A computation that returns normally in every world with a Hail
    context. *)
Definition succeeds {A} (m : M A) : Prop :=
  forall w, hail_ready w -> is_ok (fst (m w)) = true.

(** The mirror a type object of the engine should get: the instance of
    the class registered under its class name, with the mirrors of its
    components; none when its class, or the class of a component, is not
    one of the sixteen. *)
Fixpoint mirror (jt : jtype) : option Type_ :=
  match jt with
  | JObject n => option_map instance_of (__singletons__ !! n)
  | JTArray e => option_map (TArray jt) (mirror e)
  | JTSet e => option_map (TSet jt) (mirror e)
  | JTDict k v =>
      match mirror k, mirror v with
      | Some kt, Some vt => Some (TDict jt kt vt)
      | _, _ => None
      end
  | JTStruct jfs =>
      option_map (TStruct jt)
        ((fix mirror_fields (l : list jfield) : option (list Field) :=
            match l with
            | [] => Some []
            | JField n ty a :: l' =>
                match mirror ty, mirror_fields l' with
                | Some t, Some fs => Some (mkField n t a :: fs)
                | _, _ => None
                end
            end) jfs)
  end.

(** The class names [Type._from_java] knows. *)
Definition known_class_name (n : string) : bool :=
  bool_decide (is_Some (__singletons__ !! n)) ||
  String.eqb n "is.hail.expr.TArray" || String.eqb n "is.hail.expr.TSet" ||
  String.eqb n "is.hail.expr.TDict" || String.eqb n "is.hail.expr.TStruct".

(** A type object is what its class name says: the parameterised classes
    are the ones with components, at every level. *)
Fixpoint well_formed (jt : jtype) : bool :=
  match jt with
  | JObject n =>
      negb (String.eqb n "is.hail.expr.TArray" ||
            String.eqb n "is.hail.expr.TSet" ||
            String.eqb n "is.hail.expr.TDict" ||
            String.eqb n "is.hail.expr.TStruct")
  | JTArray e | JTSet e => well_formed e
  | JTDict k v => well_formed k && well_formed v
  | JTStruct jfs =>
      forallb (fun f => match f with JField _ ty _ => well_formed ty end) jfs
  end.

(** Every instance the singleton table holds is an instance of the
    class it is filed under, as [Singleton.__call__] leaves it. *)
Definition instances_sound (w : world) : Prop :=
  forall c i, _instances w !! c = Some i -> obj i = instance_of c.

(** A world [Type._from_java] can work in. *)
Definition serving (w : world) : Prop := hail_ready w /\ instances_sound w.

(** The mirrors of the fields of a struct, as [mirror] computes them. *)
Fixpoint mirror_fields (l : list jfield) : option (list Field) :=
  match l with
  | [] => Some []
  | JField n ty a :: l' =>
      match mirror ty, mirror_fields l' with
      | Some t, Some fs => Some (mkField n t a :: fs)
      | _, _ => None
      end
  end.

(** [Field(f.name(), Type._from_java(f.typ()), dict(f.attrsJava()))] *)
Definition field_from_java (f : jfield) : M Field :=
  match f with
  | JField n t a =>
      let* ty := _from_java t in
      ret (mkField n ty a)
  end.

(** No element of a list is the same key as a later one. *)
Section Distinct.
Context {K : Type} (eqb : K -> K -> bool).

Fixpoint distinctb (l : list K) : bool :=
  match l with
  | [] => true
  | x :: l' => negb (existsb (eqb x) l') && distinctb l'
  end.
End Distinct.

(** The values that are what the tag describes and are as Python keeps
    them: [None], or an instance of the tag's class whose elements,
    entries and fields are so in turn; a set without repeated elements,
    a dict without repeated keys, a struct with exactly the declared
    fields, listed as declared, under distinct names; an instance of a
    record class holding a handle, which is true. *)
Fixpoint canonical (t : Type_) (v : value) : bool :=
  is_None v ||
  match t with
  | TArray _ e =>
      match v with
      | VList l => forallb (canonical e) l
      | _ => false
      end
  | TSet _ e =>
      match v with
      | VSet l => forallb (canonical e) l && distinctb value_eqb l
      | _ => false
      end
  | TDict _ k x =>
      match v with
      | VDict d =>
          forallb (fun kv => canonical k (fst kv) && canonical x (snd kv)) d &&
          distinctb value_eqb (map fst d)
      | _ => false
      end
  | TStruct _ fs =>
      match v with
      | VStruct attrs =>
          (fix aligned (fs : list Field) (attrs : list (string * value)) : bool :=
             match fs, attrs with
             | [], [] => true
             | f :: fs', ny :: attrs' =>
                 String.eqb (Field_name f) (fst ny) &&
                 canonical (Field_typ f) (snd ny) && aligned fs' attrs'
             | _, _ => false
             end) fs attrs &&
          distinctb String.eqb (map Field_name fs)
      | _ => false
      end
  | TVariant | TAltAllele | TGenotype | TCall | TLocus | TInterval =>
      existsb (isinstance v) (classes_of t) &&
      match v with
      | VRep _ j => truthy j
      | _ => false
      end
  | _ => existsb (isinstance v) (classes_of t)
  end.

(** [j] converts back to [v], in every world with a Hail context. *)
Definition converts_back (t : Type_) (j v : value) : Prop :=
  forall w, hail_ready w -> fst (_convert_to_py t j w) = Ok v.

(** The fields of a struct value are the declared ones, in order, each
    canonical for its type. *)
Fixpoint aligned (fs : list Field) (attrs : list (string * value)) : bool :=
  match fs, attrs with
  | [], [] => true
  | f :: fs', ny :: attrs' =>
      String.eqb (Field_name f) (fst ny) &&
      canonical (Field_typ f) (snd ny) && aligned fs' attrs'
  | _, _ => false
  end.

(** A computation that, in every world with a Hail context, returns a
    result that satisfies [R]. *)
Definition yields {A} (m : M A) (R : A -> Prop) : Prop :=
  forall w, hail_ready w -> exists a, fst (m w) = Ok a /\ R a.

(** ** Calling the parameterised classes (expr.py) *)

(** Modelled from the spec: the companion objects [is.hail.expr.TArray$],
    [TSet$], [TDict$] and [TStruct$] of the engine are not in the source.
    [apply] answers the type object that has the components it is sent;
    the fields of a struct made from names and types carry no
    attributes. *)
Definition TArray_apply (companion : string) (elementType : jtype) : jtype :=
  JTArray elementType.

Definition TSet_apply (companion : string) (elementType : jtype) : jtype :=
  JTSet elementType.

Definition TDict_apply (companion : string) (keyType valueType : jtype) : jtype :=
  JTDict keyType valueType.

Definition TStruct_apply (companion : string) (names : list string)
    (types : list jtype) : jtype :=
  JTStruct (zip_with (fun n t => JField n t ∅) names types).

(** [TArray(element_type)]: [__init__] on a new object.  The companion is
    reached through [Env.hail()] before the handle of the argument is
    read.  Calls on type objects and their companions are not among
    those the gateway log records. *)
Definition TArray_init (element_type : Type_) : M Type_ :=
  let* h := Env_hail in
  let companion := scala_object (jgetattr h "expr") "TArray" in
  let jtype := TArray_apply companion (_jtype element_type) in
  ret (TArray jtype element_type).

(** [TSet(element_type)] *)
Definition TSet_init (element_type : Type_) : M Type_ :=
  let* h := Env_hail in
  let companion := scala_object (jgetattr h "expr") "TSet" in
  let jtype := TSet_apply companion (_jtype element_type) in
  ret (TSet jtype element_type).

(** [TDict(key_type, value_type)] *)
Definition TDict_init (key_type value_type : Type_) : M Type_ :=
  let* h := Env_hail in
  let companion := scala_object (jgetattr h "expr") "TDict" in
  let jtype := TDict_apply companion (_jtype key_type) (_jtype value_type) in
  ret (TDict jtype key_type value_type).

(** ['%d' % n] *)
Definition py_format_d (n : nat) : string :=
  NilZero.string_of_uint (Nat.to_uint n).

(** [TStruct(names, types)].  With as many types as names, indexing both
    lists by the positions of [names] pairs them off; [Field] is given no
    attributes, so every field has the empty dict. *)
Definition TStruct_init (names : list string) (types : list Type_) : M Type_ :=
  if negb (length names =? length types)%nat then
    raise (ValueError ("length of names and types not equal: " ++
                       py_format_d (length names) ++ " and " ++
                       py_format_d (length types)))
  else
    let* h := Env_hail in
    let companion := scala_object (jgetattr h "expr") "TStruct" in
    let jtype := TStruct_apply companion names (map _jtype types) in
    let fields := zip_with (fun n t => mkField n t ∅) names types in
    ret (TStruct jtype fields).

(** The tags a program can have made: the instances of the twelve
    parameterless classes, and what a call of a parameterised class
    returned when it was given such tags. *)
Inductive constructed : Type_ -> Prop :=
  | constructed_singleton (c : singleton_class) :
      constructed (instance_of c)
  | constructed_TArray (e t : Type_) (w w' : world) :
      constructed e -> TArray_init e w = (Ok t, w') -> constructed t
  | constructed_TSet (e t : Type_) (w w' : world) :
      constructed e -> TSet_init e w = (Ok t, w') -> constructed t
  | constructed_TDict (k v t : Type_) (w w' : world) :
      constructed k -> constructed v ->
      TDict_init k v w = (Ok t, w') -> constructed t
  | constructed_TStruct (names : list string) (types : list Type_)
      (t : Type_) (w w' : world) :
      Forall constructed types ->
      TStruct_init names types w = (Ok t, w') -> constructed t.

(** A computation that leaves every instance in the singleton table
    where it is. *)
Definition keeps_instances {A} (m : M A) : Prop :=
  forall w c i, _instances w !! c = Some i ->
                _instances (snd (m w)) !! c = Some i.

(** A later state that still has the instances and the utils object of
    an earlier one. *)
Definition still_cached (w w' : world) : Prop :=
  (forall c i, _instances w !! c = Some i -> _instances w' !! c = Some i) /\
  (forall u, _jutils w = Some u -> _jutils w' = Some u).

(** A state after further calls were sent to the engine and nothing else
    has changed. *)
Definition sent (calls : list jcall) (w : world) : world :=
  mkWorld (_jvm w) (_hail_package w) (_jutils w) (_instances w) (next_oid w)
          (gateway_calls w ++ calls).

(** ** Collections across the bridge (java.py) *)

(** Modelled from the spec: what the gateway sends where a method of the
    engine takes a [java.util.ArrayList].  Of the values here a Python
    list is sent as one; a string is sent as a [java.lang.String], and
    the engine has no such method for it or for the other values. *)
Definition as_ArrayList (x : value) : result (list value) :=
  match x with
  | VList l => Ok l
  | _ => Raise Py4JError
  end.

(** [jindexed_seq(x)] *)
Definition jindexed_seq (x : value) : M value :=
  let* ju := Env_jutils in
  jinvoke (OnPath ju) "arrayListToISeq" [x]
          (rbind (as_ArrayList x) arrayListToISeq).

(** [jset(x)] *)
Definition jset (x : value) : M value :=
  let* ju := Env_jutils in
  jinvoke (OnPath ju) "arrayListToSet" [x]
          (rbind (as_ArrayList x) arrayListToSet).

(** [jindexed_seq_args(x)]; [isinstance(x, str)] is false of a [unicode]
    string. *)
Definition jindexed_seq_args (x : value) : M value :=
  let args := if isinstance x CStr then VList [x] else x in
  jindexed_seq args.

(** [jset_args(x)] *)
Definition jset_args (x : value) : M value :=
  let args := if isinstance x CStr then VList [x] else x in
  jset args.

(** [jiterable_to_list(it)]; [list(...)] of the Java list the engine
    answers with is the Python list of its elements. *)
Definition jiterable_to_list (it : value) : M value :=
  if truthy it then
    let* ju := Env_jutils in
    let* l := jinvoke (OnPath ju) "iterableToArrayList" [it]
                      (iterableToArrayList it) in
    ret (VList l)
  else ret VNone.

(** ** The gateway, arrays and errors of the engine (java.py) *)

(** A py4j gateway and a Hail context, as far as [java.py] uses them.
    Modelled from the spec: class [HailContext] is not in the source; its
    [version] is a text.  Neither object has a length, so both are
    true. *)
Inductive JavaGateway :=
  | Gateway (id : nat).

Record HailContext := mkHailContext {
  version : string;
}.

(** The process state together with the two attributes of [Env] that
    only [jarray] and [handle_py4j] read. *)
Record session := mkSession {
  env : world;
  _gateway : option JavaGateway;
  _hc : option HailContext;
}.

Definition with_env (s : session) (w : world) : session :=
  mkSession w (_gateway s) (_hc s).

(** What a call can raise, as far as the rest of [java.py] tells
    exceptions apart: py4j's [Py4JJavaError] with the Java exception it
    carries; a [Py4JError] of any other class, with the arguments it was
    raised with, whatever they are; [FatalError]; the [IndexError] of a
    position out of range; the [AttributeError] of an object that has no
    attribute of that name; the [EnvironmentError] of [Env]; an
    exception of any other class, by the name of the class. *)
Inductive exception :=
  | Py4JJavaError (java_exception : value)
  | Py4JErrorWith (args : list value)
  | FatalError (msg : string)
  | IndexError (msg : string)
  | NoAttribute (name : string)
  | NoContext
  | OtherException (class_name : string).

Inductive outcome (A : Type) :=
  | Returned (a : A)
  | Raised (e : exception).
Arguments Returned {A} a.
Arguments Raised {A} e.

(** A computation on a session. *)
Definition SM (A : Type) : Type := session -> outcome A * session.

Definition SM_raise {A} (e : exception) : SM A := fun s => (Raised e, s).

Definition SM_bind {A B} (m : SM A) (k : A -> SM B) : SM B :=
  fun s =>
    match m s with
    | (Returned a, s') => k a s'
    | (Raised e, s') => (Raised e, s')
    end.

Notation "'do*' x ':=' m 'in' k" := (SM_bind m (fun x => k))
  (at level 10, x name, m at level 100, k at level 200).

(** [Env.gateway()] *)
Definition Env_gateway : SM JavaGateway :=
  fun s =>
    match _gateway s with
    | None => (Raised NoContext, s)
    | Some g => (Returned g, s)
    end.

(** [Env.hc()] *)
Definition Env_hc : SM HailContext :=
  fun s =>
    match _hc s with
    | None => (Raised NoContext, s)
    | Some hc => (Returned hc, s)
    end.

(** [Env.jutils()] on a session; the one exception it raises is that of
    [Env.jvm()]. *)
Definition session_jutils : SM string :=
  fun s =>
    match Env_jutils (env s) with
    | (Ok ju, w) => (Returned ju, with_env s w)
    | (Raise _, w) => (Raised NoContext, with_env s w)
    end.

(** A method call on the engine from a session, recorded, with the
    answer of the engine. *)
Definition session_invoke {A} (r : jreceiver) (m : string) (args : list value)
    (answer : A) : SM A :=
  fun s => (Returned answer, with_env s (log_call (mkCall r m args) (env s))).

(** *** Arrays *)

(** A Java array held through a py4j handle: the class of its cells and
    what they hold. *)
Record JavaArray := mkJavaArray {
  component : string;
  cells : list value;
}.

(** Modelled from the spec: [new_array] of the gateway is not in the
    source.  It answers an array of the length asked for; a cell nothing
    was stored in reads as [None]. *)
Definition new_array (g : JavaGateway) (jtype : string) (n : nat) : JavaArray :=
  mkJavaArray jtype (replicate n VNone).

(** [jarr[i] = s] for a position counted from the start: py4j raises
    [IndexError] out of range, and the engine stores what it is sent. *)
Definition JavaArray_setitem (jarr : JavaArray) (i : nat) (s : value)
    : outcome JavaArray :=
  if (i <? length (cells jarr))%nat then
    Returned (mkJavaArray (component jarr) (<[i := s]> (cells jarr)))
  else Raised (IndexError "list index out of range").

(** [for i, s in enumerate(lst): jarr[i] = s], counting from [i]. *)
Fixpoint jarray_fill (jarr : JavaArray) (i : nat) (lst : list value)
    : outcome JavaArray :=
  match lst with
  | [] => Returned jarr
  | s :: lst' =>
      match JavaArray_setitem jarr i s with
      | Returned jarr' => jarray_fill jarr' (S i) lst'
      | Raised e => Raised e
      end
  end.

(** [jarray(jtype, lst)] *)
Definition jarray (jtype : string) (lst : list value) : SM JavaArray :=
  do* g := Env_gateway in
  fun s => (jarray_fill (new_array g jtype (length lst)) 0 lst, s).

(** [jarray_to_list(a)], for [a] an array or [None]; a py4j array has
    the length of the Java array, so an empty one is false. *)
Definition jarray_to_list (a : option JavaArray) : value :=
  match a with
  | Some jarr => if nonempty (cells jarr) then VList (cells jarr) else VNone
  | None => VNone
  end.

(** *** Errors of the engine *)

Definition newline : string := String (Ascii.ascii_of_nat 10) EmptyString.

(** The text [handle_py4j] gives a [FatalError]: the summary, the stack
    trace, the version and the summary again, each where the format has
    its [%s]. *)
Definition fatal_message (summary trace version summary' : string) : string :=
  summary ++ newline ++ newline ++ "Java stack trace:" ++ newline ++
  trace ++ newline ++ "Hail version: " ++ version ++ newline ++
  "Error summary: " ++ summary'.

(** The text of a [str] or a [unicode]; nothing else among the
    arguments of an exception has [startswith]. *)
Definition py_text (v : value) : option string :=
  match v with
  | VStr s | VUnicode s => Some s
  | _ => None
  end.

Section handle_py4j.
(** The engine's [handleForPython], which is not in the source: from a
    Java exception to the pair of its deepest message and its full stack
    trace. *)
Variable handleForPython : value -> string * string.

(** A call of a function that [handle_py4j] decorates: [func] stands for
    the decorated function applied to the arguments of the call.  Where
    the first argument of the exception is a text, [e.message] is that
    text when it is the only argument and the empty text otherwise, as
    Python 2 sets it. *)
Definition handle_py4j {A} (func : SM A) : SM A :=
  fun s =>
    match func s with
    | (Raised (Py4JJavaError java_exception), s1) =>
        (do* ju := session_jutils in
         let answer := handleForPython java_exception in
         let pair := JTuple2 (VUnicode (fst answer)) (VUnicode (snd answer)) in
         do* tpl := session_invoke (OnPath ju) "handleForPython"
                                   [java_exception] pair in
         do* deepest := session_invoke (OnValue tpl) "_1" [] (fst answer) in
         do* full := session_invoke (OnValue tpl) "_2" [] (snd answer) in
         do* hc := Env_hc in
         SM_raise (FatalError (fatal_message deepest full (version hc) deepest)))
          s1
    | (Raised (Py4JErrorWith args), s1) =>
        match args with
        | [] => (Raised (IndexError "tuple index out of range"), s1)
        | first :: rest =>
            match py_text first with
            | None => (Raised (NoAttribute "startswith"), s1)
            | Some text =>
                if String.prefix "An error occurred while calling" text then
                  let msg := "An error occurred while calling into JVM, probably due to invalid parameter types." in
                  let message := match rest with
                                 | [] => text
                                 | _ :: _ => ""
                                 end in
                  (do* hc := Env_hc in
                   SM_raise (FatalError
                               (fatal_message msg message (version hc) msg)))
                    s1
                else (Raised (Py4JErrorWith args), s1)
            end
        end
    | (r, s1) => (r, s1)
    end.
End handle_py4j.


(** * Properties *)

(** ** Induction over type objects *)

(** The generated principle says nothing about the fields of a struct;
    this one gives the hypothesis for every field's type. *)
Section Type_induction.
Variable P : Type_ -> Prop.
Hypothesis P_leaf : forall c, P (instance_of c).
Hypothesis P_array : forall jt e, P e -> P (TArray jt e).
Hypothesis P_set : forall jt e, P e -> P (TSet jt e).
Hypothesis P_dict : forall jt k v, P k -> P v -> P (TDict jt k v).
Hypothesis P_struct :
  forall jt fs, Forall (fun f => P (Field_typ f)) fs -> P (TStruct jt fs).

Fixpoint Type_induction (t : Type_) : P t :=
  match t with
  | TInt => P_leaf TInt_cls
  | TLong => P_leaf TLong_cls
  | TFloat => P_leaf TFloat_cls
  | TDouble => P_leaf TDouble_cls
  | TString => P_leaf TString_cls
  | TBoolean => P_leaf TBoolean_cls
  | TVariant => P_leaf TVariant_cls
  | TAltAllele => P_leaf TAltAllele_cls
  | TGenotype => P_leaf TGenotype_cls
  | TCall => P_leaf TCall_cls
  | TLocus => P_leaf TLocus_cls
  | TInterval => P_leaf TInterval_cls
  | TArray jt e => P_array jt e (Type_induction e)
  | TSet jt e => P_set jt e (Type_induction e)
  | TDict jt k v => P_dict jt k v (Type_induction k) (Type_induction v)
  | TStruct jt fs =>
      P_struct jt fs
        ((fix fields_ok (l : list Field) : Forall (fun f => P (Field_typ f)) l :=
            match l with
            | [] => List.Forall_nil _
            | f :: l' =>
                List.Forall_cons _ f l'
                  (match f return P (Field_typ f) with
                   | mkField _ ty _ => Type_induction ty
                   end)
                  (fields_ok l')
            end) fs)
  end.
End Type_induction.

(** ** What [_typecheck] accepts *)

Lemma typecheck_leaf (c : singleton_class) (v : value) :
  _typecheck (instance_of c) v = shallow_check c (truthy v) (type_of v).
Proof. destruct c; reflexivity. Qed.

Lemma shallow_check_raises (c : singleton_class) (v : value) :
  is_TypeCheckError (shallow_check c (truthy v) (type_of v)) =
  truthy v && negb (existsb (isinstance v) (checked_classes c)).
Proof.
  unfold shallow_check, isinstance.
  destruct (truthy v && negb (existsb (issubclass (type_of v)) (checked_classes c)));
    reflexivity.
Qed.

(** What the checks of the parameterless tags do: they raise
    [TypeCheckError] exactly for a true value that is no instance of the
    tag's classes, and return otherwise. *)
Lemma typecheck_leaf_raises (c : singleton_class) (v : value) :
  is_TypeCheckError (_typecheck (instance_of c) v) =
    truthy v && negb (existsb (isinstance v) (checked_classes c)) /\
  is_ok (_typecheck (instance_of c) v) =
    negb (is_TypeCheckError (_typecheck (instance_of c) v)).
Proof.
  rewrite typecheck_leaf. split; [apply shallow_check_raises|].
  unfold shallow_check.
  destruct (truthy v && negb (existsb (issubclass (type_of v)) (checked_classes c)));
    reflexivity.
Qed.

(** Every check of a parameterless tag returns normally on every false
    value, whatever its class. *)
Lemma typecheck_leaf_accepts_falsy (c : singleton_class) (v : value) :
  truthy v = false -> _typecheck (instance_of c) v = Ok tt.
Proof.
  intros Hv. rewrite typecheck_leaf. unfold shallow_check.
  rewrite Hv. reflexivity.
Qed.

(** C1, at the input where the code leaves it: the empty string is not
    [None] and is no [int], yet [TInt._typecheck] returns normally on it
    instead of raising [TypeCheckError]. *)
Theorem C1_falsy_mismatch_accepted :
  VStr "" <> VNone /\
  isinstance (VStr "") CInt = false /\
  _typecheck TInt (VStr "") = Ok tt /\
  is_TypeCheckError (_typecheck TInt (VStr "")) = false.
Proof. repeat split; try reflexivity. discriminate. Qed.

Lemma rfor_is_ok {A} (body : A -> result unit) (l : list A) :
  is_ok (rfor body l) = forallb (fun x => is_ok (body x)) l.
Proof.
  induction l as [|x l IH]; [reflexivity|].
  simpl. destruct (body x) as [[]|e]; simpl; [exact IH|reflexivity].
Qed.

Lemma forallb_pointwise {A} (f g : A -> bool) (l : list A) :
  (forall x, f x = g x) -> forallb f l = forallb g l.
Proof.
  intros H. induction l as [|x l IH]; [reflexivity|].
  simpl. rewrite H, IH. reflexivity.
Qed.

(** C2 as the claim states it fails: two lists, alike in class and in
    truth value, get different answers from the same [TArray] tag, which
    therefore looks at their elements. *)
Lemma C2_counterexample :
  ~ (forall (t : Type_) (v v' : value),
       type_of v = type_of v' -> _typecheck t v = _typecheck t v').
Proof.
  intros H.
  specialize (H (TArray (JTArray (expr_object "TInt")) TInt)
                (VList [VInt 1]) (VList [VStr "a"]) eq_refl).
  discriminate H.
Qed.

Lemma typecheck_TArray_is_ok (jt : jtype) (e : Type_) (v : value) :
  is_ok (_typecheck (TArray jt e) v) =
  negb (truthy v) ||
  match v with
  | VList l => forallb (fun x => is_ok (_typecheck e x)) l
  | _ => false
  end.
Proof.
  simpl. destruct (truthy v) eqn:Hv; [|reflexivity].
  destruct v; try reflexivity. simpl. apply rfor_is_ok.
Qed.

Lemma typecheck_TSet_is_ok (jt : jtype) (e : Type_) (v : value) :
  is_ok (_typecheck (TSet jt e) v) =
  negb (truthy v) ||
  match v with
  | VSet l => forallb (fun x => is_ok (_typecheck e x)) l
  | _ => false
  end.
Proof.
  simpl. destruct (truthy v) eqn:Hv; [|reflexivity].
  destruct v; try reflexivity. simpl. apply rfor_is_ok.
Qed.

Lemma typecheck_TDict_is_ok (jt : jtype) (k x : Type_) (v : value) :
  is_ok (_typecheck (TDict jt k x) v) =
  negb (truthy v) ||
  match v with
  | VDict d =>
      forallb (fun kv => is_ok (_typecheck k (fst kv)) &&
                         is_ok (_typecheck x (snd kv))) d
  | _ => false
  end.
Proof.
  simpl. destruct (truthy v) eqn:Hv; [|reflexivity].
  destruct v; try reflexivity. simpl. rewrite rfor_is_ok.
  apply forallb_pointwise. intros [a b]. simpl.
  destruct (_typecheck k a) as [[]|]; reflexivity.
Qed.

Lemma typecheck_TStruct_is_ok (jt : jtype) (fs : list Field) (v : value) :
  is_ok (_typecheck (TStruct jt fs) v) =
  negb (truthy v) ||
  match v with
  | VStruct attrs =>
      forallb (fun f =>
                 match str_dict_get attrs (Field_name f) with
                 | Some y => is_ok (_typecheck (Field_typ f) y)
                 | None => false
                 end) fs
  | _ => false
  end.
Proof.
  simpl. destruct (truthy v) eqn:Hv; [|reflexivity].
  destruct v; try reflexivity. simpl. rewrite rfor_is_ok.
  apply forallb_pointwise. intros f.
  destruct (str_dict_get attrs (Field_name f)); reflexivity.
Qed.

(** C2, amended: the check of each of the twelve parameterless tags is
    shallow: it accepts [None], and on true values its outcome is decided
    by the class of the value alone.  The checks of [TArray], [TSet],
    [TDict] and [TStruct] are not: given a list, a set, a dict or a
    struct with attributes, they accept it exactly when every element,
    every key and value, or every declared field is there and passes the
    check of its component tag. *)
Theorem C2_typecheck_depth :
  (forall c, _typecheck (instance_of c) VNone = Ok tt) /\
  (forall c v v',
     truthy v = true -> truthy v' = true -> type_of v = type_of v' ->
     _typecheck (instance_of c) v = _typecheck (instance_of c) v') /\
  (forall jt e l,
     is_ok (_typecheck (TArray jt e) (VList l)) =
     forallb (fun x => is_ok (_typecheck e x)) l) /\
  (forall jt e l,
     is_ok (_typecheck (TSet jt e) (VSet l)) =
     forallb (fun x => is_ok (_typecheck e x)) l) /\
  (forall jt k x d,
     is_ok (_typecheck (TDict jt k x) (VDict d)) =
     forallb (fun kv => is_ok (_typecheck k (fst kv)) &&
                        is_ok (_typecheck x (snd kv))) d) /\
  (forall jt fs ny attrs,
     is_ok (_typecheck (TStruct jt fs) (VStruct (ny :: attrs))) =
     forallb (fun f =>
                match str_dict_get (ny :: attrs) (Field_name f) with
                | Some y => is_ok (_typecheck (Field_typ f) y)
                | None => false
                end) fs).
Proof.
  split; [intros c; destruct c; reflexivity|].
  split.
  { intros c v v' Hv Hv' Hc. rewrite !typecheck_leaf, Hv, Hv', Hc. reflexivity. }
  split.
  { intros jt e l. rewrite typecheck_TArray_is_ok. destruct l; reflexivity. }
  split.
  { intros jt e l. rewrite typecheck_TSet_is_ok. destruct l; reflexivity. }
  split.
  { intros jt k x d. rewrite typecheck_TDict_is_ok. destruct d; reflexivity. }
  intros jt fs ny attrs. rewrite typecheck_TStruct_is_ok. reflexivity.
Qed.

(** Two true ints get the same answer from [TString], two true lists of
    different elements need not get the same from [TArray]. *)
Lemma C2_typecheck_depth_witness :
  truthy (VInt 1) = true /\ truthy (VInt 2) = true /\
  type_of (VInt 1) = type_of (VInt 2) /\
  _typecheck TString (VInt 1) = _typecheck TString (VInt 2).
Proof.
  split; [reflexivity|]. split; [reflexivity|]. split; [reflexivity|].
  apply (proj1 (proj2 C2_typecheck_depth) TString_cls (VInt 1) (VInt 2));
    reflexivity.
Defined.

(** ** Options across the bridge (java.py) *)

Lemma joption_run (x : value) (w : world) (j : JVMView) :
  _jvm w = Some j ->
  joption x w =
  if truthy x
  then (Ok (JSome x), log_call (mkCall (OnPath "scala.Some") "apply" [x]) w)
  else (Ok scala_None, w).
Proof.
  intros Hj. unfold joption.
  destruct (truthy x);
    unfold jsome, jnone, bind, Env_jvm, jinvoke, ret; rewrite Hj; reflexivity.
Qed.

(** C10: with a Hail context, [joption(x)] is Scala's [None] exactly when
    [x] is false, and [from_option(joption(x))] is [x] for a true [x] and
    [None] for a false one. *)
Theorem C10_joption_roundtrip (x : value) (w : world) :
  initialised w ->
  exists o w1 w2,
    joption x w = (Ok o, w1) /\
    (o = scala_None <-> truthy x = false) /\
    from_option o w1 = (Ok (if truthy x then x else VNone), w2).
Proof.
  intros [j Hj]. rewrite (joption_run x w j Hj).
  destruct (truthy x) eqn:Hx.
  - eexists _, _, _. split; [reflexivity|]. split; [|reflexivity].
    split; discriminate.
  - eexists _, _, _. split; [reflexivity|]. split; [|reflexivity].
    split; reflexivity.
Qed.

(** The false values the claim names, [0], [0.0], [False] and the empty
    string, none of them [None], all come back as [None]. *)
Lemma C10_joption_roundtrip_witness :
  initialised fresh_world /\
  Forall (fun x =>
            x <> VNone /\
            exists o w1 w2,
              joption x fresh_world = (Ok o, w1) /\
              o = scala_None /\
              from_option o w1 = (Ok VNone, w2))
         [VInt 0; VFloat (S754_zero false); VBool false; VStr ""].
Proof.
  assert (Hi : initialised fresh_world) by (exists (JVM 0); reflexivity).
  split; [exact Hi|].
  repeat apply List.Forall_cons; try apply List.Forall_nil.
  all: split; [discriminate|].
  all: match goal with
       | |- context [joption ?x _] =>
           destruct (C10_joption_roundtrip x fresh_world Hi)
             as (o & w1 & w2 & Hrun & Hnone & Hback)
       end.
  all: exists o, w1, w2; split; [exact Hrun|]; split;
       [apply Hnone; reflexivity | exact Hback].
Defined.

(** ** Distribution holders (stats.py) *)

Lemma Env_hail_calls (w : world) :
  gateway_calls (snd (Env_hail w)) = gateway_calls w.
Proof.
  unfold Env_hail, Env_jvm.
  destruct (_hail_package w); [reflexivity|].
  destruct (_jvm w); reflexivity.
Qed.

Lemma float_attr_run (self : pyobject) (name : string) (x : numeric) (w : world) :
  self !! name = Some x ->
  float_attr self name w =
  match py_float x with
  | Ok f => (Ok (VFloat f), w)
  | Raise e => (Raise e, w)
  end.
Proof.
  intros Hx. unfold float_attr, bind, lift, py_getattr, ret. rewrite Hx.
  destruct (py_float x); reflexivity.
Qed.

(** Comparisons of two integers are those of [Z]. *)
Lemma py_compare_int (a b : Z) :
  py_ge (NInt a) (NInt b) = (b <=? a)%Z /\
  py_lt (NInt a) (NInt b) = (a <? b)%Z /\
  py_gt (NInt a) (NInt b) = (b <? a)%Z.
Proof.
  unfold py_ge, py_lt, py_gt. simpl.
  rewrite !Z.mul_1_r. unfold Z.leb, Z.ltb.
  rewrite (Z.compare_antisym a b).
  destruct (a ?= b)%Z; repeat split; reflexivity.
Qed.

(** Every comparison with a NaN is false, so a NaN bound passes the
    tests of the constructors. *)
Lemma py_compare_nan (x : numeric) :
  py_ge (NFloat S754_nan) x = false /\ py_ge x (NFloat S754_nan) = false /\
  py_lt (NFloat S754_nan) x = false /\ py_gt x (NFloat S754_nan) = false.
Proof.
  unfold py_ge, py_lt, py_gt. simpl.
  destruct (xnum_of x); repeat split; reflexivity.
Qed.

(** C8: [UniformDist.__init__] raises [ValueError] exactly when
    [minVal >= maxVal], [TruncatedBetaDist.__init__] exactly when
    [minVal >= maxVal] or [minVal < 0] or [maxVal > 1]; when they raise,
    the object has the attributes it came with and no other; otherwise
    they return and the parameters are set.  [BetaDist.__init__] always
    returns.  None of them touches the process state. *)
Theorem C8_constructor_validation :
  (forall minVal maxVal self w,
     let bad := py_ge minVal maxVal in
     UniformDist_init minVal maxVal self w =
       ((if bad then Raise (ValueError "min must be less than max") else Ok tt,
         if bad then self
         else <["maxVal" := maxVal]> (<["minVal" := minVal]> self)), w)) /\
  (forall a b minVal maxVal self w,
     let bad := py_ge minVal maxVal || py_lt minVal (NInt 0)
                || py_gt maxVal (NInt 1) in
     let '((r, self'), w') := TruncatedBetaDist_init a b minVal maxVal self w in
     is_ValueError r = bad /\ is_ok r = negb bad /\ w' = w /\
     self' = if bad then self
             else <["b" := b]> (<["a" := a]>
                    (<["maxVal" := maxVal]> (<["minVal" := minVal]> self)))) /\
  (forall a b self w,
     BetaDist_init a b self w =
       ((Ok tt, <["b" := b]> (<["a" := a]> self)), w)).
Proof.
  split; [|split].
  - intros minVal maxVal self w. simpl. unfold UniformDist_init.
    destruct (py_ge minVal maxVal); reflexivity.
  - intros a b minVal maxVal self w. unfold TruncatedBetaDist_init.
    destruct (py_ge minVal maxVal); [repeat split|].
    destruct (py_lt minVal (NInt 0)); [repeat split|].
    destruct (py_gt maxVal (NInt 1)); repeat split.
  - intros a b self w. reflexivity.
Qed.

Ltac run_float_attr x :=
  rewrite (float_attr_run _ _ x)
    by (repeat first [apply lookup_insert_eq
                     | rewrite lookup_insert_ne by discriminate]);
  destruct (py_float x) eqn:?;
  [| right; split; [reflexivity | simpl; assumption]].

Lemma BetaDist_jrep_outcome (a b : numeric) (w0 : world) :
  jrep_outcome "BetaDist" [a; b] w0
    (BetaDist_jrep (<["b" := b]> (<["a" := a]> ∅)) w0).
Proof.
  unfold jrep_outcome, BetaDist_jrep, bind.
  pose proof (Env_hail_calls w0) as Hc.
  destruct (Env_hail w0) as [[h|e] w1]; simpl in Hc;
    [| right; split; [reflexivity | exact Hc]].
  run_float_attr a. run_float_attr b.
  left. exists h. eexists. split; [|split; [reflexivity|]].
  - repeat constructor; eauto.
  - simpl. rewrite Hc. reflexivity.
Qed.

Lemma UniformDist_jrep_outcome (minVal maxVal : numeric) (w0 : world) :
  jrep_outcome "UniformDist" [minVal; maxVal] w0
    (UniformDist_jrep (<["maxVal" := maxVal]> (<["minVal" := minVal]> ∅)) w0).
Proof.
  unfold jrep_outcome, UniformDist_jrep, bind.
  pose proof (Env_hail_calls w0) as Hc.
  destruct (Env_hail w0) as [[h|e] w1]; simpl in Hc;
    [| right; split; [reflexivity | exact Hc]].
  run_float_attr minVal. run_float_attr maxVal.
  left. exists h. eexists. split; [|split; [reflexivity|]].
  - repeat constructor; eauto.
  - simpl. rewrite Hc. reflexivity.
Qed.

Lemma TruncatedBetaDist_jrep_outcome (a b minVal maxVal : numeric) (w0 : world) :
  jrep_outcome "TruncatedBetaDist" [a; b; minVal; maxVal] w0
    (TruncatedBetaDist_jrep
       (<["b" := b]> (<["a" := a]>
          (<["maxVal" := maxVal]> (<["minVal" := minVal]> ∅)))) w0).
Proof.
  unfold jrep_outcome, TruncatedBetaDist_jrep, bind.
  pose proof (Env_hail_calls w0) as Hc.
  destruct (Env_hail w0) as [[h|e] w1]; simpl in Hc;
    [| right; split; [reflexivity | exact Hc]].
  run_float_attr a. run_float_attr b.
  run_float_attr minVal. run_float_attr maxVal.
  left. exists h. eexists. split; [|split; [reflexivity|]].
  - repeat constructor; eauto.
  - simpl. rewrite Hc. reflexivity.
Qed.

Lemma Env_hail_path (w0 : world) (h : string) :
  hail_path w0 = Some h ->
  fst (Env_hail w0) = Ok h /\ gateway_calls (snd (Env_hail w0)) = gateway_calls w0.
Proof.
  intros Hh. split; [|apply Env_hail_calls].
  unfold hail_path in Hh. unfold Env_hail, Env_jvm.
  destruct (_hail_package w0) as [p|]; [injection Hh as ->; reflexivity|].
  destruct (_jvm w0) as [j|]; [|discriminate].
  injection Hh as <-. reflexivity.
Qed.

Ltac run_float_ok x H :=
  rewrite (float_attr_run _ _ x)
    by (repeat first [apply lookup_insert_eq
                     | rewrite lookup_insert_ne by discriminate]);
  rewrite H.

Lemma BetaDist_jrep_sends (a b : numeric) (w0 : world) (h : string)
    (fa fb : spec_float) :
  hail_path w0 = Some h -> py_float a = Ok fa -> py_float b = Ok fb ->
  jrep_sends "BetaDist" h [fa; fb] w0
    (BetaDist_jrep (<["b" := b]> (<["a" := a]> ∅)) w0).
Proof.
  intros Hh Ha Hb. destruct (Env_hail_path w0 h Hh) as [Hr Hc].
  unfold jrep_sends, BetaDist_jrep, bind.
  destruct (Env_hail w0) as [[h'|e] w1]; simpl in Hr, Hc; [|discriminate].
  injection Hr as ->.
  run_float_ok a Ha.
  run_float_ok b Hb.
  simpl. rewrite Hc. split; reflexivity.
Qed.

Lemma UniformDist_jrep_sends (minVal maxVal : numeric) (w0 : world) (h : string)
    (flo fhi : spec_float) :
  hail_path w0 = Some h -> py_float minVal = Ok flo -> py_float maxVal = Ok fhi ->
  jrep_sends "UniformDist" h [flo; fhi] w0
    (UniformDist_jrep (<["maxVal" := maxVal]> (<["minVal" := minVal]> ∅)) w0).
Proof.
  intros Hh Hlo Hhi. destruct (Env_hail_path w0 h Hh) as [Hr Hc].
  unfold jrep_sends, UniformDist_jrep, bind.
  destruct (Env_hail w0) as [[h'|e] w1]; simpl in Hr, Hc; [|discriminate].
  injection Hr as ->.
  run_float_ok minVal Hlo.
  run_float_ok maxVal Hhi.
  simpl. rewrite Hc. split; reflexivity.
Qed.

Lemma TruncatedBetaDist_jrep_sends (a b minVal maxVal : numeric) (w0 : world)
    (h : string) (fa fb flo fhi : spec_float) :
  hail_path w0 = Some h ->
  py_float a = Ok fa -> py_float b = Ok fb ->
  py_float minVal = Ok flo -> py_float maxVal = Ok fhi ->
  jrep_sends "TruncatedBetaDist" h [fa; fb; flo; fhi] w0
    (TruncatedBetaDist_jrep
       (<["b" := b]> (<["a" := a]>
          (<["maxVal" := maxVal]> (<["minVal" := minVal]> ∅)))) w0).
Proof.
  intros Hh Ha Hb Hlo Hhi. destruct (Env_hail_path w0 h Hh) as [Hr Hc].
  unfold jrep_sends, TruncatedBetaDist_jrep, bind.
  destruct (Env_hail w0) as [[h'|e] w1]; simpl in Hr, Hc; [|discriminate].
  injection Hr as ->.
  run_float_ok a Ha.
  run_float_ok b Hb.
  run_float_ok minVal Hlo.
  run_float_ok maxVal Hhi.
  simpl. rewrite Hc. split; reflexivity.
Qed.

Lemma TruncatedBetaDist_run (a b minVal maxVal : numeric) (w : world) :
  TruncatedBetaDist a b minVal maxVal w =
    (if py_ge minVal maxVal
     then Raise (ValueError "min must be less than max")
     else if py_lt minVal (NInt 0)
     then Raise (ValueError "min cannot be less than 0")
     else if py_gt maxVal (NInt 1)
     then Raise (ValueError "max cannot be greater than 1")
     else Ok (<["b" := b]> (<["a" := a]>
                (<["maxVal" := maxVal]> (<["minVal" := minVal]> ∅)))), w).
Proof.
  unfold TruncatedBetaDist, construct, TruncatedBetaDist_init.
  destruct (py_ge minVal maxVal); [reflexivity|].
  destruct (py_lt minVal (NInt 0)); [reflexivity|].
  destruct (py_gt maxVal (NInt 1)); reflexivity.
Qed.

(** C3: calling [BetaDist], [UniformDist] or [TruncatedBetaDist] leaves
    the process state as it was, so sends nothing to the engine, and,
    unless the bounds make it raise, returns the object that holds the
    arguments, unchanged, under the parameters' names and nothing else.
    [_jrep] on that object, called with a Hail context when every
    parameter has a float, returns the object the engine's constructor
    makes, and sends the constructor exactly the stored parameters
    converted to float, as its one gateway call; in whatever world it is
    called it does that or raises without sending anything. *)
Theorem C3_distribution_holders :
  (forall a b w,
     let self := <["b" := b]> (<["a" := a]> ∅) in
     BetaDist a b w = (Ok self, w) /\
     (forall w0 h fa fb,
        hail_path w0 = Some h -> py_float a = Ok fa -> py_float b = Ok fb ->
        jrep_sends "BetaDist" h [fa; fb] w0 (BetaDist_jrep self w0)) /\
     forall w0, jrep_outcome "BetaDist" [a; b] w0 (BetaDist_jrep self w0)) /\
  (forall minVal maxVal w,
     let self := <["maxVal" := maxVal]> (<["minVal" := minVal]> ∅) in
     UniformDist minVal maxVal w =
       (if py_ge minVal maxVal
        then Raise (ValueError "min must be less than max")
        else Ok self, w) /\
     (forall w0 h flo fhi,
        hail_path w0 = Some h ->
        py_float minVal = Ok flo -> py_float maxVal = Ok fhi ->
        jrep_sends "UniformDist" h [flo; fhi] w0 (UniformDist_jrep self w0)) /\
     forall w0,
       jrep_outcome "UniformDist" [minVal; maxVal] w0 (UniformDist_jrep self w0)) /\
  (forall a b minVal maxVal w,
     let self := <["b" := b]> (<["a" := a]>
                   (<["maxVal" := maxVal]> (<["minVal" := minVal]> ∅))) in
     TruncatedBetaDist a b minVal maxVal w =
       (if py_ge minVal maxVal
        then Raise (ValueError "min must be less than max")
        else if py_lt minVal (NInt 0)
        then Raise (ValueError "min cannot be less than 0")
        else if py_gt maxVal (NInt 1)
        then Raise (ValueError "max cannot be greater than 1")
        else Ok self, w) /\
     (forall w0 h fa fb flo fhi,
        hail_path w0 = Some h ->
        py_float a = Ok fa -> py_float b = Ok fb ->
        py_float minVal = Ok flo -> py_float maxVal = Ok fhi ->
        jrep_sends "TruncatedBetaDist" h [fa; fb; flo; fhi] w0
          (TruncatedBetaDist_jrep self w0)) /\
     forall w0,
       jrep_outcome "TruncatedBetaDist" [a; b; minVal; maxVal] w0
         (TruncatedBetaDist_jrep self w0)).
Proof.
  split; [|split].
  - intros a b w self. split; [reflexivity|]. split.
    + intros w0 h fa fb. apply BetaDist_jrep_sends.
    + intros w0. apply BetaDist_jrep_outcome.
  - intros minVal maxVal w self. split; [|split].
    + unfold UniformDist, construct, UniformDist_init.
      destruct (py_ge minVal maxVal); reflexivity.
    + intros w0 h flo fhi. apply UniformDist_jrep_sends.
    + intros w0. apply UniformDist_jrep_outcome.
  - intros a b minVal maxVal w self. split; [|split].
    + apply TruncatedBetaDist_run.
    + intros w0 h fa fb flo fhi. apply TruncatedBetaDist_jrep_sends.
    + intros w0. apply TruncatedBetaDist_jrep_outcome.
Qed.

(** A beta distribution made from an integer and a float: nothing is
    sent on construction, and [_jrep] sends [apply(2.0, 0.5)]. *)
Lemma C3_distribution_holders_witness :
  let a := NInt 2 in
  let b := NFloat (S754_finite false 4503599627370496 (-53)) in
  let two := S754_finite false 4503599627370496 (-51) in
  let half := S754_finite false 4503599627370496 (-53) in
  let self := <["b" := b]> (<["a" := a]> ∅) in
  BetaDist a b fresh_world = (Ok self, fresh_world) /\
  hail_path fresh_world = Some "is.hail" /\
  py_float a = Ok two /\ py_float b = Ok half /\
  fst (BetaDist_jrep self fresh_world) =
    Ok (JApply "is.hail.stats.BetaDist" [VFloat two; VFloat half]) /\
  gateway_calls (snd (BetaDist_jrep self fresh_world)) =
    [mkCall (OnPath "is.hail.stats.BetaDist") "apply"
            [VFloat two; VFloat half]].
Proof.
  intros a b two half self.
  destruct (proj1 C3_distribution_holders a b fresh_world) as (Hmake & Hsends & _).
  assert (Hh : hail_path fresh_world = Some "is.hail") by reflexivity.
  assert (Ha : py_float a = Ok two) by reflexivity.
  assert (Hb : py_float b = Ok half) by reflexivity.
  split; [exact Hmake|]. split; [exact Hh|]. split; [exact Ha|].
  split; [exact Hb|].
  exact (Hsends fresh_world "is.hail" two half Hh Ha Hb).
Defined.

(** ** Singleton tags (expr.py) *)

Lemma Env_hail_instances (w : world) :
  _instances (snd (Env_hail w)) = _instances w.
Proof.
  unfold Env_hail, Env_jvm.
  destruct (_hail_package w); [reflexivity|].
  destruct (_jvm w); reflexivity.
Qed.

Lemma Singleton_call_cached (c : singleton_class) (i : instance) (w : world) :
  _instances w !! c = Some i -> Singleton_call c w = (Ok i, w).
Proof. intros H. unfold Singleton_call. rewrite H. reflexivity. Qed.

Lemma Singleton_call_stores (c : singleton_class) (i : instance) (w w1 : world) :
  Singleton_call c w = (Ok i, w1) -> _instances w1 !! c = Some i.
Proof.
  unfold Singleton_call, new_instance.
  destruct (_instances w !! c) as [i0|] eqn:Hc.
  - intros H. injection H as <- <-. exact Hc.
  - destruct (Env_hail (bump_oid w)) as [[h|e] w']; [|discriminate].
    intros H. injection H as <- <-. simpl. apply lookup_insert_eq.
Qed.

Lemma Singleton_call_keeps (c c' : singleton_class) (i : instance) (w : world) :
  _instances w !! c = Some i ->
  _instances (snd (Singleton_call c' w)) !! c = Some i.
Proof.
  intros H. unfold Singleton_call, new_instance.
  destruct (_instances w !! c') as [i0|] eqn:Hc'; [exact H|].
  pose proof (Env_hail_instances (bump_oid w)) as Hi.
  destruct (Env_hail (bump_oid w)) as [[h|e] w']; simpl in *.
  - rewrite Hi. rewrite lookup_insert_ne; [exact H|].
    intros ->. rewrite Hc' in H. discriminate.
  - rewrite Hi. exact H.
Qed.

Lemma call_all_keeps (cs : list singleton_class) (c : singleton_class)
    (i : instance) (w : world) :
  _instances w !! c = Some i -> _instances (call_all cs w) !! c = Some i.
Proof.
  revert w. induction cs as [|c' cs IH]; intros w H; [exact H|].
  simpl. apply IH. apply Singleton_call_keeps. exact H.
Qed.

(** C9: once a call of a parameterless class has returned an instance,
    every later call of that class, after any number of calls of these
    classes, returns that same instance (the same identity, the same
    state) and changes nothing. *)
Theorem C9_singleton_identity (cls : singleton_class) (w w1 : world)
    (i : instance) (cs : list singleton_class) :
  Singleton_call cls w = (Ok i, w1) ->
  Singleton_call cls (call_all cs w1) = (Ok i, call_all cs w1).
Proof.
  intros H. apply Singleton_call_cached. apply call_all_keeps.
  exact (Singleton_call_stores cls i w w1 H).
Qed.

(** The first [TInt()] makes object [0]; after [TLong()], [TInt()] and
    [TString()], [TInt()] is still object [0]. *)
Lemma C9_singleton_identity_witness :
  let w1 := snd (Singleton_call TInt_cls fresh_world) in
  let later := call_all [TLong_cls; TInt_cls; TString_cls] w1 in
  Singleton_call TInt_cls fresh_world = (Ok (mkInstance 0 TInt), w1) /\
  Singleton_call TInt_cls later = (Ok (mkInstance 0 TInt), later).
Proof.
  intros w1 later.
  assert (H : Singleton_call TInt_cls fresh_world = (Ok (mkInstance 0 TInt), w1))
    by reflexivity.
  split; [exact H|].
  exact (C9_singleton_identity TInt_cls fresh_world w1 (mkInstance 0 TInt)
           [TLong_cls; TInt_cls; TString_cls] H).
Defined.

(** ** The methods of the type tags keep the frame *)

Lemma frame_refl (w : world) : frame w w.
Proof. repeat split. Qed.

Lemma frame_trans (w1 w2 w3 : world) :
  frame w1 w2 -> frame w2 w3 -> frame w1 w3.
Proof.
  intros (A1 & B1 & C1 & D1) (A2 & B2 & C2 & D2).
  repeat split; congruence.
Qed.

Lemma steady_ret {A} (a : A) : steady (ret a).
Proof. intros w. split; [apply frame_refl | reflexivity]. Qed.

Lemma steady_raise {A} (e : exn) : steady (@raise A e).
Proof. intros w. split; [apply frame_refl | reflexivity]. Qed.

Lemma steady_lift {A} (r : result A) : steady (lift r).
Proof. intros w. split; [apply frame_refl | reflexivity]. Qed.

Lemma steady_jinvoke {A} (r : jreceiver) (m : string) (args : list value)
    (answer : result A) :
  steady (jinvoke r m args answer).
Proof. intros w. split; [repeat split | reflexivity]. Qed.

Lemma steady_bind {A B} (m : M A) (k : A -> M B) :
  steady m -> (forall a, steady (k a)) -> steady (bind m k).
Proof.
  intros Hm Hk w. unfold bind.
  destruct (Hm w) as [Hf Hr].
  split.
  - destruct (m w) as [[a|e] w1]; simpl in *; [|exact Hf].
    eapply frame_trans; [exact Hf|]. apply (Hk a w1).
  - intros w' Hv. specialize (Hr w' Hv).
    destruct (Hm w') as [Hf' _].
    destruct (m w) as [[a|e] w1], (m w') as [[a'|e'] w1']; simpl in *;
      try discriminate; [|congruence].
    injection Hr as ->.
    apply (Hk a w1). destruct Hf as [-> _], Hf' as [-> _]. exact Hv.
Qed.

Lemma Env_hail_run (w : world) :
  fst (Env_hail w) =
    match hail_path w with
    | Some h => Ok h
    | None => Raise no_context
    end /\
  frame w (snd (Env_hail w)).
Proof.
  unfold Env_hail, Env_jvm, frame, env_view, jutils_path, hail_path.
  destruct w as [jvm hp ju inst n calls]. simpl.
  destruct hp as [p|]; [repeat split|].
  destruct jvm as [j|]; simpl; repeat split.
Qed.

Lemma Env_jutils_run (w : world) :
  fst (Env_jutils w) =
    match jutils_path w with
    | Some u => Ok u
    | None => Raise no_context
    end /\
  frame w (snd (Env_jutils w)).
Proof.
  unfold Env_jutils.
  destruct (_jutils w) as [u|] eqn:Hu.
  - unfold jutils_path. rewrite Hu. split; [reflexivity | apply frame_refl].
  - destruct (Env_hail_run w) as [Hr Hf].
    unfold jutils_path. rewrite Hu.
    destruct (Env_hail w) as [[h|e] w1]; simpl in *.
    + destruct (hail_path w) as [h'|] eqn:Hh; [|discriminate].
      injection Hr as ->. split; [reflexivity|].
      destruct Hf as (Hv & Hj & Hi & Hn).
      unfold frame, env_view, jutils_path, set_jutils in *. simpl.
      assert (Hp : hail_path w1 = Some h') by (rewrite <- Hh; congruence).
      assert (Hp' : hail_path (mkWorld (_jvm w1) (_hail_package w1)
                                 (Some (scala_package_object (jgetattr h' "utils")))
                                 (_instances w1) (next_oid w1) (gateway_calls w1))
                    = hail_path w1) by reflexivity.
      rewrite Hp', Hp, Hu, Hh. repeat split; assumption.
    + destruct (hail_path w); [discriminate|]. split; [exact Hr | exact Hf].
Qed.

Lemma steady_Env_hail : steady Env_hail.
Proof.
  intros w. destruct (Env_hail_run w) as [Hr Hf]. split; [exact Hf|].
  intros w' Hv. rewrite Hr, (proj1 (Env_hail_run w')).
  injection Hv as -> _. reflexivity.
Qed.

Lemma steady_Env_jutils : steady Env_jutils.
Proof.
  intros w. destruct (Env_jutils_run w) as [Hr Hf]. split; [exact Hf|].
  intros w' Hv. rewrite Hr, (proj1 (Env_jutils_run w')).
  injection Hv as _ ->. reflexivity.
Qed.

Lemma steady_mapM {A B} (f : A -> M B) (l : list A) :
  Forall (fun x => steady (f x)) l -> steady (mapM f l).
Proof.
  induction 1 as [|x l Hx Hl IH]; simpl.
  - apply steady_ret.
  - apply steady_bind; [exact Hx|]. intros y.
    apply steady_bind; [exact IH|]. intros ys. apply steady_ret.
Qed.

Lemma steady_mapMi {A B} (f : nat -> A -> M B) (l : list A) :
  Forall (fun x => forall i, steady (f i x)) l ->
  forall i, steady (mapMi f i l).
Proof.
  induction 1 as [|x l Hx Hl IH]; intros i; simpl.
  - apply steady_ret.
  - apply steady_bind; [apply Hx|]. intros y.
    apply steady_bind; [apply IH|]. intros ys. apply steady_ret.
Qed.

Lemma Forall_all {A} (P : A -> Prop) (l : list A) :
  (forall x, P x) -> Forall P l.
Proof. intros H. induction l; constructor; auto. Qed.

Ltac steady_step :=
  first
    [ apply steady_ret | apply steady_raise | apply steady_lift
    | apply steady_jinvoke | apply steady_Env_hail | apply steady_Env_jutils
    | apply steady_bind; [|intros ?] ].

Lemma steady_convert_to_j (t : Type_) :
  forall v, steady (_convert_to_j t v).
Proof.
  induction t as [c|jt e IH|jt e IH|jt k x IHk IHx|jt fs IH]
    using Type_induction; intros v.
  - destruct c; simpl; unfold convert_number, convert_rep;
      try destruct (truthy v); try destruct (negb (is_None v));
      repeat steady_step.
  - simpl. destruct (negb (is_None v)); repeat steady_step.
    apply steady_mapM. apply Forall_all. exact IH.
  - simpl. destruct (negb (is_None v)); repeat steady_step.
    apply steady_mapM. apply Forall_all. exact IH.
  - simpl. destruct (negb (is_None v)); repeat steady_step.
    apply steady_mapM. apply Forall_all. intros kv. repeat steady_step.
    + apply IHx.
    + apply IHk.
  - simpl. destruct (negb (is_None v)); repeat steady_step.
    apply steady_mapM. eapply Forall_impl; [exact IH|].
    intros f Hf. simpl in Hf. repeat steady_step. apply Hf.
Qed.

Lemma steady_py_get_index (v : value) (i : nat) : steady (py_get_index v i).
Proof. destruct v; simpl; repeat steady_step. Qed.

Lemma steady_convert_to_py (t : Type_) :
  forall v, steady (_convert_to_py t v).
Proof.
  induction t as [c|jt e IH|jt e IH|jt k x IHk IHx|jt fs IH]
    using Type_induction; intros v.
  - destruct c; simpl; unfold convert_rep_to_py;
      try destruct (truthy v); repeat steady_step.
  - simpl. destruct (truthy v); repeat steady_step.
    apply steady_mapM. apply Forall_all. exact IH.
  - simpl. destruct (truthy v); repeat steady_step.
    apply steady_mapM. apply Forall_all. exact IH.
  - simpl. destruct (truthy v); repeat steady_step.
    apply steady_mapM. apply Forall_all. intros y. repeat steady_step.
    + apply IHx.
    + apply IHk.
  - simpl. destruct (truthy v); repeat steady_step.
    apply steady_mapMi. eapply Forall_impl; [exact IH|].
    intros f Hf i. simpl in Hf. repeat steady_step.
    + apply steady_py_get_index.
    + apply Hf.
Qed.

Lemma steady_twice {A} (m : M A) (w : world) :
  steady m ->
  frame w (snd (m w)) /\ fst (m (snd (m w))) = fst (m w).
Proof.
  intros H. destruct (H w) as [Hf Hr]. split; [exact Hf|].
  apply Hr. apply Hf.
Qed.

(** C7: [_typecheck] reads no state at all, and [_convert_to_j] and
    [_convert_to_py] leave the world as they found it but for the handles
    [Env] caches and the record of gateway calls: the JVM, the singleton
    instances with their fields, the identity counter and what [Env]
    answers are the same afterwards, the tag itself is a value no method
    writes to, and calling the method again on the same tag and value
    gives the same outcome. *)
Theorem C7_type_tag_purity (t : Type_) (v : value) (w : world) :
  lift (_typecheck t v) w = (_typecheck t v, w) /\
  (frame w (snd (_convert_to_j t v w)) /\
   _instances (snd (_convert_to_j t v w)) = _instances w /\
   fst (_convert_to_j t v (snd (_convert_to_j t v w))) =
     fst (_convert_to_j t v w)) /\
  (frame w (snd (_convert_to_py t v w)) /\
   _instances (snd (_convert_to_py t v w)) = _instances w /\
   fst (_convert_to_py t v (snd (_convert_to_py t v w))) =
     fst (_convert_to_py t v w)).
Proof.
  split; [reflexivity|].
  destruct (steady_twice (_convert_to_j t v) w (steady_convert_to_j t v))
    as [Hj Hj'].
  destruct (steady_twice (_convert_to_py t v) w (steady_convert_to_py t v))
    as [Hp Hp'].
  repeat split; try assumption; try apply Hj; apply Hp.
Qed.

(** ** Values of the right class pass the check and convert *)

Lemma is_ok_unit (r : result unit) : is_ok r = true -> r = Ok tt.
Proof. destruct r as [[]|]; [reflexivity|discriminate]. Qed.

Lemma is_None_falsy (v : value) : is_None v = true -> truthy v = false.
Proof. destruct v; try discriminate. reflexivity. Qed.

Lemma classes_of_leaf (c : singleton_class) :
  classes_of (instance_of c) = checked_classes c.
Proof. destruct c; reflexivity. Qed.

Lemma instance_deep_leaf (c : singleton_class) (v : value) :
  instance_deep (instance_of c) v =
  is_None v || existsb (isinstance v) (checked_classes c).
Proof. destruct c; reflexivity. Qed.

Lemma instance_deep_typecheck (t : Type_) :
  forall v, instance_deep t v = true -> _typecheck t v = Ok tt.
Proof.
  induction t as [c|jt e IH|jt e IH|jt k x IHk IHx|jt fs IH]
    using Type_induction; intros v Hv.
  - rewrite typecheck_leaf. rewrite instance_deep_leaf in Hv.
    unfold shallow_check.
    destruct (is_None v) eqn:Hn.
    + rewrite (is_None_falsy v Hn). reflexivity.
    + assert (E : existsb (issubclass (type_of v)) (checked_classes c) = true)
        by exact Hv.
      rewrite E, andb_false_r. reflexivity.
  - apply is_ok_unit.
    rewrite typecheck_TArray_is_ok.
    destruct v; try discriminate; simpl in *; [reflexivity|].
    apply orb_true_iff. right.
    rewrite forallb_forall in *. intros y Hy.
    rewrite (IH y (Hv y Hy)). reflexivity.
  - apply is_ok_unit.
    rewrite typecheck_TSet_is_ok.
    destruct v; try discriminate; simpl in *; [reflexivity|].
    apply orb_true_iff. right.
    rewrite forallb_forall in *. intros y Hy.
    rewrite (IH y (Hv y Hy)). reflexivity.
  - apply is_ok_unit.
    rewrite typecheck_TDict_is_ok.
    destruct v; try discriminate; simpl in *; [reflexivity|].
    apply orb_true_iff. right.
    rewrite forallb_forall in *. intros y Hy.
    specialize (Hv y Hy). apply andb_true_iff in Hv as [Hk Hx].
    rewrite (IHk _ Hk), (IHx _ Hx). reflexivity.
  - apply is_ok_unit.
    rewrite typecheck_TStruct_is_ok.
    destruct v; try discriminate; simpl in *; [reflexivity|].
    apply orb_true_iff. right.
    rewrite forallb_forall in *. intros f Hf.
    specialize (Hv f Hf).
    destruct (str_dict_get attrs (Field_name f)) as [y|]; [|discriminate].
    rewrite List.Forall_forall in IH.
    rewrite (IH f Hf y Hv). reflexivity.
Qed.

Lemma frame_ready (w w' : world) : frame w w' -> hail_ready w -> hail_ready w'.
Proof.
  intros [Hv _] H. unfold hail_ready in *.
  injection Hv as -> _. exact H.
Qed.

Lemma succeeds_ret {A} (a : A) : succeeds (ret a).
Proof. intros w _. reflexivity. Qed.

Lemma succeeds_bind {A B} (m : M A) (k : A -> M B) :
  steady m -> succeeds m ->
  (forall a w, hail_ready w -> fst (m w) = Ok a -> succeeds (k a)) ->
  succeeds (bind m k).
Proof.
  intros Hs Hm Hk w Hw. unfold bind.
  specialize (Hm w Hw). destruct (Hs w) as [Hf _].
  assert (Hk' : forall a, fst (m w) = Ok a -> succeeds (k a))
    by (intros a; exact (Hk a w Hw)).
  destruct (m w) as [[a|e] w1]; simpl in *; [|discriminate].
  apply (Hk' a eq_refl). eapply frame_ready; eassumption.
Qed.

Lemma succeeds_Env_hail : succeeds Env_hail.
Proof.
  intros w [h Hh]. rewrite (proj1 (Env_hail_run w)), Hh. reflexivity.
Qed.

Lemma succeeds_Env_jutils : succeeds Env_jutils.
Proof.
  intros w [h Hh]. rewrite (proj1 (Env_jutils_run w)).
  unfold jutils_path. rewrite Hh. destruct (_jutils w); reflexivity.
Qed.

Lemma succeeds_jinvoke {A} (r : jreceiver) (m : string) (args : list value)
    (a : A) :
  succeeds (jinvoke r m args (Ok a)).
Proof. intros w _. reflexivity. Qed.

Lemma succeeds_mapM {A B} (f : A -> M B) (l : list A) :
  Forall (fun x => steady (f x) /\ succeeds (f x)) l -> succeeds (mapM f l).
Proof.
  induction 1 as [|x l [Hs Hx] Hl IH]; simpl.
  - apply succeeds_ret.
  - apply succeeds_bind; [exact Hs | exact Hx |]. intros y w _ _.
    apply succeeds_bind; [|exact IH|].
    + apply steady_mapM. eapply Forall_impl; [exact Hl|]. intros ? [? _]. assumption.
    + intros ys w' _ _. apply succeeds_ret.
Qed.

Lemma existsb_false_elim {A} (f : A -> bool) (l : list A) :
  existsb f l = false -> forall x, In x l -> f x = false.
Proof.
  induction l as [|y l IH]; intros H x Hx; [destruct Hx|].
  simpl in H. apply orb_false_iff in H as [Hy Hl].
  destruct Hx as [<-|Hx]; [exact Hy | exact (IH Hl x Hx)].
Qed.

Lemma lift_ok_inv {A} (r : result A) (a : A) (w : world) :
  fst (lift r w) = Ok a -> r = Ok a.
Proof. intros H. exact H. Qed.

Lemma succeeds_convert_number (maker : string) (v : value) :
  is_None v || is_number v = true -> succeeds (convert_number maker v).
Proof.
  intros Hv. unfold convert_number.
  destruct (truthy v) eqn:Ht; [|apply succeeds_ret].
  apply succeeds_bind; [apply steady_Env_jutils | apply succeeds_Env_jutils |].
  intros ju w _ _. unfold make_number.
  destruct (is_number v) eqn:Hn; [apply succeeds_jinvoke|].
  rewrite orb_false_r in Hv. rewrite (is_None_falsy v Hv) in Ht. discriminate.
Qed.

Lemma succeeds_convert_rep (c : repclass) (v : value) :
  is_None v || isinstance v (CRep c) = true -> succeeds (convert_rep v).
Proof.
  intros Hv w _. unfold convert_rep.
  destruct v; try discriminate; reflexivity.
Qed.

Lemma succeeds_convert_to_j (t : Type_) :
  has_TFloat t = false ->
  forall v, instance_deep t v = true -> succeeds (_convert_to_j t v).
Proof.
  induction t as [c|jt e IH|jt e IH|jt k x IHk IHx|jt fs IH]
    using Type_induction; intros Hf v Hv.
  - rewrite instance_deep_leaf in Hv.
    destruct c; try discriminate Hf; simpl;
      try apply succeeds_ret;
      try (eapply succeeds_convert_rep; simpl in Hv;
           rewrite orb_false_r in Hv; exact Hv);
      apply succeeds_convert_number;
      destruct v; try discriminate; reflexivity.
  - simpl in *. destruct v; try discriminate; simpl; [apply succeeds_ret|].
    apply succeeds_bind; [apply steady_Env_jutils | apply succeeds_Env_jutils |].
    intros ju w _ _.
    apply succeeds_bind; [apply steady_lift | intros ? _; reflexivity |].
    intros l w' _ Hl. apply lift_ok_inv in Hl. injection Hl as <-.
    apply succeeds_bind.
    + apply steady_mapM. apply Forall_all. apply steady_convert_to_j.
    + apply succeeds_mapM. unfold is_None in Hv; simpl in Hv; rewrite forallb_forall in Hv.
      apply List.Forall_forall. intros y Hy.
      split; [apply steady_convert_to_j | apply (IH Hf y (Hv y Hy))].
    + intros js w'' _ _. apply succeeds_jinvoke.
  - simpl in *. destruct v; try discriminate; simpl; [apply succeeds_ret|].
    apply succeeds_bind; [apply steady_lift | intros ? _; reflexivity |].
    intros l w' _ Hl. apply lift_ok_inv in Hl. injection Hl as <-.
    apply succeeds_bind.
    + apply steady_mapM. apply Forall_all. apply steady_convert_to_j.
    + apply succeeds_mapM. unfold is_None in Hv; simpl in Hv; rewrite forallb_forall in Hv.
      apply List.Forall_forall. intros y Hy.
      split; [apply steady_convert_to_j | apply (IH Hf y (Hv y Hy))].
    + intros js w'' _ _.
      apply succeeds_bind; [apply steady_Env_jutils | apply succeeds_Env_jutils |].
      intros ju w _ _. apply succeeds_jinvoke.
  - simpl in *. apply orb_false_iff in Hf as [Hfk Hfx].
    destruct v; try discriminate; simpl; [apply succeeds_ret|].
    apply succeeds_bind; [apply steady_Env_jutils | apply succeeds_Env_jutils |].
    intros ju w _ _.
    apply succeeds_bind; [apply steady_lift | intros ? _; reflexivity |].
    intros l w' _ Hl. apply lift_ok_inv in Hl. injection Hl as <-.
    assert (Hst : forall kv : value * value,
               steady (let* v := _convert_to_j x (snd kv) in
                       let* k0 := _convert_to_j k (fst kv) in ret (k0, v))).
    { intros kv. repeat steady_step; apply steady_convert_to_j. }
    apply succeeds_bind.
    + apply steady_mapM. apply Forall_all. exact Hst.
    + apply succeeds_mapM. unfold is_None in Hv; simpl in Hv; rewrite forallb_forall in Hv.
      apply List.Forall_forall. intros y Hy.
      split; [apply Hst|].
      specialize (Hv y Hy). apply andb_true_iff in Hv as [Hk Hx].
      apply succeeds_bind; [apply steady_convert_to_j | apply (IHx Hfx _ Hx) |].
      intros jv w1 _ _.
      apply succeeds_bind; [apply steady_convert_to_j | apply (IHk Hfk _ Hk) |].
      intros jk w2 _ _. apply succeeds_ret.
    + intros js w'' _ _. apply succeeds_jinvoke.
  - simpl in *. destruct v; try discriminate; simpl; [apply succeeds_ret|].
    apply succeeds_bind; [apply steady_Env_hail | apply succeeds_Env_hail |].
    intros h w _ _.
    apply succeeds_bind; [apply steady_Env_jutils | apply succeeds_Env_jutils |].
    intros ju w' _ _.
    assert (Hst : Forall (fun f : Field =>
               steady (let* y := lift (py_get (VStruct attrs) (Field_name f)) in
                       _convert_to_j (Field_typ f) y)) fs).
    { apply Forall_all. intros f. repeat steady_step. apply steady_convert_to_j. }
    apply succeeds_bind.
    + apply steady_mapM. exact Hst.
    + apply succeeds_mapM. unfold is_None in Hv; simpl in Hv; rewrite forallb_forall in Hv.
      rewrite List.Forall_forall in IH, Hst.
      apply List.Forall_forall. intros f Hin.
      split; [apply (Hst f Hin)|].
      specialize (Hv f Hin). simpl.
      destruct (str_dict_get attrs (Field_name f)) as [y|] eqn:Hy; [|discriminate].
      apply succeeds_bind; [apply steady_lift | intros ? _; reflexivity |].
      intros y' w1 _ Hy'. apply lift_ok_inv in Hy'. simpl in Hy'.
      rewrite ?Hy in Hy'. injection Hy' as <-.
      apply (IH f Hin); [|exact Hv].
      apply (existsb_false_elim _ _ Hf f Hin).
    + intros js w1 _ _.
      apply succeeds_bind; [apply steady_jinvoke | apply succeeds_jinvoke |].
      intros sq w2 _ Hsq. simpl in Hsq. injection Hsq as <-.
      apply succeeds_jinvoke.
Qed.

(** [TFloat._convert_to_j] raises [NotImplementedError] whatever it is
    given. *)
Lemma TFloat_convert_to_j_raises (v : value) (w : world) :
  exists msg, _convert_to_j TFloat v w = (Raise (NotImplementedError msg), w).
Proof. eexists. reflexivity. Qed.

(** C4 as the claim states it fails: with a Hail context, the float [1.5]
    passes [TFloat._typecheck], and [TFloat._convert_to_j] raises on it. *)
Lemma C4_counterexample :
  ~ (forall (t : Type_) (v : value) (w : world),
       hail_ready w -> _typecheck t v = Ok tt ->
       is_ok (fst (_convert_to_j t v w)) = true).
Proof.
  intros H.
  assert (Hw : hail_ready fresh_world) by (eexists; reflexivity).
  specialize (H TFloat (VFloat (S754_finite false 6755399441055744 (-52)))
                fresh_world Hw eq_refl).
  discriminate H.
Qed.

(** C4, amended: for a tag with no [TFloat] among its components and a
    value that is [None] or an instance of the tag's class, with elements,
    entries and declared fields that are so in turn, the value passes
    [_typecheck], and with a Hail context [_convert_to_j] returns
    normally.  [TFloat._convert_to_j] raises [NotImplementedError] on
    every value, in every world, and leaves the world as it was. *)
Theorem C4_convert_to_j_succeeds (t : Type_) (v : value) (w : world) :
  (has_TFloat t = false ->
   instance_deep t v = true ->
   hail_ready w ->
   _typecheck t v = Ok tt /\
   exists j w', _convert_to_j t v w = (Ok j, w')) /\
  _convert_to_j TFloat v w =
    (Raise (NotImplementedError
       "TFloat is currently unsupported in certain operations, use TDouble instead"),
     w).
Proof.
  split; [|reflexivity].
  intros Hf Hv Hw. split; [apply instance_deep_typecheck; exact Hv|].
  pose proof (succeeds_convert_to_j t Hf v Hv w Hw) as Hok.
  destruct (_convert_to_j t v w) as [[j|e] w']; [|discriminate].
  exists j, w'. reflexivity.
Qed.

(** A struct with an array of ints and a dict from strings to doubles,
    given a value with one field left as [None]; the same value given to
    [TFloat]. *)
Lemma C4_convert_to_j_succeeds_witness :
  let t := TStruct (JTStruct [])
             [mkField "xs" (TArray (JTArray (expr_object "TInt")) TInt) ∅;
              mkField "d" (TDict (JTDict (expr_object "TString")
                                         (expr_object "TDouble"))
                                 TString TDouble) ∅;
              mkField "v" TVariant ∅] in
  let v := VStruct [("xs", VList [VInt 3; VNone; VInt 0]);
                    ("d", VDict [(VStr "a", VFloat (S754_zero false))]);
                    ("v", VNone)] in
  has_TFloat t = false /\ instance_deep t v = true /\ hail_ready fresh_world /\
  (_typecheck t v = Ok tt /\
   exists j w', _convert_to_j t v fresh_world = (Ok j, w')) /\
  is_ok (fst (_convert_to_j TFloat v fresh_world)) = false.
Proof.
  intros t v.
  assert (Hw : hail_ready fresh_world) by (eexists; reflexivity).
  split; [reflexivity|]. split; [reflexivity|]. split; [exact Hw|].
  split.
  - exact (proj1 (C4_convert_to_j_succeeds t v fresh_world) eq_refl eq_refl Hw).
  - rewrite (proj2 (C4_convert_to_j_succeeds t v fresh_world)). reflexivity.
Defined.

(** ** Mirrors of the engine's type objects (expr.py) *)

Section jtype_induction.
Variable P : jtype -> Prop.
Hypothesis P_object : forall n, P (JObject n).
Hypothesis P_array : forall e, P e -> P (JTArray e).
Hypothesis P_set : forall e, P e -> P (JTSet e).
Hypothesis P_dict : forall k v, P k -> P v -> P (JTDict k v).
Hypothesis P_struct :
  forall jfs,
    Forall (fun f => match f with JField _ ty _ => P ty end) jfs ->
    P (JTStruct jfs).

Fixpoint jtype_induction (jt : jtype) : P jt :=
  match jt with
  | JObject n => P_object n
  | JTArray e => P_array e (jtype_induction e)
  | JTSet e => P_set e (jtype_induction e)
  | JTDict k v => P_dict k v (jtype_induction k) (jtype_induction v)
  | JTStruct jfs =>
      P_struct jfs
        ((fix fields_ok (l : list jfield)
            : Forall (fun f => match f with JField _ ty _ => P ty end) l :=
            match l with
            | [] => List.Forall_nil _
            | f :: l' =>
                List.Forall_cons _ f l'
                  (match f return match f with JField _ ty _ => P ty end with
                   | JField _ ty _ => jtype_induction ty
                   end)
                  (fields_ok l')
            end) jfs)
  end.
End jtype_induction.

Lemma singletons_no_container :
  __singletons__ !! "is.hail.expr.TArray" = None /\
  __singletons__ !! "is.hail.expr.TSet" = None /\
  __singletons__ !! "is.hail.expr.TDict" = None /\
  __singletons__ !! "is.hail.expr.TStruct" = None.
Proof. repeat split; vm_compute; reflexivity. Qed.

Lemma from_java_TArray (e : jtype) (w : world) :
  _from_java (JTArray e) w =
  (let* t := _from_java e in ret (TArray (JTArray e) t)) w.
Proof.
  destruct singletons_no_container as (H & _).
  cbn [_from_java getCanonicalName]. rewrite H. reflexivity.
Qed.

Lemma from_java_TSet (e : jtype) (w : world) :
  _from_java (JTSet e) w =
  (let* t := _from_java e in ret (TSet (JTSet e) t)) w.
Proof.
  destruct singletons_no_container as (_ & H & _).
  cbn [_from_java getCanonicalName]. rewrite H. reflexivity.
Qed.

Lemma from_java_TDict (k v : jtype) (w : world) :
  _from_java (JTDict k v) w =
  (let* kt := _from_java k in
   let* vt := _from_java v in
   ret (TDict (JTDict k v) kt vt)) w.
Proof.
  destruct singletons_no_container as (_ & _ & H & _).
  cbn [_from_java getCanonicalName]. rewrite H. reflexivity.
Qed.

Lemma from_java_TStruct (jfs : list jfield) (w : world) :
  _from_java (JTStruct jfs) w =
  (let* ju := Env_jutils in
   let* jfields := jinvoke (OnPath ju) "iterableToArrayList"
                           [jtype_fields jfs] (Ok jfs) in
   let* fs := mapM field_from_java jfields in
   ret (TStruct (JTStruct jfs) fs)) w.
Proof.
  destruct singletons_no_container as (_ & _ & _ & H).
  cbn [_from_java getCanonicalName]. rewrite H. reflexivity.
Qed.

Lemma from_java_JObject (n : string) (w : world) :
  _from_java (JObject n) w =
  (match __singletons__ !! n with
   | Some cls => let* i := Singleton_call cls in ret (obj i)
   | None =>
       if String.eqb n "is.hail.expr.TArray" then raise Py4JError
       else if String.eqb n "is.hail.expr.TSet" then raise Py4JError
       else if String.eqb n "is.hail.expr.TDict" then raise Py4JError
       else if String.eqb n "is.hail.expr.TStruct" then raise Py4JError
       else raise (unknown_type_class n)
   end) w.
Proof.
  cbn [_from_java getCanonicalName]. reflexivity.
Qed.

Lemma mirror_struct (jfs : list jfield) :
  mirror (JTStruct jfs) = option_map (TStruct (JTStruct jfs)) (mirror_fields jfs).
Proof. reflexivity. Qed.

Lemma Env_jutils_serving (w : world) :
  serving w -> exists u w', Env_jutils w = (Ok u, w') /\ serving w'.
Proof.
  intros [Hr Hs].
  pose proof (succeeds_Env_jutils w Hr) as Hok.
  destruct (Env_jutils_run w) as [_ Hf].
  destruct (Env_jutils w) as [[u|e] w'] eqn:E; [|discriminate].
  exists u, w'. split; [reflexivity|]. split.
  - eapply frame_ready; eassumption.
  - intros c i Hc. apply Hs. destruct Hf as (_ & _ & <- & _). exact Hc.
Qed.

Lemma Singleton_call_serving (c : singleton_class) (w : world) :
  serving w ->
  exists i w', Singleton_call c w = (Ok i, w') /\
               obj i = instance_of c /\ serving w'.
Proof.
  intros [Hr Hs]. unfold Singleton_call, new_instance.
  destruct (_instances w !! c) as [i|] eqn:Hc.
  - exists i, w. split; [reflexivity|]. split; [exact (Hs c i Hc)|]. split; assumption.
  - assert (Hr' : hail_ready (bump_oid w)) by exact Hr.
    pose proof (succeeds_Env_hail _ Hr') as Hok.
    destruct (Env_hail_run (bump_oid w)) as [_ Hf].
    destruct (Env_hail (bump_oid w)) as [[h|e] w1]; [|discriminate].
    simpl in Hf. eexists _, _. split; [reflexivity|]. split; [reflexivity|].
    split.
    + apply (frame_ready _ _ Hf) in Hr'. exact Hr'.
    + intros c' i Hc'. simpl in Hc'.
      destruct (decide (c = c')) as [<-|Hne].
      * rewrite lookup_insert_eq in Hc'. injection Hc' as <-. reflexivity.
      * rewrite lookup_insert_ne in Hc' by exact Hne.
        destruct Hf as (_ & _ & Hi & _). rewrite Hi in Hc'.
        exact (Hs c' i Hc').
Qed.

Lemma from_java_spec (jt : jtype) :
  forall w, serving w ->
    match mirror jt with
    | Some t => exists w', _from_java jt w = (Ok t, w') /\ serving w'
    | None =>
        well_formed jt = true ->
        exists n w', _from_java jt w = (Raise (unknown_type_class n), w')
    end.
Proof.
  induction jt as [n|e IH|e IH|k v IHk IHv|jfs IH] using jtype_induction;
    intros w Hw.
  - rewrite from_java_JObject. simpl.
    destruct (__singletons__ !! n) as [c|] eqn:Hn; simpl.
    + destruct (Singleton_call_serving c w Hw)
        as (i & w' & Hrun & Hobj & Hw').
      exists w'. unfold bind. rewrite Hrun. unfold ret. rewrite Hobj.
      split; [reflexivity | exact Hw'].
    + intros Hwf. apply negb_true_iff in Hwf.
      apply orb_false_iff in Hwf as [Hwf H4].
      apply orb_false_iff in Hwf as [Hwf H3].
      apply orb_false_iff in Hwf as [H1 H2].
      rewrite H1, H2, H3, H4. eexists _, _. reflexivity.
  - rewrite from_java_TArray. simpl. unfold bind.
    specialize (IH w Hw).
    destruct (mirror e) as [t|]; simpl.
    + destruct IH as (w' & -> & Hw'). exists w'. split; [reflexivity|exact Hw'].
    + intros Hwf. destruct (IH Hwf) as (n & w' & ->). eexists _, _. reflexivity.
  - rewrite from_java_TSet. simpl. unfold bind.
    specialize (IH w Hw).
    destruct (mirror e) as [t|]; simpl.
    + destruct IH as (w' & -> & Hw'). exists w'. split; [reflexivity|exact Hw'].
    + intros Hwf. destruct (IH Hwf) as (n & w' & ->). eexists _, _. reflexivity.
  - rewrite from_java_TDict. simpl. unfold bind.
    specialize (IHk w Hw).
    destruct (mirror k) as [kt|]; simpl.
    + destruct IHk as (w1 & -> & Hw1). specialize (IHv w1 Hw1).
      destruct (mirror v) as [vt|]; simpl.
      * destruct IHv as (w2 & -> & Hw2). exists w2. split; [reflexivity|exact Hw2].
      * intros Hwf. apply andb_true_iff in Hwf as [_ Hwf].
        destruct (IHv Hwf) as (n & w' & ->). eexists _, _. reflexivity.
    + intros Hwf. apply andb_true_iff in Hwf as [Hwf _].
      destruct (IHk Hwf) as (n & w' & ->). eexists _, _. reflexivity.
  - rewrite from_java_TStruct, mirror_struct.
    destruct (Env_jutils_serving w Hw) as (ju & w1 & Hju & Hw1).
    assert (Hfields : forall w, serving w ->
              match mirror_fields jfs with
              | Some fs => exists w', mapM field_from_java jfs w = (Ok fs, w') /\ serving w'
              | None =>
                  forallb (fun f => match f with JField _ ty _ => well_formed ty end) jfs = true ->
                  exists n w', mapM field_from_java jfs w = (Raise (unknown_type_class n), w')
              end).
    { clear w Hw w1 Hw1 ju Hju.
      induction IH as [|[n ty a] l Hty Hl IHl]; intros w Hw; simpl.
      - exists w. split; [reflexivity|exact Hw].
      - unfold bind. specialize (Hty w Hw).
        destruct (mirror ty) as [t|]; simpl.
        + destruct Hty as (w1 & -> & Hw1). simpl. specialize (IHl w1 Hw1).
          destruct (mirror_fields l) as [fs|]; simpl.
          * destruct IHl as (w2 & -> & Hw2). exists w2. split; [reflexivity|exact Hw2].
          * intros Hwf. apply andb_true_iff in Hwf as [_ Hwf].
            destruct (IHl Hwf) as (n' & w' & ->). eexists _, _. reflexivity.
        + intros Hwf. apply andb_true_iff in Hwf as [Hwf _].
          destruct (Hty Hwf) as (n' & w' & ->). eexists _, _. reflexivity. }
    specialize (Hfields
                  (log_call (mkCall (OnPath ju) "iterableToArrayList"
                                    [jtype_fields jfs]) w1) Hw1).
    destruct (mirror_fields jfs) as [fs|]; simpl.
    + destruct Hfields as (w2 & E & Hw2). unfold bind, jinvoke.
      rewrite Hju, E. exists w2. split; [reflexivity|exact Hw2].
    + intros Hwf. destruct (Hfields Hwf) as (n & w' & E).
      unfold bind, jinvoke. rewrite Hju, E. eexists _, _. reflexivity.
Qed.

Lemma serving_fresh_world : serving fresh_world.
Proof.
  split; [eexists; reflexivity|].
  intros c i H. simpl in H. rewrite lookup_empty in H. discriminate.
Qed.

Lemma from_java_unknown (jt : jtype) (w : world) :
  known_class_name (getCanonicalName jt) = false ->
  fst (_from_java jt w) = Raise (unknown_type_class (getCanonicalName jt)).
Proof.
  unfold known_class_name. intros H.
  apply orb_false_iff in H as [H H4]. apply orb_false_iff in H as [H H3].
  apply orb_false_iff in H as [H H2]. apply orb_false_iff in H as [H0 H1].
  destruct jt as [n| | | |]; try discriminate.
  rewrite from_java_JObject. simpl in *.
  destruct (__singletons__ !! n) as [c|].
  - rewrite bool_decide_true in H0 by eauto. discriminate.
  - rewrite H1, H2, H3, H4. reflexivity.
Qed.

(** C5 as the claim states it fails: an array type object whose element
    type is of a class outside the fixed set has the class name
    [is.hail.expr.TArray], and [Type._from_java] raises on it. *)
Lemma C5_counterexample :
  ~ (forall (jt : jtype) (w : world),
       serving w -> well_formed jt = true ->
       known_class_name (getCanonicalName jt) = true ->
       is_ok (fst (_from_java jt w)) = true).
Proof.
  intros H.
  specialize (H (JTArray (JObject "is.hail.expr.TAggregable")) fresh_world
                serving_fresh_world eq_refl eq_refl).
  vm_compute in H. discriminate H.
Qed.

(** C5, amended: with a Hail context, [Type._from_java] returns the
    mirror of a type object: the instance of the class registered for its
    class name, holding the mirrors of its components, whenever the class
    name of the object and of every component, at every level, is one of
    the sixteen.  It raises [TypeError] naming the class when the class
    name of the object is not one of the sixteen, and raises [TypeError]
    as well when that of some component is not. *)
Theorem C5_from_java (jt : jtype) (w : world) :
  serving w ->
  (forall t, mirror jt = Some t -> exists w', _from_java jt w = (Ok t, w')) /\
  (known_class_name (getCanonicalName jt) = false ->
   fst (_from_java jt w) = Raise (unknown_type_class (getCanonicalName jt))) /\
  (mirror jt = None -> well_formed jt = true ->
   exists n, fst (_from_java jt w) = Raise (unknown_type_class n)).
Proof.
  intros Hw. pose proof (from_java_spec jt w Hw) as H.
  split; [|split].
  - intros t Ht. rewrite Ht in H. destruct H as (w' & H & _). eauto.
  - apply from_java_unknown.
  - intros Hn Hwf. rewrite Hn in H.
    destruct (H Hwf) as (n & w' & E). exists n. rewrite E. reflexivity.
Qed.

(** A dict type from strings to arrays of variants is mirrored; a class
    name outside the set raises. *)
Lemma C5_from_java_witness :
  let jt := JTDict (JObject "is.hail.expr.TString$")
                   (JTArray (JObject "is.hail.expr.TVariant$")) in
  serving fresh_world /\
  (exists w', _from_java jt fresh_world =
              (Ok (TDict jt TString
                         (TArray (JTArray (JObject "is.hail.expr.TVariant$"))
                                 TVariant)), w')) /\
  fst (_from_java (JObject "is.hail.expr.TAggregable") fresh_world) =
    Raise (TypeError "unknown type class: 'is.hail.expr.TAggregable'").
Proof.
  intros jt. split; [exact serving_fresh_world|]. split.
  - apply (proj1 (C5_from_java jt fresh_world serving_fresh_world)).
    vm_compute. reflexivity.
  - apply (proj1 (proj2 (C5_from_java (JObject "is.hail.expr.TAggregable")
                           fresh_world serving_fresh_world))).
    vm_compute. reflexivity.
Defined.

(** ** Keys compare as values *)

Section value_induction.
Variable P : value -> Prop.
Hypothesis P_None : P VNone.
Hypothesis P_Int : forall z, P (VInt z).
Hypothesis P_Long : forall z, P (VLong z).
Hypothesis P_Float : forall f, P (VFloat f).
Hypothesis P_Bool : forall b, P (VBool b).
Hypothesis P_Str : forall s, P (VStr s).
Hypothesis P_Unicode : forall s, P (VUnicode s).
Hypothesis P_List : forall l, Forall P l -> P (VList l).
Hypothesis P_Set : forall l, Forall P l -> P (VSet l).
Hypothesis P_Dict :
  forall d, Forall (fun kv => P (fst kv) /\ P (snd kv)) d -> P (VDict d).
Hypothesis P_Struct : forall a, Forall (fun ny => P (snd ny)) a -> P (VStruct a).
Hypothesis P_Rep : forall c j, P j -> P (VRep c j).
Hypothesis P_ISeq : forall l, Forall P l -> P (JISeq l).
Hypothesis P_JSet : forall l, Forall P l -> P (JSet l).
Hypothesis P_Map :
  forall d, Forall (fun kv => P (fst kv) /\ P (snd kv)) d -> P (JMap d).
Hypothesis P_Tuple2 : forall a b, P a -> P b -> P (JTuple2 a b).
Hypothesis P_Row : forall l, Forall P l -> P (JRow l).
Hypothesis P_Some : forall x, P x -> P (JSome x).
Hypothesis P_Apply : forall s l, Forall P l -> P (JApply s l).
Hypothesis P_Obj : forall i, P (JObj i).
Hypothesis P_Path : forall s, P (JPath s).

Fixpoint value_induction (v : value) : P v :=
  let all :=
    fix all (l : list value) : Forall P l :=
      match l with
      | [] => List.Forall_nil _
      | x :: l' => List.Forall_cons _ x l' (value_induction x) (all l')
      end in
  let all_items :=
    fix all_items (d : list (value * value))
      : Forall (fun kv => P (fst kv) /\ P (snd kv)) d :=
      match d with
      | [] => List.Forall_nil _
      | kv :: d' =>
          List.Forall_cons _ kv d'
            (conj (value_induction (fst kv)) (value_induction (snd kv)))
            (all_items d')
      end in
  match v with
  | VNone => P_None
  | VInt z => P_Int z
  | VLong z => P_Long z
  | VFloat f => P_Float f
  | VBool b => P_Bool b
  | VStr s => P_Str s
  | VUnicode s => P_Unicode s
  | VList l => P_List l (all l)
  | VSet l => P_Set l (all l)
  | VDict d => P_Dict d (all_items d)
  | VStruct a =>
      P_Struct a
        ((fix all_attrs (a : list (string * value))
            : Forall (fun ny => P (snd ny)) a :=
            match a with
            | [] => List.Forall_nil _
            | ny :: a' =>
                List.Forall_cons _ ny a' (value_induction (snd ny)) (all_attrs a')
            end) a)
  | VRep c j => P_Rep c j (value_induction j)
  | JISeq l => P_ISeq l (all l)
  | JSet l => P_JSet l (all l)
  | JMap d => P_Map d (all_items d)
  | JTuple2 a b => P_Tuple2 a b (value_induction a) (value_induction b)
  | JRow l => P_Row l (all l)
  | JSome x => P_Some x (value_induction x)
  | JApply s l => P_Apply s l (all l)
  | JObj i => P_Obj i
  | JPath s => P_Path s
  end.
End value_induction.

Lemma list_eqb_eq {A} (eqb : A -> A -> bool) (l : list A) :
  Forall (fun x => forall y, eqb x y = true <-> x = y) l ->
  forall m, list_eqb eqb l m = true <-> l = m.
Proof.
  induction 1 as [|x l Hx Hl IH]; intros [|y m]; simpl;
    try (split; intros HH; (reflexivity || discriminate HH)).
  rewrite andb_true_iff, Hx, IH. split.
  - intros [-> ->]. reflexivity.
  - intros HH. injection HH as -> ->. split; reflexivity.
Qed.

Lemma spec_float_eqb_eq (f g : spec_float) :
  spec_float_eqb f g = true <-> f = g.
Proof.
  destruct f as [s|s| |s m e], g as [t|t| |t n e']; simpl;
    try (split; intros HH; (reflexivity || discriminate HH)).
  - rewrite Bool.eqb_true_iff. split; [intros ->; reflexivity|intros HH; injection HH; auto].
  - rewrite Bool.eqb_true_iff. split; [intros ->; reflexivity|intros HH; injection HH; auto].
  - rewrite !andb_true_iff, Bool.eqb_true_iff, Pos.eqb_eq, Z.eqb_eq. split.
    + intros [[-> ->] ->]. reflexivity.
    + intros HH. injection HH as -> -> ->. auto.
Qed.

Lemma pair_eqb_eq {A B} (ea : A -> A -> bool) (eb : B -> B -> bool)
    (p : A * B) :
  (forall y, ea (fst p) y = true <-> fst p = y) ->
  (forall y, eb (snd p) y = true <-> snd p = y) ->
  forall q, ea (fst p) (fst q) && eb (snd p) (snd q) = true <-> p = q.
Proof.
  intros Ha Hb q. destruct p as [a b], q as [a' b']. simpl in *.
  rewrite andb_true_iff, Ha, Hb. split.
  - intros [-> ->]. reflexivity.
  - intros HH. injection HH as -> ->. auto.
Qed.

Ltac other_constructor :=
  simpl; split; intros HH; discriminate HH.

Ltac same_list H :=
  simpl; rewrite (list_eqb_eq _ _ H); split;
  [intros ->; reflexivity | intros HH; injection HH; auto].

Lemma value_eqb_eq (a : value) : forall b, value_eqb a b = true <-> a = b.
Proof.
  induction a as [ |z|z|f|x|s|s|l IH|l IH|d IH|at_ IH|c j IH|l IH|l IH|d IH
                 |a1 a2 IH1 IH2|l IH|x IH|s l IH|i|s] using value_induction;
    intros b; destruct b; try other_constructor.
  - split; reflexivity.
  - simpl. rewrite Z.eqb_eq. split; [intros ->; reflexivity|intros HH; injection HH; auto].
  - simpl. rewrite Z.eqb_eq. split; [intros ->; reflexivity|intros HH; injection HH; auto].
  - simpl. rewrite spec_float_eqb_eq.
    split; [intros ->; reflexivity|intros HH; injection HH; auto].
  - simpl. rewrite Bool.eqb_true_iff.
    split; [intros ->; reflexivity|intros HH; injection HH; auto].
  - simpl. rewrite String.eqb_eq.
    split; [intros ->; reflexivity|intros HH; injection HH; auto].
  - simpl. rewrite String.eqb_eq.
    split; [intros ->; reflexivity|intros HH; injection HH; auto].
  - same_list IH.
  - same_list IH.
  - simpl. rewrite (list_eqb_eq _ d).
    + split; [intros ->; reflexivity|intros HH; injection HH; auto].
    + eapply Forall_impl; [exact IH|]. intros p [Hk Hv]. simpl.
      apply (pair_eqb_eq value_eqb value_eqb p Hk Hv).
  - simpl. rewrite (list_eqb_eq _ at_).
    + split; [intros ->; reflexivity|intros HH; injection HH; auto].
    + eapply Forall_impl; [exact IH|]. intros p Hv. simpl.
      apply (pair_eqb_eq String.eqb value_eqb p); [|exact Hv].
      intros y. apply String.eqb_eq.
  - simpl. unfold repclass_eqb. rewrite andb_true_iff, bool_decide_eq_true, IH.
    split; [intros [-> ->]; reflexivity|intros HH; injection HH; auto].
  - same_list IH.
  - same_list IH.
  - simpl. rewrite (list_eqb_eq _ d).
    + split; [intros ->; reflexivity|intros HH; injection HH; auto].
    + eapply Forall_impl; [exact IH|]. intros p [Hk Hv]. simpl.
      apply (pair_eqb_eq value_eqb value_eqb p Hk Hv).
  - simpl. rewrite andb_true_iff, IH1, IH2.
    split; [intros [-> ->]; reflexivity|intros HH; injection HH; auto].
  - same_list IH.
  - simpl. rewrite IH.
    split; [intros ->; reflexivity|intros HH; injection HH; auto].
  - simpl. rewrite andb_true_iff, String.eqb_eq, (list_eqb_eq _ _ IH).
    split; [intros [-> ->]; reflexivity|intros HH; injection HH; auto].
  - simpl. rewrite Nat.eqb_eq.
    split; [intros ->; reflexivity|intros HH; injection HH; auto].
  - simpl. rewrite String.eqb_eq.
    split; [intros ->; reflexivity|intros HH; injection HH; auto].
Qed.

Lemma value_eqb_refl (a : value) : value_eqb a a = true.
Proof. apply value_eqb_eq. reflexivity. Qed.

(** ** Dicts and sets built from distinct keys *)

Section DistinctKeys.
Context {K V : Type} (eqb : K -> K -> bool).

Lemma dict_setitem_fresh (d : list (K * V)) (k : K) (v : V) :
  Forall (fun k' => eqb k' k = false) (map fst d) ->
  dict_setitem eqb d k v = (d ++ [(k, v)])%list.
Proof.
  induction d as [|[k' v'] d IH]; intros H; [reflexivity|].
  simpl in *. apply Forall_cons in H as [Hk Hd].
  rewrite Hk, (IH Hd). reflexivity.
Qed.

Lemma fold_setitem_distinct (l acc : list (K * V)) :
  distinctb eqb (map fst l) = true ->
  Forall (fun k' => existsb (eqb k') (map fst l) = false) (map fst acc) ->
  fold_left (fun d kv => dict_setitem eqb d (fst kv) (snd kv)) l acc
  = (acc ++ l)%list.
Proof.
  revert acc. induction l as [|[k v] l IH]; intros acc Hd Hacc.
  - simpl. rewrite app_nil_r. reflexivity.
  - simpl in *. apply andb_true_iff in Hd as [Hk Hd].
    apply negb_true_iff in Hk.
    rewrite dict_setitem_fresh.
    + rewrite IH; [rewrite <- app_assoc; reflexivity | exact Hd |].
      rewrite map_app. apply Forall_app. split.
      * eapply Forall_impl; [exact Hacc|]. intros k' Hk'. simpl in Hk'.
        apply orb_false_iff in Hk' as [_ Hk']. exact Hk'.
      * simpl. constructor; [exact Hk | constructor].
    + eapply Forall_impl; [exact Hacc|]. intros k' Hk'. simpl in Hk'.
      apply orb_false_iff in Hk' as [Hk' _]. exact Hk'.
Qed.

Lemma dict_of_items_distinct (l : list (K * V)) :
  distinctb eqb (map fst l) = true -> dict_of_items eqb l = l.
Proof.
  intros H. unfold dict_of_items.
  rewrite (fold_setitem_distinct l [] H); [reflexivity | constructor].
Qed.
End DistinctKeys.

Lemma set_of_list_distinct (l : list value) :
  distinctb value_eqb l = true -> set_of_list l = l.
Proof.
  induction l as [|x l IH]; intros H; [reflexivity|].
  simpl in *. apply andb_true_iff in H as [Hx Hl].
  apply negb_true_iff in Hx. rewrite (IH Hl), Hx. reflexivity.
Qed.

(** ** There and back *)

Lemma yields_ret {A} (a : A) (R : A -> Prop) : R a -> yields (ret a) R.
Proof. intros H w _. exists a. split; [reflexivity | exact H]. Qed.

Lemma yields_lift {A} (a : A) (R : A -> Prop) : R a -> yields (lift (Ok a)) R.
Proof. intros H w _. exists a. split; [reflexivity | exact H]. Qed.

Lemma yields_jinvoke {A} (r : jreceiver) (m : string) (args : list value)
    (a : A) (R : A -> Prop) :
  R a -> yields (jinvoke r m args (Ok a)) R.
Proof. intros H w _. exists a. split; [reflexivity | exact H]. Qed.

Lemma yields_jinvoke_result {A} (r : jreceiver) (m : string)
    (args : list value) (answer : result A) (a : A) :
  answer = Ok a -> yields (jinvoke r m args answer) (eq a).
Proof. intros -> w _. exists a. split; reflexivity. Qed.

Lemma yields_bind {A B} (m : M A) (k : A -> M B) (R : A -> Prop)
    (Q : B -> Prop) :
  steady m -> yields m R -> (forall a, R a -> yields (k a) Q) ->
  yields (bind m k) Q.
Proof.
  intros Hs Hm Hk w Hw. unfold bind.
  destruct (Hm w Hw) as (a & Ha & HR). destruct (Hs w) as [Hf _].
  destruct (m w) as [r w1]. simpl in *. subst r.
  apply (Hk a HR). eapply frame_ready; eassumption.
Qed.

Lemma yields_Env_jutils : yields Env_jutils (fun _ => True).
Proof.
  intros w Hw. pose proof (succeeds_Env_jutils w Hw) as H.
  destruct (fst (Env_jutils w)) as [u|]; [|discriminate]. exists u. auto.
Qed.

Lemma yields_Env_hail : yields Env_hail (fun _ => True).
Proof.
  intros w Hw. pose proof (succeeds_Env_hail w Hw) as H.
  destruct (fst (Env_hail w)) as [u|]; [|discriminate]. exists u. auto.
Qed.

Lemma yields_mapM {A B} (f : A -> M B) (R : A -> B -> Prop) (l : list A) :
  (forall x, steady (f x)) ->
  Forall (fun x => yields (f x) (R x)) l ->
  yields (mapM f l) (Forall2 R l).
Proof.
  intros Hs. induction 1 as [|x l Hx Hl IH]; simpl.
  - apply yields_ret. constructor.
  - eapply yields_bind; [apply Hs | exact Hx |]. intros y Hy.
    eapply yields_bind; [|exact IH|].
    + apply steady_mapM. apply Forall_all. exact Hs.
    + intros ys Hys. apply yields_ret. constructor; assumption.
Qed.

(** Converting back, element by element, what was converted element by
    element gives the list one started from. *)
Lemma yields_mapM_back {A B} (g : B -> M A) (l : list A) (js : list B) :
  (forall j, steady (g j)) ->
  Forall2 (fun x j => yields (g j) (eq x)) l js ->
  yields (mapM g js) (eq l).
Proof.
  intros Hs. induction 1 as [|x j l js Hx Hl IH]; simpl.
  - apply yields_ret. reflexivity.
  - eapply yields_bind; [apply Hs | exact Hx |]. intros y <-.
    eapply yields_bind; [|exact IH|].
    + apply steady_mapM. apply Forall_all. exact Hs.
    + intros ys <-. apply yields_ret. reflexivity.
Qed.

Lemma yields_convert_number (maker : string) (v : value) :
  is_None v || is_number v = true -> yields (convert_number maker v) (eq v).
Proof.
  intros Hv. unfold convert_number.
  destruct (truthy v) eqn:Ht; [|apply yields_ret; reflexivity].
  eapply yields_bind; [apply steady_Env_jutils | apply yields_Env_jutils |].
  intros ju _. unfold make_number.
  destruct (is_number v) eqn:Hn; [apply yields_jinvoke; reflexivity|].
  rewrite orb_false_r in Hv. rewrite (is_None_falsy v Hv) in Ht. discriminate.
Qed.

Lemma converts_back_yields (t : Type_) (j v : value) :
  converts_back t j v <-> yields (_convert_to_py t j) (eq v).
Proof.
  split.
  - intros H w Hw. exists v. split; [exact (H w Hw) | reflexivity].
  - intros H w Hw. destruct (H w Hw) as (a & Ha & <-). exact Ha.
Qed.

Lemma yields_weaken {A} (m : M A) (R Q : A -> Prop) :
  yields m R -> (forall a, R a -> Q a) -> yields m Q.
Proof.
  intros Hm HRQ w Hw. destruct (Hm w Hw) as (a & Ha & HR).
  exists a. split; [exact Ha | exact (HRQ a HR)].
Qed.

Lemma roundtrip_number (maker : string) (t : Type_) (v : value) :
  (forall x w, _convert_to_py t x w = (Ok x, w)) ->
  is_None v || is_number v = true ->
  yields (convert_number maker v) (fun j => converts_back t j v).
Proof.
  intros Hpy Hv. eapply yields_weaken; [apply yields_convert_number; exact Hv|].
  intros j <- w _. rewrite Hpy. reflexivity.
Qed.

Lemma roundtrip_rep (c : repclass) (t : Type_) (v : value) :
  (forall x, _convert_to_py t x = convert_rep_to_py c x) ->
  is_None v = true \/ (exists j, v = VRep c j /\ truthy j = true) ->
  yields (convert_rep v) (fun j => converts_back t j v).
Proof.
  intros Hpy [Hv|(j & -> & Hj)].
  - destruct v; try discriminate. apply yields_ret.
    intros w _. rewrite Hpy. reflexivity.
  - apply yields_lift. intros w _. rewrite Hpy.
    unfold convert_rep_to_py. rewrite Hj. reflexivity.
Qed.

Lemma canonical_rep (c : repclass) (v : value) :
  is_None v ||
  (existsb (isinstance v) [CRep c] &&
   match v with
   | VRep _ j => truthy j
   | _ => false
   end) = true ->
  is_None v = true \/ (exists j, v = VRep c j /\ truthy j = true).
Proof.
  destruct v; try discriminate; [left; reflexivity|].
  intros H. right. simpl in H. apply andb_true_iff in H as [Hc Hj].
  rewrite orb_false_r in Hc. unfold isinstance, issubclass in Hc. simpl in Hc.
  apply bool_decide_eq_true in Hc. injection Hc as ->. eauto.
Qed.

Lemma roundtrip_leaf (c : singleton_class) (v : value) :
  has_TFloat (instance_of c) = false ->
  canonical (instance_of c) v = true ->
  yields (_convert_to_j (instance_of c) v)
         (fun j => converts_back (instance_of c) j v).
Proof.
  intros Hf Hv.
  destruct c; try discriminate Hf; simpl in Hv |- *;
    try (apply roundtrip_number; [reflexivity|];
         destruct v; try discriminate; reflexivity);
    try (apply yields_ret; intros w _; reflexivity);
    (eapply roundtrip_rep; [reflexivity | apply canonical_rep; exact Hv]).
Qed.

Lemma back_elements (e : Type_) (l js : list value) :
  Forall2 (fun x j => converts_back e j x) l js ->
  yields (mapM (_convert_to_py e) js) (eq l).
Proof.
  intros H. apply yields_mapM_back; [apply steady_convert_to_py|].
  eapply Forall2_impl; [exact H|].
  intros x j Hx. apply converts_back_yields. exact Hx.
Qed.

Lemma there_elements (e : Type_) (l : list value) :
  (forall v, canonical e v = true ->
             yields (_convert_to_j e v) (fun j => converts_back e j v)) ->
  forallb (canonical e) l = true ->
  yields (mapM (_convert_to_j e) l)
         (Forall2 (fun x j => converts_back e j x) l).
Proof.
  intros IH Hl. apply yields_mapM; [apply steady_convert_to_j|].
  rewrite forallb_forall in Hl. apply List.Forall_forall.
  intros x Hx. apply IH. apply Hl. exact Hx.
Qed.

Lemma roundtrip_array (jt : jtype) (e : Type_) :
  (forall v, canonical e v = true ->
             yields (_convert_to_j e v) (fun j => converts_back e j v)) ->
  forall v, canonical (TArray jt e) v = true ->
    yields (_convert_to_j (TArray jt e) v)
           (fun j => converts_back (TArray jt e) j v).
Proof.
  intros IH v Hv. destruct v; try discriminate Hv.
  - apply yields_ret. intros w _. reflexivity.
  - simpl in Hv. simpl.
    eapply yields_bind; [apply steady_Env_jutils | apply yields_Env_jutils |].
    intros ju _.
    eapply yields_bind with (R := eq elts);
      [apply steady_lift | apply yields_lift; reflexivity |].
    intros ? <-.
    eapply yields_bind;
      [apply steady_mapM; apply Forall_all; apply steady_convert_to_j
      | apply (there_elements e elts IH Hv) |].
    intros js Hjs. apply yields_jinvoke.
    apply converts_back_yields. simpl.
    eapply yields_bind; [apply steady_Env_jutils | apply yields_Env_jutils |].
    intros ju' _.
    eapply yields_bind with (R := eq js);
      [apply steady_jinvoke | apply yields_jinvoke; reflexivity |].
    intros ? <-.
    eapply yields_bind;
      [apply steady_mapM; apply Forall_all; apply steady_convert_to_py
      | apply (back_elements e elts js Hjs) |].
    intros ? <-. apply yields_ret. reflexivity.
Qed.

Lemma roundtrip_set (jt : jtype) (e : Type_) :
  (forall v, canonical e v = true ->
             yields (_convert_to_j e v) (fun j => converts_back e j v)) ->
  forall v, canonical (TSet jt e) v = true ->
    yields (_convert_to_j (TSet jt e) v)
           (fun j => converts_back (TSet jt e) j v).
Proof.
  intros IH v Hv. destruct v; try discriminate Hv.
  - apply yields_ret. intros w _. reflexivity.
  - simpl in Hv. apply andb_true_iff in Hv as [Hv Hd]. simpl.
    eapply yields_bind with (R := eq elts);
      [apply steady_lift | apply yields_lift; reflexivity |].
    intros ? <-.
    eapply yields_bind;
      [apply steady_mapM; apply Forall_all; apply steady_convert_to_j
      | apply (there_elements e elts IH Hv) |].
    intros js Hjs.
    eapply yields_bind; [apply steady_Env_jutils | apply yields_Env_jutils |].
    intros ju _. apply yields_jinvoke.
    apply converts_back_yields. simpl.
    eapply yields_bind; [apply steady_Env_jutils | apply yields_Env_jutils |].
    intros ju' _.
    eapply yields_bind with (R := eq js);
      [apply steady_jinvoke | apply yields_jinvoke; reflexivity |].
    intros ? <-.
    eapply yields_bind;
      [apply steady_mapM; apply Forall_all; apply steady_convert_to_py
      | apply (back_elements e elts js Hjs) |].
    intros ? <-. apply yields_ret.
    rewrite (set_of_list_distinct elts Hd). reflexivity.
Qed.

Lemma hail_ready_fresh_world : hail_ready fresh_world.
Proof. eexists. reflexivity. Qed.

Lemma converts_back_functional (t : Type_) (j v v' : value) :
  converts_back t j v -> converts_back t j v' -> v = v'.
Proof.
  intros H H'.
  specialize (H fresh_world hail_ready_fresh_world).
  specialize (H' fresh_world hail_ready_fresh_world).
  rewrite H in H'. injection H' as ->. reflexivity.
Qed.

Lemma Forall2_In_right {A B} (R : A -> B -> Prop) (l : list A) (m : list B) (y : B) :
  Forall2 R l m -> In y m -> exists x, In x l /\ R x y.
Proof.
  induction 1 as [|x y' l m Hxy Hlm IH]; intros Hy; [destruct Hy|].
  destruct Hy as [<-|Hy].
  - exists x. split; [left; reflexivity | exact Hxy].
  - destruct (IH Hy) as (x' & Hx' & HR). exists x'. split; [right|]; assumption.
Qed.

(** Distinct keys convert to distinct keys, because each converted key
    converts back to the one it came from. *)
Lemma distinct_keys_there (t : Type_) (ks js : list value) :
  Forall2 (fun k j => converts_back t j k) ks js ->
  distinctb value_eqb ks = true -> distinctb value_eqb js = true.
Proof.
  induction 1 as [|k j ks js Hkj Hrest IH]; intros Hd; [reflexivity|].
  simpl in *. apply andb_true_iff in Hd as [Hk Hd].
  apply andb_true_iff. split; [|exact (IH Hd)].
  apply negb_true_iff in Hk. apply negb_true_iff.
  destruct (existsb (value_eqb j) js) eqn:E; [|reflexivity].
  apply existsb_exists in E as (j' & Hj' & Heq).
  apply value_eqb_eq in Heq. subst j'.
  destruct (Forall2_In_right _ _ _ _ Hrest Hj') as (k' & Hk' & Hback).
  rewrite (converts_back_functional t j k k' Hkj Hback) in Hk.
  assert (existsb (value_eqb k') ks = true) as Hcontra.
  { apply existsb_exists. exists k'. split; [exact Hk' | apply value_eqb_refl]. }
  rewrite Hcontra in Hk. discriminate.
Qed.

Lemma roundtrip_dict (jt : jtype) (kt xt : Type_) :
  (forall v, canonical kt v = true ->
             yields (_convert_to_j kt v) (fun j => converts_back kt j v)) ->
  (forall v, canonical xt v = true ->
             yields (_convert_to_j xt v) (fun j => converts_back xt j v)) ->
  forall v, canonical (TDict jt kt xt) v = true ->
    yields (_convert_to_j (TDict jt kt xt) v)
           (fun j => converts_back (TDict jt kt xt) j v).
Proof.
  intros IHk IHx v Hv. destruct v; try discriminate Hv.
  - apply yields_ret. intros w _. reflexivity.
  - simpl in Hv. apply andb_true_iff in Hv as [Hv Hd]. simpl.
    eapply yields_bind; [apply steady_Env_jutils | apply yields_Env_jutils |].
    intros ju _.
    eapply yields_bind with (R := eq items);
      [apply steady_lift | apply yields_lift; reflexivity |].
    intros ? <-.
    set (R := fun (kv jkv : value * value) =>
                converts_back kt (fst jkv) (fst kv) /\
                converts_back xt (snd jkv) (snd kv)).
    eapply yields_bind with (R := Forall2 R items).
    { apply steady_mapM. apply Forall_all. intros kv.
      repeat steady_step; apply steady_convert_to_j. }
    { apply yields_mapM.
      - intros kv. repeat steady_step; apply steady_convert_to_j.
      - rewrite forallb_forall in Hv. apply List.Forall_forall.
        intros kv Hin. specialize (Hv kv Hin).
        apply andb_true_iff in Hv as [Hk Hx].
        eapply yields_bind; [apply steady_convert_to_j | apply (IHx _ Hx) |].
        intros jv Hjv.
        eapply yields_bind; [apply steady_convert_to_j | apply (IHk _ Hk) |].
        intros jk Hjk. apply yields_ret. split; assumption. }
    intros js Hjs.
    assert (Hkeys : Forall2 (fun k j => converts_back kt j k)
                            (map fst items) (map fst js)).
    { apply Forall2_fmap. eapply Forall2_impl; [exact Hjs|].
      intros kv jkv [Hk _]. exact Hk. }
    rewrite (dict_of_items_distinct value_eqb js
               (distinct_keys_there kt _ _ Hkeys Hd)).
    apply yields_jinvoke.
    apply converts_back_yields. simpl.
    eapply yields_bind; [apply steady_Env_jutils | apply yields_Env_jutils |].
    intros ju' _.
    eapply yields_bind
      with (R := eq (map (fun kv => JTuple2 (fst kv) (snd kv)) js));
      [apply steady_jinvoke | apply yields_jinvoke; reflexivity |].
    intros ? <-.
    eapply yields_bind with (R := eq items).
    { apply steady_mapM. apply Forall_all. intros y.
      repeat steady_step; apply steady_convert_to_py. }
    { apply yields_mapM_back.
      - intros y. repeat steady_step; apply steady_convert_to_py.
      - apply Forall2_fmap_r. eapply Forall2_impl; [exact Hjs|].
        intros [k x] [jk jx] [Hk Hx]. simpl in *.
        eapply yields_bind with (R := eq jx);
          [apply steady_jinvoke | apply yields_jinvoke; reflexivity |].
        intros ? <-.
        eapply yields_bind;
          [apply steady_convert_to_py
          | apply converts_back_yields; exact Hx |].
        intros ? <-.
        eapply yields_bind with (R := eq jk);
          [apply steady_jinvoke | apply yields_jinvoke; reflexivity |].
        intros ? <-.
        eapply yields_bind;
          [apply steady_convert_to_py
          | apply converts_back_yields; exact Hk |].
        intros ? <-. apply yields_ret. reflexivity. }
    intros ? <-. apply yields_ret.
    rewrite (dict_of_items_distinct value_eqb items Hd). reflexivity.
Qed.

Lemma canonical_struct (jt : jtype) (fs : list Field) (attrs : list (string * value)) :
  canonical (TStruct jt fs) (VStruct attrs) =
  aligned fs attrs && distinctb String.eqb (map Field_name fs).
Proof. reflexivity. Qed.

Lemma str_dict_get_app_fresh {V} (pre d : list (string * V)) (n : string) :
  Forall (fun k => String.eqb k n = false) (map fst pre) ->
  str_dict_get (pre ++ d) n = str_dict_get d n.
Proof.
  induction pre as [|[k v] pre IH]; intros H; [reflexivity|].
  simpl in *. apply Forall_cons in H as [Hk Hpre].
  rewrite Hk. exact (IH Hpre).
Qed.

(** In a struct value aligned with the declared fields, under distinct
    names, looking a declared field up by name finds the value listed at
    its position. *)
Lemma aligned_lookup (fs : list Field) :
  forall (attrs pre : list (string * value)),
    aligned fs attrs = true ->
    distinctb String.eqb (map Field_name fs) = true ->
    Forall (fun k => existsb (String.eqb k) (map Field_name fs) = false)
           (map fst pre) ->
    Forall (fun f => exists y,
                str_dict_get (pre ++ attrs) (Field_name f) = Some y /\
                canonical (Field_typ f) y = true)
           fs /\
    map (fun f => (Field_name f,
                   default VNone (str_dict_get (pre ++ attrs) (Field_name f)))) fs
    = attrs.
Proof.
  induction fs as [|f fs IH]; intros [|[n y] attrs] pre Ha Hd Hpre;
    try discriminate Ha.
  - split; [constructor | reflexivity].
  - simpl in Ha, Hd.
    apply andb_true_iff in Ha as [Ha Hrest].
    apply andb_true_iff in Ha as [Hn Hy].
    apply String.eqb_eq in Hn. simpl in Hn.
    apply andb_true_iff in Hd as [Hfresh Hd]. apply negb_true_iff in Hfresh.
    assert (Hhere : str_dict_get (pre ++ (n, y) :: attrs) (Field_name f) = Some y).
    { rewrite str_dict_get_app_fresh.
      - simpl. rewrite Hn, String.eqb_refl. reflexivity.
      - eapply Forall_impl; [exact Hpre|]. intros k Hk. simpl in Hk.
        apply orb_false_iff in Hk as [Hk _]. exact Hk. }
    destruct (IH attrs (pre ++ [(n, y)])%list Hrest Hd) as [Hall Hmap].
    { rewrite map_app. apply Forall_app. split.
      - eapply Forall_impl; [exact Hpre|]. intros k Hk. simpl in Hk.
        apply orb_false_iff in Hk as [_ Hk]. exact Hk.
      - simpl. constructor; [|constructor]. rewrite <- Hn. exact Hfresh. }
    rewrite <- app_assoc in Hall, Hmap. simpl in Hall, Hmap.
    split.
    + constructor; [|exact Hall]. exists y. split; [exact Hhere | exact Hy].
    + simpl. rewrite Hhere, Hmap, Hn. reflexivity.
Qed.

Lemma Row_get_here (pre rest : list value) (j : value) :
  Row_get (JRow (pre ++ j :: rest)) (length pre) = Ok j.
Proof.
  unfold Row_get. rewrite nth_error_app2 by lia.
  rewrite Nat.sub_diag. reflexivity.
Qed.

Lemma struct_back (y_of : Field -> value) (fs : list Field) (js : list value) :
  Forall2 (fun f j => converts_back (Field_typ f) j (y_of f)) fs js ->
  forall pre row, row = (pre ++ js)%list ->
    yields (mapMi (fun i f =>
                     let* x := py_get_index (JRow row) i in
                     let* v := _convert_to_py (Field_typ f) x in
                     ret (Field_name f, v))
                  (length pre) fs)
           (eq (map (fun f => (Field_name f, y_of f)) fs)).
Proof.
  induction 1 as [|f j fs js Hfj Hrest IH]; intros pre row Hrow; simpl.
  - apply yields_ret. reflexivity.
  - eapply yields_bind with (R := eq (Field_name f, y_of f)).
    { repeat steady_step;
        try apply steady_py_get_index; apply steady_convert_to_py. }
    { eapply yields_bind with (R := eq j);
        [apply steady_jinvoke | |].
      - apply yields_jinvoke_result. subst row. apply Row_get_here.
      - intros ? <-.
        eapply yields_bind;
          [apply steady_convert_to_py | apply converts_back_yields; exact Hfj |].
        intros ? <-. apply yields_ret. reflexivity. }
    intros ? <-.
    eapply yields_bind with (R := eq (map (fun f => (Field_name f, y_of f)) fs)).
    { apply steady_mapMi. apply Forall_all. intros f' i.
      repeat steady_step;
        try apply steady_py_get_index; apply steady_convert_to_py. }
    { specialize (IH (pre ++ [j])%list row).
      rewrite length_app in IH. simpl in IH.
      rewrite Nat.add_1_r in IH. apply IH.
      rewrite <- app_assoc. exact Hrow. }
    intros ? <-. apply yields_ret. reflexivity.
Qed.

Lemma roundtrip_struct (jt : jtype) (fs : list Field) :
  Forall (fun f =>
            forall v, canonical (Field_typ f) v = true ->
              yields (_convert_to_j (Field_typ f) v)
                     (fun j => converts_back (Field_typ f) j v)) fs ->
  forall v, canonical (TStruct jt fs) v = true ->
    yields (_convert_to_j (TStruct jt fs) v)
           (fun j => converts_back (TStruct jt fs) j v).
Proof.
  intros IH v Hv. destruct v; try discriminate Hv.
  - apply yields_ret. intros w _. reflexivity.
  - rewrite canonical_struct in Hv. apply andb_true_iff in Hv as [Ha Hd].
    destruct (aligned_lookup fs attrs [] Ha Hd) as [Hall Hmap]; [constructor|].
    simpl in Hall, Hmap.
    set (y_of := fun f : Field =>
                   default VNone (str_dict_get attrs (Field_name f))) in *.
    cbn [_convert_to_j negb is_None].
    eapply yields_bind; [apply steady_Env_hail | apply yields_Env_hail |].
    intros h _.
    eapply yields_bind; [apply steady_Env_jutils | apply yields_Env_jutils |].
    intros ju _.
    eapply yields_bind
      with (R := Forall2 (fun f j => converts_back (Field_typ f) j (y_of f)) fs).
    { apply steady_mapM. apply Forall_all. intros f.
      repeat steady_step. apply steady_convert_to_j. }
    { apply yields_mapM.
      - intros f. repeat steady_step. apply steady_convert_to_j.
      - rewrite List.Forall_forall in IH, Hall. apply List.Forall_forall.
        intros f Hin.
        eapply yields_bind with (R := eq (y_of f));
          [apply steady_lift | apply yields_lift; reflexivity |].
        intros ? <-. apply (IH f Hin).
        destruct (Hall f Hin) as (y & Hy & Hc).
        unfold y_of. rewrite Hy. exact Hc. }
    intros js Hjs.
    eapply yields_bind with (R := eq (JISeq js));
      [apply steady_jinvoke | apply yields_jinvoke; reflexivity |].
    intros ? <-. apply yields_jinvoke.
    apply converts_back_yields. cbn [_convert_to_py truthy].
    eapply yields_bind with (R := eq attrs).
    { apply steady_mapMi. apply Forall_all. intros f i.
      repeat steady_step;
        try apply steady_py_get_index; apply steady_convert_to_py. }
    { pose proof (struct_back y_of fs js Hjs [] js eq_refl) as Hb.
      unfold y_of in Hb. rewrite Hmap in Hb. exact Hb. }
    intros ? <-. apply yields_ret.
    rewrite dict_of_items_distinct; [reflexivity|].
    rewrite <- Hmap, map_map. simpl. exact Hd.
Qed.

Lemma roundtrip_spec (t : Type_) :
  has_TFloat t = false ->
  forall v, canonical t v = true ->
    yields (_convert_to_j t v) (fun j => converts_back t j v).
Proof.
  induction t as [c|jt e IH|jt e IH|jt k x IHk IHx|jt fs IH]
    using Type_induction; intros Hf.
  - intros v. apply roundtrip_leaf. exact Hf.
  - apply roundtrip_array. apply IH. exact Hf.
  - apply roundtrip_set. apply IH. exact Hf.
  - simpl in Hf. apply orb_false_iff in Hf as [Hk Hx].
    apply roundtrip_dict; [apply IHk | apply IHx]; assumption.
  - apply roundtrip_struct. simpl in Hf.
    rewrite List.Forall_forall in IH. apply List.Forall_forall.
    intros f Hin. apply (IH f Hin).
    exact (existsb_false_elim _ _ Hf f Hin).
Qed.

(** A canonical value is an instance of the tag's class all the way
    down, so it passes [_typecheck]. *)
Lemma canonical_instance_deep (t : Type_) :
  forall v, canonical t v = true -> instance_deep t v = true.
Proof.
  induction t as [c|jt e IH|jt e IH|jt k x IHk IHx|jt fs IH]
    using Type_induction; intros v Hv.
  - destruct c; simpl in Hv |- *; try exact Hv;
      destruct (is_None v); try reflexivity; simpl in Hv |- *;
      apply andb_true_iff in Hv as [Hv _]; exact Hv.
  - destruct v; try discriminate Hv; [reflexivity|]. simpl in Hv |- *.
    rewrite forallb_forall in *. intros y Hy. apply IH. apply Hv. exact Hy.
  - destruct v; try discriminate Hv; [reflexivity|]. simpl in Hv |- *.
    apply andb_true_iff in Hv as [Hv _].
    rewrite forallb_forall in *. intros y Hy. apply IH. apply Hv. exact Hy.
  - destruct v; try discriminate Hv; [reflexivity|]. simpl in Hv |- *.
    apply andb_true_iff in Hv as [Hv _].
    rewrite forallb_forall in *. intros kv Hin. specialize (Hv kv Hin).
    apply andb_true_iff in Hv as [Hk Hx].
    rewrite (IHk _ Hk), (IHx _ Hx). reflexivity.
  - destruct v; try discriminate Hv; [reflexivity|].
    rewrite canonical_struct in Hv. apply andb_true_iff in Hv as [Ha Hd].
    destruct (aligned_lookup fs attrs [] Ha Hd) as [Hall _]; [constructor|].
    simpl in Hall |- *. rewrite List.Forall_forall in IH, Hall.
    apply forallb_forall. intros f Hin.
    destruct (Hall f Hin) as (y & Hy & Hc). rewrite Hy. apply (IH f Hin y Hc).
Qed.

(** C6 as the claim states it fails: with a Hail context, the float [1.5]
    passes [TFloat._typecheck], and there is no converting it there and
    back, for the way there raises. *)
Lemma C6_counterexample :
  ~ (forall (t : Type_) (v : value) (w : world),
       hail_ready w -> _typecheck t v = Ok tt ->
       exists j w1 w2,
         _convert_to_j t v w = (Ok j, w1) /\
         _convert_to_py t j w1 = (Ok v, w2)).
Proof.
  intros H.
  destruct (H TFloat (VFloat (S754_finite false 6755399441055744 (-52)))
              fresh_world hail_ready_fresh_world eq_refl)
    as (j & w1 & w2 & Hthere & _).
  discriminate Hthere.
Qed.

(** A second way the claim fails, by design as well: a struct value with
    a field the tag does not declare passes [TStruct._typecheck], and
    comes back without that field. *)
Lemma roundtrip_drops_undeclared_field :
  let t := TStruct (JTStruct []) [mkField "a" TString ∅] in
  let v := VStruct [("a", VStr "x"); ("b", VStr "y")] in
  _typecheck t v = Ok tt /\
  exists j w1,
    _convert_to_j t v fresh_world = (Ok j, w1) /\
    fst (_convert_to_py t j w1) = Ok (VStruct [("a", VStr "x")]).
Proof.
  intros t v. split; [reflexivity|].
  exists (JRow [VStr "x"]), (snd (_convert_to_j t v fresh_world)).
  split; vm_compute; reflexivity.
Qed.

(** C6, amended: for a tag with no [TFloat] among its components and a
    canonical value of it (which passes [_typecheck]), with a Hail context
    [_convert_to_j] returns a value that [_convert_to_py] turns back into
    the value one started from. *)
Theorem C6_roundtrip (t : Type_) (v : value) (w : world) :
  has_TFloat t = false ->
  canonical t v = true ->
  hail_ready w ->
  _typecheck t v = Ok tt /\
  exists j w1 w2,
    _convert_to_j t v w = (Ok j, w1) /\
    _convert_to_py t j w1 = (Ok v, w2).
Proof.
  intros Hf Hv Hw. split.
  - apply instance_deep_typecheck. apply canonical_instance_deep. exact Hv.
  - destruct (roundtrip_spec t Hf v Hv w Hw) as (j & Hthere & Hback).
    destruct (steady_convert_to_j t v w) as [Hframe _].
    destruct (_convert_to_j t v w) as [r w1] eqn:Ej. simpl in *. subst r.
    specialize (Hback w1 (frame_ready _ _ Hframe Hw)).
    destruct (_convert_to_py t j w1) as [r w2] eqn:Ep. simpl in *. subst r.
    exists j, w1, w2. split; [reflexivity | exact Ep].
Qed.

(** A struct of an array of longs, a set of strings, a dict from ints to
    variants and a double goes there and back. *)
Lemma C6_roundtrip_witness :
  let t := TStruct (JTStruct [])
             [mkField "xs" (TArray (JTArray (expr_object "TLong")) TLong) ∅;
              mkField "s" (TSet (JTSet (expr_object "TString")) TString) ∅;
              mkField "d" (TDict (JTDict (expr_object "TInt")
                                         (expr_object "TVariant"))
                                 TInt TVariant) ∅;
              mkField "x" TDouble ∅] in
  let v := VStruct [("xs", VList [VLong 7; VNone; VInt 0]);
                    ("s", VSet [VStr "a"; VStr "b"; VStr ""]);
                    ("d", VDict [(VInt 1, VRep Variant (JObj 5)); (VInt 2, VNone)]);
                    ("x", VFloat (S754_finite false 6755399441055744 (-52)))] in
  has_TFloat t = false /\ canonical t v = true /\ hail_ready fresh_world /\
  _typecheck t v = Ok tt /\
  exists j w1 w2,
    _convert_to_j t v fresh_world = (Ok j, w1) /\
    _convert_to_py t j w1 = (Ok v, w2).
Proof.
  intros t v.
  split; [reflexivity|]. split; [reflexivity|].
  split; [exact hail_ready_fresh_world|].
  exact (C6_roundtrip t v fresh_world eq_refl eq_refl hail_ready_fresh_world).
Defined.

(** * Further properties of the type tags *)

(** ** Which element a check reports *)

Lemma rfor_first_error {A} (body : A -> result unit) (pre post : list A)
    (x : A) (err : exn) :
  Forall (fun y => body y = Ok tt) pre -> body x = Raise err ->
  rfor body (pre ++ x :: post) = Raise err.
Proof.
  intros Hpre Hx. induction Hpre as [|y pre Hy _ IH]; simpl.
  - rewrite Hx. reflexivity.
  - rewrite Hy. simpl. exact IH.
Qed.

Lemma nonempty_middle {A} (pre post : list A) (x : A) :
  nonempty (pre ++ x :: post) = true.
Proof. destruct pre; reflexivity. Qed.

(** X1: [TArray._typecheck] and [TSet._typecheck] raise the error of the
    first element that fails the check of the element type: when the
    elements before [x] pass and [x] raises [err], the list or set raises
    [err], whatever comes after [x]. *)
Theorem typecheck_first_offender (jt : jtype) (e : Type_)
    (pre post : list value) (x : value) (err : exn) :
  Forall (fun y => _typecheck e y = Ok tt) pre ->
  _typecheck e x = Raise err ->
  _typecheck (TArray jt e) (VList (pre ++ x :: post)) = Raise err /\
  _typecheck (TSet jt e) (VSet (pre ++ x :: post)) = Raise err.
Proof.
  intros Hpre Hx. split; simpl; rewrite nonempty_middle;
    exact (rfor_first_error _ pre post x err Hpre Hx).
Qed.

(** In [[1, None, 'a', nan]] checked as an array of [TInt], the string is
    the element reported. *)
Lemma typecheck_first_offender_witness :
  let err := TypeCheckError (ExpectedType "TInt" CStr) in
  Forall (fun y => _typecheck TInt y = Ok tt) [VInt 1; VNone] /\
  _typecheck TInt (VStr "a") = Raise err /\
  _typecheck (TArray (JTArray (expr_object "TInt")) TInt)
             (VList [VInt 1; VNone; VStr "a"; VFloat S754_nan]) = Raise err.
Proof.
  intros err.
  assert (Hpre : Forall (fun y => _typecheck TInt y = Ok tt) [VInt 1; VNone])
    by (repeat constructor).
  split; [exact Hpre|]. split; [reflexivity|].
  exact (proj1 (typecheck_first_offender (JTArray (expr_object "TInt")) TInt
                  [VInt 1; VNone] [VFloat S754_nan] (VStr "a") err
                  Hpre eq_refl)).
Defined.

(** X2: [TDict._typecheck] goes through the items in order and checks
    the key of an item before its value: when the items before [(k, x)]
    pass, and [k] fails its check, or [k] passes and [x] fails, the dict
    raises that error. *)
Theorem typecheck_dict_first_offender (jt : jtype) (kt xt : Type_)
    (pre post : list (value * value)) (k x : value) (err : exn) :
  Forall (fun kv => _typecheck kt (fst kv) = Ok tt /\
                    _typecheck xt (snd kv) = Ok tt) pre ->
  (_typecheck kt k = Raise err \/
   (_typecheck kt k = Ok tt /\ _typecheck xt x = Raise err)) ->
  _typecheck (TDict jt kt xt) (VDict (pre ++ (k, x) :: post)) = Raise err.
Proof.
  intros Hpre Hx. simpl. rewrite nonempty_middle.
  apply rfor_first_error.
  - eapply Forall_impl; [exact Hpre|]. intros [k' x'] [Hk' Hx']. simpl in *.
    rewrite Hk'. exact Hx'.
  - simpl. destruct Hx as [Hk|[Hk Hx]]; rewrite Hk; [reflexivity | exact Hx].
Qed.

(** In [{'a': 1, 2: 'b'}] checked as a dict from [TString] to [TInt], the
    key [2] is reported, not the value ['b']. *)
Lemma typecheck_dict_first_offender_witness :
  let err := TypeCheckError (ExpectedType "TString" CInt) in
  let t := TDict (JTDict (expr_object "TString") (expr_object "TInt"))
                 TString TInt in
  _typecheck TString (VInt 2) = Raise err /\
  _typecheck t (VDict [(VStr "a", VInt 1); (VInt 2, VStr "b")]) = Raise err.
Proof.
  intros err t. split; [reflexivity|].
  apply (typecheck_dict_first_offender _ TString TInt
           [(VStr "a", VInt 1)] [] (VInt 2) (VStr "b") err).
  - repeat constructor.
  - left. reflexivity.
Defined.

(** ** What the check of a struct looks at *)

Lemma forallb_agree {A} (f g : A -> bool) (l : list A) :
  (forall x, In x l -> f x = g x) -> forallb f l = forallb g l.
Proof.
  induction l as [|x l IH]; intros H; [reflexivity|].
  simpl. rewrite (H x (or_introl eq_refl)), IH; [reflexivity|].
  intros y Hy. apply H. right. exact Hy.
Qed.

(** X3: [TStruct._typecheck] looks at the declared fields only: two
    structs with attributes that hold the same under every declared
    name are both accepted or both rejected, whatever else they hold and
    in whatever order. *)
Theorem typecheck_struct_declared_only (jt : jtype) (fs : list Field)
    (a1 a2 : list (string * value)) :
  a1 <> [] -> a2 <> [] ->
  (forall f, In f fs ->
     str_dict_get a1 (Field_name f) = str_dict_get a2 (Field_name f)) ->
  is_ok (_typecheck (TStruct jt fs) (VStruct a1)) =
  is_ok (_typecheck (TStruct jt fs) (VStruct a2)).
Proof.
  intros H1 H2 H. rewrite !typecheck_TStruct_is_ok.
  destruct a1 as [|p1 a1]; [congruence|]. destruct a2 as [|p2 a2]; [congruence|].
  cbn [truthy nonempty negb orb].
  apply forallb_agree. intros f Hf. rewrite (H f Hf). reflexivity.
Qed.

(** A struct with an attribute [z] the type does not declare is checked
    like the struct without it. *)
Lemma typecheck_struct_declared_only_witness :
  let t := TStruct (JTStruct [JField "a" (expr_object "TInt") ∅])
                   [mkField "a" TInt ∅] in
  is_ok (_typecheck t (VStruct [("a", VInt 1)])) =
  is_ok (_typecheck t (VStruct [("z", VStr "x"); ("a", VInt 1)])).
Proof.
  intros t.
  apply (typecheck_struct_declared_only _ [mkField "a" TInt ∅]
           [("a", VInt 1)] [("z", VStr "x"); ("a", VInt 1)]).
  - discriminate.
  - discriminate.
  - intros f [<-|[]]. reflexivity.
Defined.

(** ** Integers *)

(** X4: what [TBoolean._typecheck] accepts [TInt._typecheck] accepts,
    and what [TInt._typecheck] accepts [TLong._typecheck] accepts: a
    [bool] is an [int] to [isinstance], and [TLong] asks for [long] or
    [int]. *)
Theorem typecheck_integer_chain (v : value) :
  (is_ok (_typecheck TBoolean v) = true -> is_ok (_typecheck TInt v) = true) /\
  (is_ok (_typecheck TInt v) = true -> is_ok (_typecheck TLong v) = true).
Proof.
  cbn [_typecheck]. unfold check_instance, unexpected_type.
  split; destruct (truthy v); cbn [andb]; try (intros _; reflexivity);
    destruct v; cbn; intros H; try reflexivity; discriminate H.
Qed.

(** [True] passes all three checks. *)
Lemma typecheck_integer_chain_witness :
  is_ok (_typecheck TBoolean (VBool true)) = true /\
  is_ok (_typecheck TInt (VBool true)) = true /\
  is_ok (_typecheck TLong (VBool true)) = true.
Proof.
  split; [reflexivity|].
  pose proof (proj1 (typecheck_integer_chain (VBool true)) eq_refl) as H.
  split; [exact H|].
  exact (proj2 (typecheck_integer_chain (VBool true)) H).
Defined.

(** ** Missing values *)

(** X5: [None] stands for a missing value with every tag: [_typecheck]
    accepts it, [_convert_to_py] returns it, and so does [_convert_to_j]
    of every tag but [TFloat], all without reading [Env] or calling the
    engine. *)
Theorem None_passes_through (t : Type_) (w : world) :
  _typecheck t VNone = Ok tt /\
  _convert_to_py t VNone w = (Ok VNone, w) /\
  (t <> TFloat -> _convert_to_j t VNone w = (Ok VNone, w)).
Proof.
  split; [destruct t; reflexivity|].
  split; [destruct t; reflexivity|].
  intros Ht. destruct t; try reflexivity. congruence.
Qed.

(** An array of [TFloat] is not [TFloat]: its [None] converts. *)
Lemma None_passes_through_witness :
  let t := TArray (JTArray (expr_object "TFloat")) TFloat in
  t <> TFloat /\ _convert_to_j t VNone fresh_world = (Ok VNone, fresh_world).
Proof.
  intros t. assert (H : t <> TFloat) by discriminate.
  split; [exact H|].
  exact (proj2 (proj2 (None_passes_through t fresh_world)) H).
Defined.

(** ** Structs on their way to the engine and back *)

Lemma mapM_agree {A B} (f g : A -> M B) (l : list A) :
  (forall x w, In x l -> f x w = g x w) ->
  forall w, mapM f l w = mapM g l w.
Proof.
  induction l as [|x l IH]; intros H w; [reflexivity|].
  simpl. unfold bind at 1 3. rewrite (H x w (or_introl eq_refl)).
  destruct (g x w) as [[y|e] w1]; [|reflexivity].
  unfold bind. rewrite IH; [reflexivity|].
  intros x' w' Hx'. apply H. right. exact Hx'.
Qed.

(** X6: [TStruct._convert_to_j] reads a struct through [get] of the
    declared names, so an attribute that is not there is sent as [None]
    and an attribute the type does not declare is not sent: two structs
    that read the same under every declared name convert alike. *)
Theorem struct_to_j_reads_declared_fields (jt : jtype) (fs : list Field)
    (a1 a2 : list (string * value)) (w : world) :
  (forall f, In f fs ->
     default VNone (str_dict_get a1 (Field_name f)) =
     default VNone (str_dict_get a2 (Field_name f))) ->
  _convert_to_j (TStruct jt fs) (VStruct a1) w =
  _convert_to_j (TStruct jt fs) (VStruct a2) w.
Proof.
  intros H.
  assert (E : forall w',
            mapM (fun f => let* x := lift (py_get (VStruct a1) (Field_name f)) in
                           _convert_to_j (Field_typ f) x) fs w' =
            mapM (fun f => let* x := lift (py_get (VStruct a2) (Field_name f)) in
                           _convert_to_j (Field_typ f) x) fs w').
  { apply mapM_agree. intros f w' Hf. unfold bind, lift, py_get.
    rewrite (H f Hf). reflexivity. }
  cbn [_convert_to_j is_None negb]. unfold bind in *.
  destruct (Env_hail w) as [[h|e] w1]; [|reflexivity].
  destruct (Env_jutils w1) as [[ju|e] w2]; [|reflexivity].
  rewrite E. reflexivity.
Qed.

(** A struct that lacks field [b] and one that has [b] as [None] and an
    undeclared [z] besides are both sent as the row [('x', None)]. *)
Lemma struct_to_j_reads_declared_fields_witness :
  let t := TStruct (JTStruct [JField "a" (expr_object "TString") ∅;
                              JField "b" (expr_object "TString") ∅])
                   [mkField "a" TString ∅; mkField "b" TString ∅] in
  _convert_to_j t (VStruct [("a", VStr "x")]) fresh_world =
  _convert_to_j t (VStruct [("z", VInt 5); ("a", VStr "x"); ("b", VNone)])
                fresh_world /\
  fst (_convert_to_j t (VStruct [("a", VStr "x")]) fresh_world) =
    Ok (JRow [VStr "x"; VNone]).
Proof.
  intros t. split; [|reflexivity].
  apply (struct_to_j_reads_declared_fields _
           [mkField "a" TString ∅; mkField "b" TString ∅]).
  intros f [<-|[<-|[]]]; reflexivity.
Defined.

(** The keys of a dict that was filled item by item. *)
Section SetitemKeys.
Context {K V : Type} (eqb : K -> K -> bool).
Hypothesis eqb_eq : forall a b, eqb a b = true <-> a = b.

Lemma dict_setitem_keys (d : list (K * V)) (k : K) (v : V) (n : K) :
  In n (map fst (dict_setitem eqb d k v)) <-> In n (map fst d) \/ n = k.
Proof.
  induction d as [|[k' v'] d IH]; simpl.
  - split; [intros [<- | []]; right; reflexivity
           | intros [[] | ->]; left; reflexivity].
  - destruct (eqb k' k) eqn:E; simpl.
    + apply eqb_eq in E. subst k'. split; [tauto|].
      intros [H | ->]; [exact H | left; reflexivity].
    + rewrite IH. tauto.
Qed.

Lemma dict_setitem_NoDup (d : list (K * V)) (k : K) (v : V) :
  List.NoDup (map fst d) -> List.NoDup (map fst (dict_setitem eqb d k v)).
Proof.
  induction d as [|[k' v'] d IH]; simpl; intros H.
  - constructor; [intros [] | constructor].
  - destruct (eqb k' k) eqn:E; simpl; [exact H|].
    apply List.NoDup_cons_iff in H as [Hk Hd].
    constructor; [|exact (IH Hd)].
    rewrite dict_setitem_keys. intros [Hin | ->]; [exact (Hk Hin)|].
    assert (E' : eqb k k = true) by (apply eqb_eq; reflexivity).
    congruence.
Qed.

Lemma fold_setitem_keys (l acc : list (K * V)) :
  List.NoDup (map fst acc) ->
  let d := fold_left (fun d kv => dict_setitem eqb d (fst kv) (snd kv)) l acc in
  List.NoDup (map fst d) /\
  forall n, In n (map fst d) <-> In n (map fst acc) \/ In n (map fst l).
Proof.
  revert acc. induction l as [|[k v] l IH]; intros acc Hacc; simpl.
  - split; [exact Hacc | intros n; tauto].
  - destruct (IH (dict_setitem eqb acc k v) (dict_setitem_NoDup acc k v Hacc))
      as [Hd Hin].
    split; [exact Hd|]. intros n. rewrite Hin, dict_setitem_keys.
    split; [intros [[H|H]|H] | intros [H|[H|H]]]; auto.
Qed.

Lemma dict_of_items_keys (l : list (K * V)) :
  List.NoDup (map fst (dict_of_items eqb l)) /\
  forall n, In n (map fst (dict_of_items eqb l)) <-> In n (map fst l).
Proof.
  destruct (fold_setitem_keys l [] (List.NoDup_nil _)) as [Hd Hin].
  split; [exact Hd|]. intros n. rewrite (Hin n). simpl. tauto.
Qed.
End SetitemKeys.

Lemma str_dict_get_In {V} (d : list (string * V)) (n : string) :
  In n (map fst d) -> is_Some (str_dict_get d n).
Proof.
  induction d as [|[k v] d IH]; simpl; [intros []|].
  intros [-> | H].
  - rewrite String.eqb_refl. eexists. reflexivity.
  - destruct (String.eqb k n); [eexists; reflexivity | exact (IH H)].
Qed.

Lemma mapMi_names {A B} (h : nat -> A -> M (string * B)) (name : A -> string)
    (l : list A) :
  (forall i f w kv w', h i f w = (Ok kv, w') -> fst kv = name f) ->
  forall i w kvs w',
    mapMi h i l w = (Ok kvs, w') -> map fst kvs = map name l.
Proof.
  intros Hh. induction l as [|f l IH]; intros i w kvs w'; simpl.
  - intros H. injection H as <- _. reflexivity.
  - unfold bind at 1.
    destruct (h i f w) as [[kv|e] w1] eqn:Ekv; [|discriminate].
    unfold bind at 1.
    destruct (mapMi h (S i) l w1) as [[ys|e] w2] eqn:E; [|discriminate].
    intros H. injection H as <- _. simpl. f_equal.
    + exact (Hh _ _ _ _ _ Ekv).
    + exact (IH _ _ _ _ E).
Qed.

(** X7: the struct [TStruct._convert_to_py] makes of a row of the engine
    has the declared fields and no other: every declared name is an
    attribute, every attribute is a declared name, and no name comes
    twice, however many cells the row has beyond the declared ones. *)
Theorem struct_from_engine_has_declared_fields (jt : jtype) (fs : list Field)
    (j r : value) (w w' : world) :
  truthy j = true ->
  _convert_to_py (TStruct jt fs) j w = (Ok r, w') ->
  exists attrs,
    r = VStruct attrs /\
    List.NoDup (map fst attrs) /\
    (forall n, In n (map fst attrs) <-> In n (map Field_name fs)) /\
    (forall f, In f fs -> is_Some (str_dict_get attrs (Field_name f))).
Proof.
  intros Hj. cbn [_convert_to_py]. rewrite Hj.
  unfold bind at 1.
  destruct (mapMi _ 0%nat fs w) as [[kvs|e] w1] eqn:E; [|discriminate].
  intros H. injection H as <- <-.
  exists (dict_of_items String.eqb kvs). split; [reflexivity|].
  destruct (dict_of_items_keys String.eqb String.eqb_eq (V:=value) kvs) as [Hd Hin].
  assert (Hn : map fst kvs = map Field_name fs).
  { refine (mapMi_names _ Field_name fs _ 0%nat w kvs w1 E).
    intros i f w0 kv w0'. unfold bind, ret.
    destruct (py_get_index j i w0) as [[x|e] w2]; [|discriminate].
    destruct (_convert_to_py (Field_typ f) x w2) as [[v|e] w3]; [|discriminate].
    intros H. injection H as <- _. reflexivity. }
  split; [exact Hd|]. split.
  - intros n. rewrite Hin, Hn. tauto.
  - intros f Hf. apply str_dict_get_In. apply Hin. rewrite Hn.
    apply in_map. exact Hf.
Qed.

(** A row of three cells read as a struct of two fields gives the two
    fields. *)
Lemma struct_from_engine_has_declared_fields_witness :
  let fs := [mkField "a" TInt ∅; mkField "b" TString ∅] in
  let t := TStruct (JTStruct [JField "a" (expr_object "TInt") ∅;
                              JField "b" (expr_object "TString") ∅]) fs in
  let j := JRow [VInt 1; VStr "x"; VInt 9] in
  let r := VStruct [("a", VInt 1); ("b", VStr "x")] in
  truthy j = true /\
  fst (_convert_to_py t j fresh_world) = Ok r /\
  exists attrs,
    r = VStruct attrs /\
    forall f, In f fs -> is_Some (str_dict_get attrs (Field_name f)).
Proof.
  intros fs t j r. split; [reflexivity|]. split; [reflexivity|].
  destruct (struct_from_engine_has_declared_fields
              (JTStruct [JField "a" (expr_object "TInt") ∅;
                         JField "b" (expr_object "TString") ∅])
              fs j r fresh_world (snd (_convert_to_py t j fresh_world))
              eq_refl eq_refl)
    as (attrs & Hr & _ & _ & Hf).
  exists attrs. split; [exact Hr | exact Hf].
Defined.

(** ** Which element a conversion fails on *)

Lemma mapM_first_failure {A B} (f : A -> M B) (pre post : list A) (x : A)
    (err : exn) :
  (forall y, steady (f y)) ->
  Forall (fun y => succeeds (f y)) pre ->
  (forall w, hail_ready w -> fst (f x w) = Raise err) ->
  forall w, hail_ready w -> fst (mapM f (pre ++ x :: post) w) = Raise err.
Proof.
  intros Hs Hpre Hx. induction Hpre as [|y pre Hy _ IH]; intros w Hw; simpl.
  - unfold bind. specialize (Hx w Hw).
    destruct (f x w) as [[b|e] w1]; simpl in *; [discriminate|].
    injection Hx as ->. reflexivity.
  - unfold bind at 1. specialize (Hy w Hw).
    destruct (Hs y w) as [Hf _].
    destruct (f y w) as [[b|e] w1]; simpl in Hy, Hf; [|discriminate].
    unfold bind at 1. specialize (IH w1 (frame_ready _ _ Hf Hw)).
    destruct (mapM f (pre ++ x :: post) w1) as [[bs|e] w2]; simpl in *;
      [discriminate | exact IH].
Qed.

(** X8: with a Hail context, [TArray._convert_to_j] and
    [TSet._convert_to_j] fail with the error of the first element that
    does not convert: when the elements before [x] convert and [x]
    raises [err], converting the list or set raises [err].  So a
    container that has an element for [TFloat] to convert is never
    sent. *)
Theorem convert_array_first_failure (jt : jtype) (e : Type_)
    (pre post : list value) (x : value) (err : exn) (w : world) :
  hail_ready w ->
  Forall (fun y => succeeds (_convert_to_j e y)) pre ->
  (forall w', hail_ready w' -> fst (_convert_to_j e x w') = Raise err) ->
  fst (_convert_to_j (TArray jt e) (VList (pre ++ x :: post)) w) = Raise err /\
  fst (_convert_to_j (TSet jt e) (VSet (pre ++ x :: post)) w) = Raise err.
Proof.
  intros Hw Hpre Hx.
  pose proof (mapM_first_failure (_convert_to_j e) pre post x err
                (fun y => steady_convert_to_j e y) Hpre Hx) as Hm.
  split; cbn [_convert_to_j is_None negb].
  - unfold bind at 1.
    pose proof (succeeds_Env_jutils w Hw) as Hok.
    destruct (Env_jutils_run w) as [_ Hf].
    destruct (Env_jutils w) as [[ju|e0] w1]; [|discriminate].
    cbn [py_iter lift]. unfold bind at 1. unfold lift at 1.
    unfold bind at 1. specialize (Hm w1 (frame_ready _ _ Hf Hw)).
    destruct (mapM (_convert_to_j e) (pre ++ x :: post) w1) as [[js|e0] w2];
      simpl in *; [discriminate|]. injection Hm as ->. reflexivity.
  - cbn [py_iter lift]. unfold bind at 1. unfold lift at 1.
    unfold bind at 1. specialize (Hm w Hw).
    destruct (mapM (_convert_to_j e) (pre ++ x :: post) w) as [[js|e0] w2];
      simpl in *; [discriminate|]. injection Hm as ->. reflexivity.
Qed.

(** An array of [TFloat] holding a float: the float is what fails. *)
Lemma convert_array_first_failure_witness :
  let err := NotImplementedError
    "TFloat is currently unsupported in certain operations, use TDouble instead" in
  hail_ready fresh_world /\
  fst (_convert_to_j (TArray (JTArray (expr_object "TFloat")) TFloat)
                     (VList [VFloat S754_nan; VNone]) fresh_world) = Raise err.
Proof.
  intros err.
  assert (Hw : hail_ready fresh_world) by (eexists; reflexivity).
  split; [exact Hw|].
  apply (convert_array_first_failure (JTArray (expr_object "TFloat")) TFloat
           [] [VNone] (VFloat S754_nan) err fresh_world Hw).
  - constructor.
  - intros w' _. reflexivity.
Defined.

(** * Further properties of the bridge *)

(** ** The caches of [Env] (java.py) *)

(** X9: [Env.hail()] fails exactly when no package is cached and no JVM
    is set, and [Env.jutils()] exactly when, besides, no utils object is
    cached.  A call that fails raises the [EnvironmentError] of
    [Env.jvm()] and leaves [Env] as it was: nothing is cached by a
    failure. *)
Theorem Env_without_context (w : world) :
  (is_ok (fst (Env_hail w)) = false <->
   _hail_package w = None /\ _jvm w = None) /\
  (is_ok (fst (Env_jutils w)) = false <->
   _jutils w = None /\ _hail_package w = None /\ _jvm w = None) /\
  (is_ok (fst (Env_hail w)) = false -> Env_hail w = (Raise no_context, w)) /\
  (is_ok (fst (Env_jutils w)) = false -> Env_jutils w = (Raise no_context, w)).
Proof.
  unfold Env_jutils, Env_hail, Env_jvm.
  destruct w as [jvm hp ju inst n calls]. cbn.
  destruct ju as [u|], hp as [p|], jvm as [j|]; cbn;
    repeat split; try discriminate; try reflexivity;
    try (intros [? ?]; discriminate); try (intros (? & ? & ?); discriminate).
Qed.

(** Before any Hail context, [Env.jutils()] raises and changes nothing. *)
Lemma Env_without_context_witness :
  let w := mkWorld None None None ∅ 0 [] in
  is_ok (fst (Env_jutils w)) = false /\ Env_jutils w = (Raise no_context, w).
Proof.
  intros w. assert (H : is_ok (fst (Env_jutils w)) = false) by reflexivity.
  split; [exact H|].
  exact (proj2 (proj2 (proj2 (Env_without_context w))) H).
Defined.

(** X10: once [Env.hail()] or [Env.jutils()] has returned a handle, it
    returns that handle in every later state that still has the cache,
    and changes nothing, also when [Env._jvm] has been unset since. *)
Theorem Env_caches_stick (w w1 w2 : world) (h u : string) :
  (Env_hail w = (Ok h, w1) -> _hail_package w2 = _hail_package w1 ->
   Env_hail w2 = (Ok h, w2)) /\
  (Env_jutils w = (Ok u, w1) -> _jutils w2 = _jutils w1 ->
   Env_jutils w2 = (Ok u, w2)).
Proof.
  unfold Env_jutils, Env_hail, Env_jvm.
  destruct w as [jvm hp ju inst n calls]. cbn.
  split.
  - destruct hp as [p|]; [|destruct jvm as [j|]]; cbn;
      intros H E; try discriminate; injection H as <- <-; cbn in E;
      rewrite E; reflexivity.
  - destruct ju as [u0|]; [|destruct hp as [p|]; [|destruct jvm as [j|]]]; cbn;
      intros H E; try discriminate; injection H as <- <-; cbn in E;
      rewrite E; reflexivity.
Qed.

(** The utils object fetched in a new context is still returned in a
    state without JVM and without package. *)
Lemma Env_caches_stick_witness :
  let w1 := snd (Env_jutils fresh_world) in
  let w2 := mkWorld None None (_jutils w1) ∅ 7 [] in
  Env_jutils fresh_world = (Ok "is.hail.utils.package$.MODULE$", w1) /\
  Env_jutils w2 = (Ok "is.hail.utils.package$.MODULE$", w2).
Proof.
  intros w1 w2.
  assert (H : Env_jutils fresh_world = (Ok "is.hail.utils.package$.MODULE$", w1))
    by reflexivity.
  split; [exact H|].
  exact (proj2 (Env_caches_stick fresh_world w1 w2 "is.hail" _) H eq_refl).
Defined.

(** ** A class call that fails (expr.py) *)

(** X11: the call of a parameterless class can fail in one way only:
    with the [EnvironmentError] of [Env.jvm()], when the class has no
    instance yet and there is neither a JVM nor a cached package.  The
    failed call puts nothing into the instance table and sends nothing
    to the engine. *)
Theorem Singleton_call_failure (c : singleton_class) (w w1 : world) (e : exn) :
  Singleton_call c w = (Raise e, w1) ->
  e = no_context /\ _jvm w = None /\ _hail_package w = None /\
  _instances w !! c = None /\ _instances w1 = _instances w /\
  gateway_calls w1 = gateway_calls w.
Proof.
  unfold Singleton_call, new_instance, Env_hail, Env_jvm.
  destruct w as [jvm hp ju inst n calls]. cbn.
  destruct (inst !! c) as [i|]; [discriminate|].
  destruct hp as [p|]; [discriminate|].
  destruct jvm as [j|]; [discriminate|]. cbn.
  intros H. injection H as <- <-. repeat split.
Qed.

(** [TInt()] before any Hail context. *)
Lemma Singleton_call_failure_witness :
  let w := mkWorld None None None ∅ 0 [] in
  exists w1, Singleton_call TInt_cls w = (Raise no_context, w1) /\
             _instances w1 = _instances w.
Proof.
  intros w. exists (snd (Singleton_call TInt_cls w)).
  assert (H : Singleton_call TInt_cls w =
              (Raise no_context, snd (Singleton_call TInt_cls w)))
    by reflexivity.
  split; [exact H|].
  exact (proj1 (proj2 (proj2 (proj2 (proj2
           (Singleton_call_failure TInt_cls w _ no_context H)))))).
Defined.

(** ** What [Type._from_java] keeps (expr.py) *)

Lemma singletons_jtype (n : string) (c : singleton_class) :
  __singletons__ !! n = Some c -> _jtype (instance_of c) = JObject n.
Proof.
  intros H. unfold __singletons__ in H. apply elem_of_list_to_map_2 in H.
  repeat (apply elem_of_cons in H as [H|H];
          [injection H as -> ->; reflexivity|]).
  apply elem_of_nil in H. destruct H.
Qed.

Lemma Singleton_call_obj (c : singleton_class) (w w1 : world) (i : instance) :
  instances_sound w -> Singleton_call c w = (Ok i, w1) -> obj i = instance_of c.
Proof.
  intros Hs. unfold Singleton_call, new_instance.
  destruct (_instances w !! c) as [i0|] eqn:Hc.
  - intros H. injection H as <- <-. exact (Hs c i0 Hc).
  - destruct (Env_hail (bump_oid w)) as [[h|e] w']; [|discriminate].
    intros H. injection H as <- <-. reflexivity.
Qed.

(** X12: the tag [Type._from_java] returns holds the type object it was
    made from: its [_jtype] is the argument, for the parameterised
    classes and, by the names in [__singletons__], for the instances of
    the twelve parameterless ones. *)
Theorem from_java_keeps_handle (jt : jtype) (w w' : world) (t : Type_) :
  instances_sound w -> _from_java jt w = (Ok t, w') -> _jtype t = jt.
Proof.
  intros Hs. destruct jt as [n|e|e|k v|jfs].
  - rewrite from_java_JObject.
    destruct (__singletons__ !! n) as [c|] eqn:Hn.
    + unfold bind, ret.
      destruct (Singleton_call c w) as [[i|err] w1] eqn:Hc; [|discriminate].
      intros H. injection H as <- <-.
      rewrite (Singleton_call_obj c w w1 i Hs Hc).
      exact (singletons_jtype n c Hn).
    + repeat (destruct (String.eqb n _); [discriminate|]). discriminate.
  - rewrite from_java_TArray. unfold bind, ret.
    destruct (_from_java e w) as [[t0|err] w1]; [|discriminate].
    intros H. injection H as <- <-. reflexivity.
  - rewrite from_java_TSet. unfold bind, ret.
    destruct (_from_java e w) as [[t0|err] w1]; [|discriminate].
    intros H. injection H as <- <-. reflexivity.
  - rewrite from_java_TDict. unfold bind, ret.
    destruct (_from_java k w) as [[kt|err] w1]; [|discriminate].
    destruct (_from_java v w1) as [[vt|err] w2]; [|discriminate].
    intros H. injection H as <- <-. reflexivity.
  - rewrite from_java_TStruct. unfold bind, ret, jinvoke.
    destruct (Env_jutils w) as [[ju|err] w1]; [|discriminate].
    destruct (mapM field_from_java jfs _) as [[fs|err] w2]; [|discriminate].
    intros H. injection H as <- <-. reflexivity.
Qed.

(** The mirror of the engine's array of loci. *)
Lemma from_java_keeps_handle_witness :
  let jt := JTArray (JObject "is.hail.expr.TLocus$") in
  instances_sound fresh_world /\
  exists w', _from_java jt fresh_world = (Ok (TArray jt TLocus), w') /\
             _jtype (TArray jt TLocus) = jt.
Proof.
  intros jt.
  assert (Hs : instances_sound fresh_world) by exact (proj2 serving_fresh_world).
  split; [exact Hs|].
  exists (snd (_from_java jt fresh_world)).
  assert (H : _from_java jt fresh_world =
              (Ok (TArray jt TLocus), snd (_from_java jt fresh_world)))
    by (vm_compute; reflexivity).
  split; [exact H|].
  exact (from_java_keeps_handle jt fresh_world _ _ Hs H).
Defined.

Lemma keeps_ret {A} (a : A) : keeps_instances (ret a).
Proof. intros w c i H. exact H. Qed.

Lemma keeps_raise {A} (e : exn) : keeps_instances (@raise A e).
Proof. intros w c i H. exact H. Qed.

Lemma keeps_bind {A B} (m : M A) (k : A -> M B) :
  keeps_instances m -> (forall a, keeps_instances (k a)) ->
  keeps_instances (bind m k).
Proof.
  intros Hm Hk w c i H. unfold bind. specialize (Hm w c i H).
  destruct (m w) as [[a|e] w1]; simpl in *; [|exact Hm].
  exact (Hk a w1 c i Hm).
Qed.

Lemma keeps_mapM {A B} (f : A -> M B) (l : list A) :
  Forall (fun x => keeps_instances (f x)) l -> keeps_instances (mapM f l).
Proof.
  induction 1 as [|x l Hx Hl IH]; simpl; [apply keeps_ret|].
  apply keeps_bind; [exact Hx|]. intros y.
  apply keeps_bind; [exact IH|]. intros ys. apply keeps_ret.
Qed.

Lemma keeps_Env_jutils : keeps_instances Env_jutils.
Proof.
  intros w c i H. destruct (Env_jutils_run w) as [_ (_ & _ & -> & _)]. exact H.
Qed.

Lemma keeps_Singleton_call (c : singleton_class) :
  keeps_instances (Singleton_call c).
Proof. intros w c' i H. apply Singleton_call_keeps. exact H. Qed.

(** X13: [Type._from_java] never replaces an instance of a parameterless
    class: an instance that is in the table before the call, whether the
    call returns or raises, is in the table after it, and the class
    still returns it. *)
Theorem from_java_keeps_singletons (jt : jtype) (w : world)
    (c : singleton_class) (i : instance) :
  _instances w !! c = Some i ->
  _instances (snd (_from_java jt w)) !! c = Some i /\
  Singleton_call c (snd (_from_java jt w)) = (Ok i, snd (_from_java jt w)).
Proof.
  intros H.
  assert (K : keeps_instances (_from_java jt)).
  { clear. induction jt as [n|e IH|e IH|k v IHk IHv|jfs IH] using jtype_induction;
      intros w.
    - rewrite from_java_JObject.
      destruct (__singletons__ !! n) as [c|].
      + revert w. apply keeps_bind; [apply keeps_Singleton_call|].
        intros i. apply keeps_ret.
      + repeat (destruct (String.eqb n _); [revert w; apply keeps_raise|]).
        revert w. apply keeps_raise.
    - rewrite from_java_TArray. revert w.
      apply keeps_bind; [exact IH | intros; apply keeps_ret].
    - rewrite from_java_TSet. revert w.
      apply keeps_bind; [exact IH | intros; apply keeps_ret].
    - rewrite from_java_TDict. revert w.
      apply keeps_bind; [exact IHk|]. intros kt.
      apply keeps_bind; [exact IHv | intros; apply keeps_ret].
    - rewrite from_java_TStruct. intros c i H.
      pose proof (keeps_Env_jutils w c i H) as H1.
      unfold bind at 1.
      destruct (Env_jutils w) as [[ju|err] w1]; simpl in H1; [|exact H1].
      unfold bind at 1. unfold jinvoke.
      assert (K : keeps_instances
                    (let* fs := mapM field_from_java jfs in
                     ret (TStruct (JTStruct jfs) fs))).
      { apply keeps_bind; [|intros; apply keeps_ret].
        apply keeps_mapM. eapply Forall_impl; [exact IH|].
        intros [n ty a] Hty.
        apply keeps_bind; [exact Hty | intros; apply keeps_ret]. }
      apply K. exact H1. }
  pose proof (K w c i H) as H'. split; [exact H'|].
  apply Singleton_call_cached. exact H'.
Qed.

(** After [TInt()], mirroring a struct with an int and a long leaves the
    instance of [TInt] the object it was. *)
Lemma from_java_keeps_singletons_witness :
  let w := snd (Singleton_call TInt_cls fresh_world) in
  let jt := JTStruct [JField "x" (JObject "is.hail.expr.TInt$") ∅;
                      JField "y" (JObject "is.hail.expr.TLong$") ∅] in
  _instances w !! TInt_cls = Some (mkInstance 0 TInt) /\
  _instances (snd (_from_java jt w)) !! TInt_cls = Some (mkInstance 0 TInt).
Proof.
  intros w jt.
  assert (H : _instances w !! TInt_cls = Some (mkInstance 0 TInt))
    by (vm_compute; reflexivity).
  split; [exact H|].
  exact (proj1 (from_java_keeps_singletons jt w TInt_cls _ H)).
Defined.

(** ** A second look at a type object (expr.py) *)

Lemma still_cached_refl (w : world) : still_cached w w.
Proof. split; auto. Qed.

Lemma still_cached_trans (w1 w2 w3 : world) :
  still_cached w1 w2 -> still_cached w2 w3 -> still_cached w1 w3.
Proof. intros [Hi Hu] [Hi' Hu']. split; auto. Qed.

Lemma still_cached_sent (calls : list jcall) (w : world) :
  still_cached w (sent calls w).
Proof. split; auto. Qed.

Lemma sent_nil (w : world) : sent [] w = w.
Proof. destruct w. unfold sent. simpl. rewrite app_nil_r. reflexivity. Qed.

Lemma sent_sent (c1 c2 : list jcall) (w : world) :
  sent c2 (sent c1 w) = sent (c1 ++ c2) w.
Proof. unfold sent. simpl. rewrite app_assoc. reflexivity. Qed.

Lemma Env_hail_jutils (w : world) : _jutils (snd (Env_hail w)) = _jutils w.
Proof.
  unfold Env_hail, Env_jvm.
  destruct (_hail_package w); [reflexivity|].
  destruct (_jvm w); reflexivity.
Qed.

Lemma Singleton_call_still_cached (c : singleton_class) (w : world) :
  still_cached w (snd (Singleton_call c w)).
Proof.
  split.
  - intros c' i H. apply Singleton_call_keeps. exact H.
  - intros u H. unfold Singleton_call, new_instance.
    destruct (_instances w !! c); [exact H|].
    pose proof (Env_hail_jutils (bump_oid w)) as Hj.
    destruct (Env_hail (bump_oid w)) as [[h|e] w1]; simpl in *;
      rewrite Hj; exact H.
Qed.

Lemma Env_jutils_caches (w w1 : world) (u : string) :
  Env_jutils w = (Ok u, w1) -> still_cached w w1 /\ _jutils w1 = Some u.
Proof.
  intros H. split; [split|].
  - intros c i Hc. pose proof (keeps_Env_jutils w c i Hc) as K.
    rewrite H in K. exact K.
  - intros u' Hu. unfold Env_jutils in H. rewrite Hu in H.
    injection H as _ <-. exact Hu.
  - unfold Env_jutils in H. destruct (_jutils w) as [u0|] eqn:Hu.
    + injection H as <- <-. exact Hu.
    + destruct (Env_hail w) as [[h|e] w0]; [|discriminate].
      injection H as <- <-. reflexivity.
Qed.

(** X22: what [Type._from_java] has made it finds again: after a call
    that returned a tag, the instances and the utils object that were
    cached before are still cached, and a call on the same type object
    in that state, or in any later state that still has what is cached
    there, returns the same tag, makes no instance and caches nothing:
    the state it leaves differs from the one it found by the calls sent
    to the engine only, and these ask for the fields of the struct
    types again and for nothing else. *)
Theorem from_java_again (jt : jtype) :
  forall w t w1,
    _from_java jt w = (Ok t, w1) ->
    still_cached w w1 /\
    exists calls,
      Forall (fun c => method c = "iterableToArrayList") calls /\
      forall w2, still_cached w1 w2 ->
                 _from_java jt w2 = (Ok t, sent calls w2).
Proof.
  induction jt as [n|e IH|e IH|k v IHk IHv|jfs IH] using jtype_induction;
    intros w t w1.
  - rewrite from_java_JObject.
    destruct (__singletons__ !! n) as [c|] eqn:Hn.
    + unfold bind, ret.
      pose proof (Singleton_call_still_cached c w) as Hc.
      destruct (Singleton_call c w) as [[i|err] w0] eqn:E; [|discriminate].
      intros H. injection H as <- <-. split; [exact Hc|].
      exists []. split; [constructor|].
      intros w2 [Hi _]. rewrite from_java_JObject, Hn. unfold bind, ret.
      rewrite (Singleton_call_cached c i w2), sent_nil; [reflexivity|].
      apply Hi. exact (Singleton_call_stores c i w w0 E).
    + repeat (destruct (String.eqb n _); [discriminate|]). discriminate.
  - rewrite from_java_TArray. unfold bind, ret.
    destruct (_from_java e w) as [[t0|err] w0] eqn:E; [|discriminate].
    intros H. injection H as <- <-.
    destruct (IH _ _ _ E) as (Hc & calls & Hm & Hagain). split; [exact Hc|].
    exists calls. split; [exact Hm|].
    intros w2 Hw2. rewrite from_java_TArray. unfold bind, ret.
    rewrite (Hagain w2 Hw2). reflexivity.
  - rewrite from_java_TSet. unfold bind, ret.
    destruct (_from_java e w) as [[t0|err] w0] eqn:E; [|discriminate].
    intros H. injection H as <- <-.
    destruct (IH _ _ _ E) as (Hc & calls & Hm & Hagain). split; [exact Hc|].
    exists calls. split; [exact Hm|].
    intros w2 Hw2. rewrite from_java_TSet. unfold bind, ret.
    rewrite (Hagain w2 Hw2). reflexivity.
  - rewrite from_java_TDict. unfold bind, ret.
    destruct (_from_java k w) as [[kt|err] wa] eqn:Ek; [|discriminate].
    destruct (_from_java v wa) as [[vt|err] wb] eqn:Ev; [|discriminate].
    intros H. injection H as <- <-.
    destruct (IHk _ _ _ Ek) as (Hck & ck & Hmk & Hk).
    destruct (IHv _ _ _ Ev) as (Hcv & cv & Hmv & Hv).
    split; [exact (still_cached_trans _ _ _ Hck Hcv)|].
    exists (ck ++ cv)%list. split; [apply Forall_app; split; assumption|].
    intros w2 Hw2. rewrite from_java_TDict. unfold bind, ret.
    rewrite (Hk w2 (still_cached_trans _ _ _ Hcv Hw2)).
    rewrite (Hv (sent ck w2)
               (still_cached_trans _ _ _ Hw2 (still_cached_sent ck w2))).
    rewrite sent_sent. reflexivity.
  - rewrite from_java_TStruct. unfold bind at 1.
    destruct (Env_jutils w) as [[ju|err] wa] eqn:Eu; [|discriminate].
    unfold bind at 1. unfold jinvoke at 1.
    set (listing := mkCall (OnPath ju) "iterableToArrayList" [jtype_fields jfs]).
    unfold bind at 1.
    destruct (mapM field_from_java jfs (log_call listing wa))
      as [[fs|err] wb] eqn:Em; [|discriminate].
    unfold ret. intros H. injection H as <- <-.
    destruct (Env_jutils_caches w wa ju Eu) as [Hca Hju].
    assert (Hfields : forall w fs w1,
              mapM field_from_java jfs w = (Ok fs, w1) ->
              still_cached w w1 /\
              exists calls,
                Forall (fun c => method c = "iterableToArrayList") calls /\
                forall w2, still_cached w1 w2 ->
                           mapM field_from_java jfs w2 = (Ok fs, sent calls w2)).
    { clear -IH. induction IH as [|[n ty a] l Hty _ IHl]; intros w fs w1; simpl.
      - unfold ret. intros H. injection H as <- <-.
        split; [apply still_cached_refl|].
        exists []. split; [constructor|]. intros w2 _. rewrite sent_nil.
        reflexivity.
      - unfold bind at 1. unfold bind at 1.
        destruct (_from_java ty w) as [[t0|err] wa] eqn:Et; [|discriminate].
        unfold ret at 1. unfold bind at 1.
        destruct (mapM field_from_java l wa) as [[fs0|err] wb] eqn:El;
          [|discriminate].
        unfold ret. intros H. injection H as <- <-.
        destruct (Hty _ _ _ Et) as (Hct & ct & Hmt & Ht).
        destruct (IHl _ _ _ El) as (Hcl & cl & Hml & Hl).
        split; [exact (still_cached_trans _ _ _ Hct Hcl)|].
        exists (ct ++ cl)%list. split; [apply Forall_app; split; assumption|].
        intros w2 Hw2. unfold bind, ret.
        rewrite (Ht w2 (still_cached_trans _ _ _ Hcl Hw2)).
        rewrite (Hl (sent ct w2)
                   (still_cached_trans _ _ _ Hw2 (still_cached_sent ct w2))).
        rewrite sent_sent. reflexivity. }
    destruct (Hfields _ _ _ Em) as (Hcb & cf & Hmf & Hagain).
    split.
    { apply (still_cached_trans _ _ _ Hca).
      apply (still_cached_trans _ (log_call listing wa)); [|exact Hcb].
      exact (still_cached_sent [listing] wa). }
    exists (listing :: cf). split; [constructor; [reflexivity | exact Hmf]|].
    intros w2 Hw2. rewrite from_java_TStruct. unfold bind at 1.
    assert (Hu2 : _jutils w2 = Some ju).
    { apply Hw2. apply Hcb. exact Hju. }
    unfold Env_jutils at 1. rewrite Hu2.
    unfold bind at 1. unfold jinvoke at 1. fold listing.
    unfold bind, ret.
    rewrite (Hagain (log_call listing w2)
               (still_cached_trans _ _ _ Hw2 (still_cached_sent [listing] w2))).
    change (log_call listing w2) with (sent [listing] w2).
    rewrite sent_sent. reflexivity.
Qed.

(** Mirroring a struct of an int and a set of calls twice: the second
    time the one thing that happens is that the engine is asked for the
    fields. *)
Lemma from_java_again_witness :
  let jt := JTStruct [JField "x" (JObject "is.hail.expr.TInt$") ∅;
                      JField "y" (JTSet (JObject "is.hail.expr.TCall$")) ∅] in
  let t := TStruct jt [mkField "x" TInt ∅;
                       mkField "y" (TSet (JTSet (JObject "is.hail.expr.TCall$")) TCall) ∅] in
  let w1 := snd (_from_java jt fresh_world) in
  _from_java jt fresh_world = (Ok t, w1) /\
  exists calls,
    Forall (fun c => method c = "iterableToArrayList") calls /\
    _from_java jt w1 = (Ok t, sent calls w1).
Proof.
  intros jt t w1.
  assert (H : _from_java jt fresh_world = (Ok t, w1)) by (vm_compute; reflexivity).
  split; [exact H|].
  destruct (proj2 (from_java_again jt fresh_world t w1 H)) as (calls & Hm & Hagain).
  exists calls. split; [exact Hm|].
  exact (Hagain w1 (still_cached_refl w1)).
Defined.

(** ** Tags made by calling the classes (expr.py) *)

Lemma zip_with_names (names : list string) (types : list Type_) :
  length names = length types ->
  let fs := zip_with (fun n t => mkField n t ∅) names types in
  map Field_name fs = names /\ map Field_typ fs = types /\
  Forall (fun f => Field_attributes f = ∅) fs.
Proof.
  revert types. induction names as [|n names IH]; intros [|t types] H;
    try discriminate H; simpl.
  - repeat split. constructor.
  - injection H as H. destruct (IH types H) as (Hn & Ht & Ha).
    simpl in Hn, Ht, Ha. rewrite Hn, Ht.
    repeat split. constructor; [reflexivity | exact Ha].
Qed.

(** X14: [TStruct(names, types)] raises [ValueError], naming the two
    lengths, exactly when the lists differ in length, and does so before
    it reads [Env]; with lists of one length it raises the
    [EnvironmentError] of [Env.jvm()] without a Hail context, and with
    one it returns a struct type whose fields have the names and the
    types, in order, and no attributes. *)
Theorem TStruct_init_checks_lengths (names : list string) (types : list Type_)
    (w : world) :
  (length names <> length types ->
   TStruct_init names types w =
     (Raise (ValueError ("length of names and types not equal: " ++
                         py_format_d (length names) ++ " and " ++
                         py_format_d (length types))), w)) /\
  (length names = length types -> hail_path w = None ->
   TStruct_init names types w = (Raise no_context, w)) /\
  (length names = length types -> hail_ready w ->
   exists jt fs w',
     TStruct_init names types w = (Ok (TStruct jt fs), w') /\
     map Field_name fs = names /\ map Field_typ fs = types /\
     Forall (fun f => Field_attributes f = ∅) fs).
Proof.
  unfold TStruct_init. split; [|split].
  - intros H. apply Nat.eqb_neq in H. rewrite H. reflexivity.
  - intros H Hp. apply Nat.eqb_eq in H. rewrite H. cbn [negb].
    unfold bind, Env_hail, Env_jvm. unfold hail_path in Hp.
    destruct (_hail_package w); [discriminate|].
    destruct (_jvm w); [discriminate|]. reflexivity.
  - intros H Hw. pose proof H as H'. apply Nat.eqb_eq in H'. rewrite H'.
    cbn [negb]. unfold bind, ret.
    pose proof (succeeds_Env_hail w Hw) as Hok.
    destruct (Env_hail w) as [[h|e] w1]; [|discriminate].
    eexists _, _, _. split; [reflexivity|].
    exact (zip_with_names names types H).
Qed.

(** Two names with one type raise; two names with two types give the two
    fields. *)
Lemma TStruct_init_checks_lengths_witness :
  length ["a"; "b"] <> length [TInt] /\
  fst (TStruct_init ["a"; "b"] [TInt] fresh_world) =
    Raise (ValueError "length of names and types not equal: 2 and 1") /\
  hail_ready fresh_world /\
  exists jt fs w',
    TStruct_init ["a"; "b"] [TInt; TString] fresh_world = (Ok (TStruct jt fs), w') /\
    map Field_name fs = ["a"; "b"] /\ map Field_typ fs = [TInt; TString].
Proof.
  assert (Hne : length ["a"; "b"] <> length [TInt]) by discriminate.
  assert (Hr : hail_ready fresh_world) by (eexists; reflexivity).
  split; [exact Hne|]. split.
  - rewrite (proj1 (TStruct_init_checks_lengths ["a"; "b"] [TInt] fresh_world) Hne).
    reflexivity.
  - split; [exact Hr|].
    destruct (proj2 (proj2 (TStruct_init_checks_lengths
                              ["a"; "b"] [TInt; TString] fresh_world))
                eq_refl Hr) as (jt & fs & w' & H & Hn & Ht & _).
    exists jt, fs, w'. split; [exact H|]. split; [exact Hn | exact Ht].
Defined.

Lemma mirror_singleton (c : singleton_class) :
  mirror (_jtype (instance_of c)) = Some (instance_of c).
Proof. destruct c; vm_compute; reflexivity. Qed.

Lemma mirror_fields_zip (names : list string) (types : list Type_) :
  Forall (fun t => mirror (_jtype t) = Some t) types ->
  mirror_fields (zip_with (fun n t => JField n t ∅) names (map _jtype types)) =
  Some (zip_with (fun n t => mkField n t ∅) names types).
Proof.
  intros H. revert names. induction H as [|t types Ht _ IH]; intros names.
  - destruct names; reflexivity.
  - destruct names as [|n names]; [reflexivity|].
    simpl. rewrite Ht, IH. reflexivity.
Qed.

Lemma Env_hail_ok_inv {A} (k : string -> M A) (w w' : world) (a : A) :
  (let* h := Env_hail in k h) w = (Ok a, w') ->
  exists h w1, Env_hail w = (Ok h, w1) /\ k h w1 = (Ok a, w').
Proof.
  unfold bind. destruct (Env_hail w) as [[h|e] w1]; [|discriminate].
  intros H. exists h, w1. split; [reflexivity | exact H].
Qed.

Lemma constructed_mirror (t : Type_) :
  constructed t -> mirror (_jtype t) = Some t.
Proof.
  revert t.
  fix IH 2. intros t H. destruct H as
    [c | e t w w' He Ht | e t w w' He Ht | k v t w w' Hk Hv Ht
     | names types t w w' Hts Ht].
  - apply mirror_singleton.
  - apply Env_hail_ok_inv in Ht as (h & w1 & _ & Ht).
    injection Ht as <- _. simpl. unfold TArray_apply.
    rewrite (IH e He). reflexivity.
  - apply Env_hail_ok_inv in Ht as (h & w1 & _ & Ht).
    injection Ht as <- _. simpl. unfold TSet_apply.
    rewrite (IH e He). reflexivity.
  - apply Env_hail_ok_inv in Ht as (h & w1 & _ & Ht).
    injection Ht as <- _. simpl. unfold TDict_apply.
    rewrite (IH k Hk), (IH v Hv). reflexivity.
  - unfold TStruct_init in Ht.
    destruct (negb (length names =? length types)%nat); [discriminate|].
    apply Env_hail_ok_inv in Ht as (h & w1 & _ & Ht).
    injection Ht as <- _. cbn [_jtype]. unfold TStruct_apply.
    rewrite mirror_struct, mirror_fields_zip; [reflexivity|].
    clear -IH Hts. induction Hts as [|t types Ht _ IHts]; constructor.
    + exact (IH t Ht).
    + exact IHts.
Qed.

(** X15: a tag made by calling the classes is read back from its handle:
    for every tag built from instances of the parameterless classes by
    calls of [TArray], [TSet], [TDict] and [TStruct],
    [Type._from_java] of its [_jtype] returns that very tag, with the
    same components and fields. *)
Theorem from_java_of_constructed (t : Type_) (w : world) :
  constructed t -> serving w ->
  exists w', _from_java (_jtype t) w = (Ok t, w').
Proof.
  intros Ht Hw. pose proof (from_java_spec (_jtype t) w Hw) as H.
  rewrite (constructed_mirror t Ht) in H.
  destruct H as (w' & H & _). exists w'. exact H.
Qed.

(** [TStruct(['id', 'tags'], [TInt(), TArray(TString())])] and back. *)
Lemma from_java_of_constructed_witness :
  let w1 := snd (TArray_init TString fresh_world) in
  let a := TArray (JTArray (expr_object "TString")) TString in
  let s := TStruct (JTStruct [JField "id" (expr_object "TInt") ∅;
                              JField "tags" (JTArray (expr_object "TString")) ∅])
                   [mkField "id" TInt ∅; mkField "tags" a ∅] in
  TArray_init TString fresh_world = (Ok a, w1) /\
  TStruct_init ["id"; "tags"] [TInt; a] w1 = (Ok s, w1) /\
  exists w', _from_java (_jtype s) w1 = (Ok s, w').
Proof.
  intros w1 a s.
  assert (Ha : TArray_init TString fresh_world = (Ok a, w1)) by reflexivity.
  assert (Hs : TStruct_init ["id"; "tags"] [TInt; a] w1 = (Ok s, w1))
    by reflexivity.
  split; [exact Ha|]. split; [exact Hs|].
  apply from_java_of_constructed.
  - apply (constructed_TStruct ["id"; "tags"] [TInt; a] s w1 w1); [|exact Hs].
    constructor; [exact (constructed_singleton TInt_cls)|].
    constructor; [|constructor].
    exact (constructed_TArray TString a fresh_world w1
             (constructed_singleton TString_cls) Ha).
  - split; [eexists; reflexivity|].
    intros c i H. vm_compute in H. discriminate H.
Defined.

(** ** Bounds that are not numbers (stats.py) *)

(** X16: a bound that is a NaN passes the tests of the constructors,
    since every comparison with it is false: [UniformDist] accepts a NaN
    for either bound, whatever the other is, and [TruncatedBetaDist]
    with a NaN for one bound rejects only a maximum above 1 or a minimum
    below 0. *)
Theorem NaN_bounds_pass_validation (a b x : numeric) (w : world) :
  let nan := NFloat S754_nan in
  is_ok (fst (UniformDist nan x w)) = true /\
  is_ok (fst (UniformDist x nan w)) = true /\
  is_ok (fst (TruncatedBetaDist a b nan x w)) = negb (py_gt x (NInt 1)) /\
  is_ok (fst (TruncatedBetaDist a b x nan w)) = negb (py_lt x (NInt 0)).
Proof.
  intros nan. destruct (py_compare_nan x) as (H1 & H2 & H3 & H4).
  unfold UniformDist, TruncatedBetaDist, construct, UniformDist_init,
    TruncatedBetaDist_init. fold nan in H1, H2, H3, H4.
  rewrite H1, H2.
  assert (E0 : py_lt nan (NInt 0) = false) by reflexivity.
  assert (E1 : py_gt nan (NInt 1) = false) by reflexivity.
  rewrite E0, E1.
  split; [reflexivity|]. split; [reflexivity|].
  split; [destruct (py_gt x (NInt 1)); reflexivity|].
  destruct (py_lt x (NInt 0)); reflexivity.
Qed.

(** ** Sequences across the bridge (java.py) *)

Lemma Env_jutils_ready (w : world) :
  hail_ready w ->
  exists u w', Env_jutils w = (Ok u, w') /\ hail_ready w' /\
               gateway_calls w' = gateway_calls w.
Proof.
  intros Hw. pose proof (succeeds_Env_jutils w Hw) as Hok.
  destruct (Env_jutils_run w) as [_ Hf].
  assert (Hc : gateway_calls (snd (Env_jutils w)) = gateway_calls w).
  { unfold Env_jutils. destruct (_jutils w); [reflexivity|].
    pose proof (Env_hail_calls w) as Hh.
    destruct (Env_hail w) as [[h|e] w1]; exact Hh. }
  destruct (Env_jutils w) as [[u|e] w'] eqn:E; [|discriminate].
  exists u, w'. split; [reflexivity|]. split; [|exact Hc].
  eapply frame_ready; eassumption.
Qed.

(** X17: with a Hail context, [jiterable_to_list] of what [jindexed_seq]
    made of a list is that list, the empty list included (the handle of
    an empty sequence is true, so it does not come back as [None]); the
    two cost one call to the engine each. *)
Theorem jindexed_seq_there_and_back (l : list value) (w : world) :
  hail_ready w ->
  exists j w1 w2,
    jindexed_seq (VList l) w = (Ok j, w1) /\
    jiterable_to_list j w1 = (Ok (VList l), w2) /\
    length (gateway_calls w2) = S (S (length (gateway_calls w))).
Proof.
  intros Hw.
  destruct (Env_jutils_ready w Hw) as (u & w1 & E1 & Hw1 & Hc1).
  set (w1' := log_call (mkCall (OnPath u) "arrayListToISeq" [VList l]) w1).
  assert (Hw1' : hail_ready w1') by exact Hw1.
  destruct (Env_jutils_ready w1' Hw1') as (u' & w2 & E2 & _ & Hc2).
  exists (JISeq l), w1',
         (log_call (mkCall (OnPath u') "iterableToArrayList" [JISeq l]) w2).
  split; [|split].
  - unfold jindexed_seq, bind, jinvoke. rewrite E1. reflexivity.
  - unfold jiterable_to_list, bind, jinvoke, ret. cbn [truthy].
    rewrite E2. reflexivity.
  - cbn. rewrite length_app, Hc2. cbn. rewrite length_app, Hc1. cbn. lia.
Qed.

(** The empty list there and back. *)
Lemma jindexed_seq_there_and_back_witness :
  hail_ready fresh_world /\
  exists j w1 w2,
    jindexed_seq (VList []) fresh_world = (Ok j, w1) /\
    jiterable_to_list j w1 = (Ok (VList []), w2).
Proof.
  assert (Hw : hail_ready fresh_world) by (eexists; reflexivity).
  split; [exact Hw|].
  destruct (jindexed_seq_there_and_back [] fresh_world Hw)
    as (j & w1 & w2 & H1 & H2 & _).
  exists j, w1, w2. split; [exact H1 | exact H2].
Defined.

(** X18: with a Hail context, [jindexed_seq_args] and [jset_args] send a
    lone [str] as the sequence or set of that one string, and a list as
    it is; a lone [unicode] string is not a [str], is sent unwrapped, and
    the engine refuses it. *)
Theorem seq_args_wrap_str_only (s : string) (l : list value) (w : world) :
  hail_ready w ->
  fst (jindexed_seq_args (VStr s) w) = Ok (JISeq [VStr s]) /\
  fst (jset_args (VStr s) w) = Ok (JSet [VStr s]) /\
  fst (jindexed_seq_args (VList l) w) = Ok (JISeq l) /\
  fst (jset_args (VList l) w) = Ok (JSet l) /\
  fst (jindexed_seq_args (VUnicode s) w) = Raise Py4JError /\
  fst (jset_args (VUnicode s) w) = Raise Py4JError.
Proof.
  intros Hw. destruct (Env_jutils_ready w Hw) as (u & w1 & E1 & _ & _).
  unfold jindexed_seq_args, jset_args, jindexed_seq, jset, bind, jinvoke.
  cbn. rewrite E1. cbn. repeat split.
Qed.

(** ['chr1'] and [u'chr1']. *)
Lemma seq_args_wrap_str_only_witness :
  hail_ready fresh_world /\
  fst (jindexed_seq_args (VStr "chr1") fresh_world) = Ok (JISeq [VStr "chr1"]) /\
  fst (jindexed_seq_args (VUnicode "chr1") fresh_world) = Raise Py4JError.
Proof.
  assert (Hw : hail_ready fresh_world) by (eexists; reflexivity).
  split; [exact Hw|].
  destruct (seq_args_wrap_str_only "chr1" [] fresh_world Hw)
    as (H1 & _ & _ & _ & H5 & _).
  split; [exact H1 | exact H5].
Defined.

(** ** Arrays made from lists (java.py) *)

Lemma jarray_fill_stores (jtype : string) (rest done : list value) :
  jarray_fill (mkJavaArray jtype (done ++ replicate (length rest) VNone)%list)
              (length done) rest =
  Returned (mkJavaArray jtype (done ++ rest)%list).
Proof.
  revert done. induction rest as [|x rest IH]; intros done.
  - simpl. reflexivity.
  - cbn [jarray_fill length replicate]. unfold JavaArray_setitem.
    cbn [cells component].
    assert (Hlt : (length done <?
                   length (done ++ VNone :: replicate (length rest) VNone)%list)%nat
                  = true).
    { apply Nat.ltb_lt. rewrite length_app. simpl. lia. }
    rewrite Hlt.
    assert (Hins : <[length done := x]>
                     (done ++ VNone :: replicate (length rest) VNone)%list
                   = ((done ++ [x]) ++ replicate (length rest) VNone)%list).
    { rewrite insert_app_r_alt by lia. rewrite Nat.sub_diag. simpl.
      rewrite <- app_assoc. reflexivity. }
    rewrite Hins.
    assert (Hlen : S (length done) = length (done ++ [x])%list).
    { rewrite length_app. simpl. lia. }
    rewrite Hlen, IH, <- app_assoc. reflexivity.
Qed.

(** X19: with a gateway, [jarray(jtype, lst)] returns an array of that
    class whose cells are the elements of [lst], in order, and changes
    nothing; without one it raises the [EnvironmentError] of
    [Env.gateway()].  [jarray_to_list] gives the list back, except that
    the array of the empty list comes back as [None]. *)
Theorem jarray_there_and_back (jtype : string) (lst : list value) (s : session) :
  jarray jtype lst s =
    (match _gateway s with
     | Some _ => Returned (mkJavaArray jtype lst)
     | None => Raised NoContext
     end, s) /\
  jarray_to_list (Some (mkJavaArray jtype lst)) =
    if nonempty lst then VList lst else VNone.
Proof.
  split; [|reflexivity].
  unfold jarray, SM_bind, Env_gateway.
  destruct (_gateway s) as [g|]; [|reflexivity].
  unfold new_array.
  pose proof (jarray_fill_stores jtype lst []) as H. cbn [app length] in H.
  rewrite H. reflexivity.
Qed.

(** ** Errors of the engine (java.py) *)

Section handle_py4j_properties.
Variable handleForPython : value -> string * string.
Context {A : Type}.

Lemma session_jutils_run (s : session) :
  session_jutils s =
  (match jutils_path (env s) with
   | Some u => Returned u
   | None => Raised NoContext
   end, with_env s (snd (Env_jutils (env s)))).
Proof.
  unfold session_jutils. destruct (Env_jutils_run (env s)) as [Hr _].
  destruct (Env_jutils (env s)) as [[u|e] w]; simpl in *;
    destruct (jutils_path (env s)); try discriminate; congruence.
Qed.


(** X21: when the decorated function raises a [Py4JJavaError], the
    caller gets a [FatalError] whose text is made of the deepest message
    and the stack trace the engine gives for the Java exception and of
    the version of the Hail context; without a JVM to ask, or without a
    Hail context, the caller gets the [EnvironmentError] of [Env]
    instead. *)
Theorem handle_py4j_java_error (func : SM A) (s s1 : session) (je : value) :
  func s = (Raised (Py4JJavaError je), s1) ->
  fst (handle_py4j handleForPython func s) =
    match jutils_path (env s1), _hc s1 with
    | Some _, Some hc =>
        let deepest := fst (handleForPython je) in
        let full := snd (handleForPython je) in
        Raised (FatalError (fatal_message deepest full (version hc) deepest))
    | _, _ => Raised NoContext
    end.
Proof.
  intros H. unfold handle_py4j. rewrite H.
  unfold SM_bind. rewrite session_jutils_run.
  destruct (jutils_path (env s1)); [|reflexivity].
  cbn. unfold Env_hc. cbn. destruct (_hc s1); reflexivity.
Qed.
(** X23: when the decorated function raises a [Py4JError] that is not a
    [Py4JJavaError], what the caller gets depends on the arguments it
    was raised with: with none, the [IndexError] of reading the first;
    with a first argument that is not a text, [None] for one, the
    [AttributeError] of asking it for [startswith]; with a first text
    that begins with [An error occurred while calling], a [FatalError]
    about invalid parameter types whose stack trace is that text when it
    is the only argument and empty otherwise, or the [EnvironmentError]
    of [Env.hc()] without a Hail context; with any other first text, the
    exception itself. *)
Theorem handle_py4j_call_error (func : SM A) (s s1 : session)
    (args : list value) :
  func s = (Raised (Py4JErrorWith args), s1) ->
  handle_py4j handleForPython func s =
    (match args with
     | [] => Raised (IndexError "tuple index out of range")
     | first :: rest =>
         match first with
         | VStr text | VUnicode text =>
             if String.prefix "An error occurred while calling" text then
               match _hc s1 with
               | Some hc =>
                   let msg := "An error occurred while calling into JVM, probably due to invalid parameter types." in
                   Raised (FatalError
                             (fatal_message msg
                                (match rest with [] => text | _ => "" end)
                                (version hc) msg))
               | None => Raised NoContext
               end
             else Raised (Py4JErrorWith args)
         | _ => Raised (NoAttribute "startswith")
         end
     end, s1).
Proof.
  intros H. unfold handle_py4j. rewrite H.
  destruct args as [|first rest]; [reflexivity|].
  destruct first; cbn [py_text]; try reflexivity;
    (destruct (String.prefix _ _); [|reflexivity]);
    unfold SM_bind, Env_hc; (destruct (_hc s1); [|reflexivity]);
    destruct rest; reflexivity.
Qed.
End handle_py4j_properties.


(** A Java exception in a session with a context of version [0.1]. *)
Lemma handle_py4j_java_error_witness :
  let s := mkSession fresh_world (Some (Gateway 0))
                     (Some (mkHailContext "0.1")) in
  let func : SM nat := fun s => (Raised (Py4JJavaError (JObj 0)), s) in
  let engine := fun _ : value => ("no such file", "at is.hail...") in
  func s = (Raised (Py4JJavaError (JObj 0)), s) /\
  fst (handle_py4j engine func s) =
    Raised (FatalError
              (fatal_message "no such file" "at is.hail..." "0.1" "no such file")).
Proof.
  intros s func engine.
  assert (H : func s = (Raised (Py4JJavaError (JObj 0)), s)) by reflexivity.
  split; [exact H|].
  exact (handle_py4j_java_error engine func s s (JObj 0) H).
Defined.

(** An error about a lost connection is passed on as it is; one raised
    with [None] ends in the [AttributeError]. *)
Lemma handle_py4j_call_error_witness :
  let s := mkSession fresh_world None None in
  let lost : SM nat :=
    fun s => (Raised (Py4JErrorWith [VStr "Connection lost"]), s) in
  let bare : SM nat := fun s => (Raised (Py4JErrorWith [VNone]), s) in
  lost s = (Raised (Py4JErrorWith [VStr "Connection lost"]), s) /\
  handle_py4j (fun _ => ("", "")) lost s =
    (Raised (Py4JErrorWith [VStr "Connection lost"]), s) /\
  handle_py4j (fun _ => ("", "")) bare s =
    (Raised (NoAttribute "startswith"), s).
Proof.
  intros s lost bare.
  assert (H : lost s = (Raised (Py4JErrorWith [VStr "Connection lost"]), s))
    by reflexivity.
  split; [exact H|]. split.
  - exact (handle_py4j_call_error (fun _ => ("", "")) lost s s
             [VStr "Connection lost"] H).
  - exact (handle_py4j_call_error (fun _ => ("", "")) bare s s
             [VNone] eq_refl).
Defined.
